(** * OGROSMLayer: the OSM layer core of the OGR OSM driver

    A shallow embedding of [ogr/ogrsf_frmts/osm/ogrosmlayer.cpp]: the per-layer
    feature array with its thresholds, the interleaved-reading scheduler of
    [MyGetNextFeature], the projection of tags onto fields with the
    other_tags / all_tags aggregate, and the computed attributes (placeholder
    extraction, the hard-coded z_order formula and the SQLite path). *)

From Stdlib Require Import ZArith String Ascii Lia Bool DecimalString.
From Stdlib Require Import Floats.PrimFloat.
From stdpp Require Import base gmap strings list.

Local Open Scope Z_scope.

(** ** Constants and basic data *)

Definition SWITCH_THRESHOLD : Z := 10000.
Definition MAX_THRESHOLD : Z := 100000.

(** [std::vector::size()], as a number that is compared with the thresholds. *)
Definition size {A : Type} (v : list A) : Z := Z.of_nat (length v).

(** C [double]. *)
Definition double : Set := float.

(** The arguments of [OGRFeature::SetField(name, y, m, d, h, min, sec, tz)]. *)
Record DateTime : Set := mkDateTime {
  dt_year : Z; dt_month : Z; dt_day : Z;
  dt_hour : Z; dt_minute : Z; dt_second : Z; dt_tzflag : Z
}.

(** The value of a field slot, tagged with the [SetField] overload that wrote
    it.  The coercion that OGR applies when the declared type of the field
    differs from the type of the argument happens inside [OGRFeature] and is
    not part of this file. *)
Inductive OGRField : Set :=
  | OFInteger (n : Z)        (* SetField(int, int) *)
  | OFInteger64 (n : Z)      (* SetField(int, GIntBig) *)
  | OFReal (d : double)      (* SetField(int, double) *)
  | OFString (s : string)    (* SetField(int, const char* ) *)
  | OFDateTime (t : DateTime).

(** An [OGRFeature]: its FID and one slot per field of the feature definition;
    [None] is an unset field. *)
Record OGRFeature : Set := mkFeature {
  nFID : Z;
  fields : list (option OGRField)
}.

Inductive CPLErr : Set := CE_None | CE_Debug | CE_Warning | CE_Failure | CE_Fatal.
Inductive CPLErrorNum : Set := CPLE_AppDefined | CPLE_OutOfMemory.

(** One call of [CPLError(eErrClass, err_no, fmt, ...)]. *)
Record CPLErrorEvent : Set := mkError {
  eErrClass : CPLErr;
  err_no : CPLErrorNum;
  err_msg : string
}.

(** ** The feature array of a layer *)

(** The members of [OGROSMLayer] that [AddFeature], [AddToArray] and
    [MyGetNextFeature] read and write.  A slot of [m_apoFeatures] is a
    [std::unique_ptr<OGRFeature>]: [None] is a pointer that was moved from. *)
Record LayerBuffer : Type := mkBuffer {
  m_apoFeatures : list (option OGRFeature);
  m_nFeatureArrayIndex : nat;
  m_bHasWarnedTooManyFeatures : bool;
  m_bResetReadingAllowed : bool;
  m_bUserInterested : bool;
  m_poFilterGeom : option (OGRFeature -> bool);  (* with FilterGeometry *)
  m_poAttrQuery : option (OGRFeature -> bool)    (* with Evaluate *)
}.

Definition set_features (L : LayerBuffer) (v : list (option OGRFeature))
    (i : nat) : LayerBuffer :=
  mkBuffer v i (m_bHasWarnedTooManyFeatures L) (m_bResetReadingAllowed L)
           (m_bUserInterested L) (m_poFilterGeom L) (m_poAttrQuery L).

Definition set_warned (L : LayerBuffer) : LayerBuffer :=
  mkBuffer (m_apoFeatures L) (m_nFeatureArrayIndex L) true
           (m_bResetReadingAllowed L) (m_bUserInterested L)
           (m_poFilterGeom L) (m_poAttrQuery L).

Definition set_reset_allowed (L : LayerBuffer) (b : bool) : LayerBuffer :=
  mkBuffer (m_apoFeatures L) (m_nFeatureArrayIndex L)
           (m_bHasWarnedTooManyFeatures L) b (m_bUserInterested L)
           (m_poFilterGeom L) (m_poAttrQuery L).

(** A layer as the constructor leaves its array: empty, cursor at 0. *)
Definition new_buffer (interested : bool)
    (geom attr : option (OGRFeature -> bool)) : LayerBuffer :=
  mkBuffer [] 0%nat false false interested geom attr.

(** [OGROSMLayer::ForceResetReading]. *)
Definition ForceResetReading (L : LayerBuffer) : LayerBuffer :=
  set_reset_allowed (set_features L [] 0%nat) false.

Definition too_many_features : CPLErrorEvent :=
  mkError CE_Failure CPLE_AppDefined
          "Too many features have accumulated in %s layer.".

Definition cannot_resize : CPLErrorEvent :=
  mkError CE_Failure CPLE_OutOfMemory
          "For layer %s, cannot resize feature array".

(** [OGROSMLayer::AddToArray].  [bad_alloc] says whether [push_back] throws. *)
Definition AddToArray (L : LayerBuffer) (poFeature : OGRFeature)
    (bCheckFeatureThreshold : bool) (bad_alloc : bool)
    : bool * LayerBuffer * list CPLErrorEvent :=
  if bCheckFeatureThreshold && (size (m_apoFeatures L) >? MAX_THRESHOLD) then
    (false, set_warned L,
     if m_bHasWarnedTooManyFeatures L then [] else [too_many_features])
  else if bad_alloc then
    (false, L, [cannot_resize])
  else
    (true,
     set_features L (m_apoFeatures L ++ [Some poFeature]) (m_nFeatureArrayIndex L),
     []).

(** [OGROSMLayer::EvaluateAttributeFilter]. *)
Definition EvaluateAttributeFilter (L : LayerBuffer) (poFeature : OGRFeature) : bool :=
  match m_poAttrQuery L with
  | None => true
  | Some q => q poFeature
  end.

(** The result of [AddFeature]: the returned flag, what was written through
    [pbFilteredOut] ([None]: nothing was written), the layer, the errors. *)
Record AddFeatureResult : Type := mkAddResult {
  add_ok : bool;
  add_filtered_out : option bool;
  add_layer : LayerBuffer;
  add_errors : list CPLErrorEvent
}.

(** [OGROSMLayer::AddFeature]. *)
Definition AddFeature (L : LayerBuffer) (poFeature : OGRFeature)
    (bAttrFilterAlreadyEvaluated bCheckFeatureThreshold bad_alloc : bool)
    : AddFeatureResult :=
  if negb (m_bUserInterested L) then mkAddResult true (Some true) L []
  else
    let geom_ok := match m_poFilterGeom L with
                   | None => true
                   | Some FilterGeometry => FilterGeometry poFeature
                   end in
    let attr_ok := match m_poAttrQuery L with
                   | None => true
                   | Some Evaluate => bAttrFilterAlreadyEvaluated || Evaluate poFeature
                   end in
    if geom_ok && attr_ok then
      match AddToArray L poFeature bCheckFeatureThreshold bad_alloc with
      | (false, L', errs) => mkAddResult false None L' errs
      | (true, L', errs) => mkAddResult true (Some false) L' errs
      end
    else mkAddResult true (Some true) L [].

(** Lines 257-266 of [MyGetNextFeature]: hand over the feature under the
    cursor, advance, and clear the array when the cursor reaches its end.  The
    caller runs this on a non-empty array only; an index outside the array
    (undefined in C++) hands over nothing and changes nothing here. *)
Definition TakeNext (L : LayerBuffer) : option OGRFeature * LayerBuffer :=
  match m_apoFeatures L !! m_nFeatureArrayIndex L with
  | None => (None, L)
  | Some poFeature =>
      let moved := <[m_nFeatureArrayIndex L := None]> (m_apoFeatures L) in
      let idx := S (m_nFeatureArrayIndex L) in
      if (idx =? length moved)%nat
      then (poFeature, set_features L [] 0%nat)
      else (poFeature, set_features L moved idx)
  end.

(** ** The data source as the scheduler sees it *)

(** A chunk of the input: the features it produces, each for a layer. *)
Definition Chunk : Type := list (nat * OGRFeature).

Record OGROSMDataSource : Type := mkDS {
  m_apoLayers : list LayerBuffer;
  m_poCurrentLayer : option nat;     (* index in m_apoLayers; None is nullptr *)
  m_bInterleavedReading : bool;
  m_stream : list Chunk;             (* what is left of the input *)
  m_nChunkCalls : nat                (* calls of ParseNextChunk so far *)
}.

Definition set_layers (ds : OGROSMDataSource) (ls : list LayerBuffer) : OGROSMDataSource :=
  mkDS ls (m_poCurrentLayer ds) (m_bInterleavedReading ds) (m_stream ds)
       (m_nChunkCalls ds).

Definition SetCurrentLayer (ds : OGROSMDataSource) (c : option nat) : OGROSMDataSource :=
  mkDS (m_apoLayers ds) c (m_bInterleavedReading ds) (m_stream ds)
       (m_nChunkCalls ds).

(** The features of one chunk reach their layers through [AddFeature]. *)
Fixpoint deliver (c : Chunk) (ls : list LayerBuffer) : list LayerBuffer :=
  match c with
  | [] => ls
  | (i, f) :: rest =>
      match ls !! i with
      | None => deliver rest ls
      | Some L =>
          deliver rest (<[i := add_layer (AddFeature L f false true false)]> ls)
      end
  end.

(** Modelled from the spec: [OGROSMDataSource::ParseNextChunk] is in
    ogrosmdatasource.cpp; section 6 describes it as
    pullNextChunk(targetLayerIndex) -> continueFlag, which advances the stream
    and triggers zero or more appends into the layer buffers.  Here it takes
    the next chunk off [m_stream], delivers its features, and answers whether
    there was a chunk; every call is counted in [m_nChunkCalls]. *)
Definition ParseNextChunk (ds : OGROSMDataSource) (nIdxLayer : nat)
    : bool * OGROSMDataSource :=
  match m_stream ds with
  | [] =>
      (false, mkDS (m_apoLayers ds) (m_poCurrentLayer ds)
                   (m_bInterleavedReading ds) [] (S (m_nChunkCalls ds)))
  | c :: rest =>
      (true, mkDS (deliver c (m_apoLayers ds)) (m_poCurrentLayer ds)
                  (m_bInterleavedReading ds) rest (S (m_nChunkCalls ds)))
  end.

(** [for (i = 0; i < GetLayerCount(); i++) if (m_apoLayers[i] != this && P) ...]:
    the first layer other than [this] that satisfies [P]. *)
Fixpoint scan_layers (P : LayerBuffer -> bool) (this : nat) (i : nat)
    (ls : list LayerBuffer) : option nat :=
  match ls with
  | [] => None
  | L :: rest =>
      if negb (i =? this)%nat && P L then Some i
      else scan_layers P this (S i) rest
  end.

Definition over_switch (L : LayerBuffer) : bool :=
  size (m_apoFeatures L) >? SWITCH_THRESHOLD.

Definition non_empty (L : LayerBuffer) : bool :=
  negb (bool_decide (m_apoFeatures L = [])).

Definition is_empty (ds : OGROSMDataSource) (this : nat) : bool :=
  match m_apoLayers ds !! this with
  | Some L => bool_decide (m_apoFeatures L = [])
  | None => true
  end.

(** The [while (true)] of the non-interleaved branch: parse chunks until the
    layer has a feature ([Some true]) or the parser says it is done
    ([Some false]); [None] when [fuel] iterations were not enough. *)
Fixpoint parse_until_fed (fuel : nat) (ds : OGROSMDataSource) (this : nat)
    : option (bool * OGROSMDataSource) :=
  match fuel with
  | O => None
  | S fuel' =>
      let '(bRet, ds1) := ParseNextChunk ds this in
      if negb (is_empty ds1 this) then Some (true, ds1)
      else if negb bRet then Some (false, ds1)
      else parse_until_fed fuel' ds1 this
  end.

(** What [MyGetNextFeature] hands back: the feature (or nullptr), the layer
    written to [*ppoNewCurLayer], and the data source afterwards. *)
Record NextFeature : Type := mkNext {
  poFeature_of : option OGRFeature;
  ppoNewCurLayer_of : option nat;
  ds_of : OGROSMDataSource
}.

(** The tail of [MyGetNextFeature] (lines 257-266) on layer [this]. *)
Definition take_from (ds : OGROSMDataSource) (this : nat) (cur : option nat)
    : NextFeature :=
  match m_apoLayers ds !! this with
  | None => mkNext None cur ds
  | Some L =>
      let '(f, L') := TakeNext L in
      mkNext f cur (set_layers ds (<[this := L']> (m_apoLayers ds)))
  end.

(** [OGROSMLayer::MyGetNextFeature] of the layer at index [this].  [fuel]
    bounds the loop of the non-interleaved branch; [None] only when it ran
    out (see [MyGetNextFeature_total]). *)
Definition MyGetNextFeature (fuel : nat) (ds : OGROSMDataSource) (this : nat)
    : option NextFeature :=
  let cur := m_poCurrentLayer ds in
  let ds := set_layers ds
              (alter (fun L => set_reset_allowed L true) this (m_apoLayers ds)) in
  if is_empty ds this then
    if m_bInterleavedReading ds then
      let cur := match cur with None => Some this | Some c => Some c end in
      if negb (bool_decide (cur = Some this)) then Some (mkNext None cur ds)
      else
        match scan_layers over_switch this 0%nat (m_apoLayers ds) with
        | Some i => Some (mkNext None (Some i) ds)
        | None =>
            let '(_, ds1) := ParseNextChunk ds this in
            if is_empty ds1 this then
              match scan_layers non_empty this 0%nat (m_apoLayers ds1) with
              | Some i => Some (mkNext None (Some i) ds1)
              | None => Some (mkNext None None ds1)
              end
            else Some (take_from ds1 this cur)
        end
    else
      match parse_until_fed fuel ds this with
      | None => None
      | Some (false, ds1) => Some (mkNext None cur ds1)
      | Some (true, ds1) => Some (take_from ds1 this cur)
      end
  else Some (take_from ds this cur).

(** [OGROSMLayer::GetNextFeature]. *)
Definition GetNextFeature (fuel : nat) (ds : OGROSMDataSource) (this : nat)
    : option (option OGRFeature * OGROSMDataSource) :=
  match MyGetNextFeature fuel ds this with
  | None => None
  | Some r => Some (poFeature_of r, SetCurrentLayer (ds_of r) (ppoNewCurLayer_of r))
  end.

(** ** Strings as the code uses them *)

Local Open Scope string_scope.
Local Open Scope Z_scope.

(** The double quote character. *)
Definition dquote : ascii := Eval compute in ascii_of_nat 34.
Definition backslash : ascii := Eval compute in ascii_of_nat 92.

(** [s.find(c, start)] for a one-character pattern; [None] is [npos]. *)
Fixpoint find_char (c : ascii) (s : string) (start : nat) : option nat :=
  match s with
  | EmptyString => None
  | String a t =>
      match start with
      | O => if Ascii.eqb a c then Some O else S <$> find_char c t O
      | S n => S <$> find_char c t n
      end
  end.

(** [s.substr(0, n)]. *)
Fixpoint substr_to (s : string) (n : nat) : string :=
  match n, s with
  | S n', String a t => String a (substr_to t n')
  | _, _ => EmptyString
  end.

(** [s.substr(n)]. *)
Fixpoint substr_from (s : string) (n : nat) : string :=
  match n, s with
  | S n', String _ t => substr_from t n'
  | _, _ => s
  end.

(** [s[i]]; the terminating NUL past the end. *)
Definition char_at (s : string) (i : nat) : ascii :=
  match String.get i s with
  | Some c => c
  | None => Ascii.zero
  end.

(** ** C integers *)

(** The value of an [int] after an operation whose exact result is [z]. *)
Definition wrap_int (z : Z) : Z := (z + 2 ^ 31) mod 2 ^ 32 - 2 ^ 31.

Definition int_add (a b : Z) : Z := wrap_int (a + b).
Definition int_sub (a b : Z) : Z := wrap_int (a - b).
Definition int_mul (a b : Z) : Z := wrap_int (a * b).

Definition isspace (c : ascii) : bool :=
  let n := nat_of_ascii c in
  (n =? 32)%nat || ((9 <=? n)%nat && (n <=? 13)%nat).

Definition isdigit (c : ascii) : bool :=
  let n := nat_of_ascii c in (48 <=? n)%nat && (n <=? 57)%nat.

Fixpoint skip_spaces (s : string) : string :=
  match s with
  | String c t => if isspace c then skip_spaces t else s
  | EmptyString => s
  end.

(** The number written by the leading digits of [s], continuing [acc]. *)
Fixpoint leading_digits (acc : Z) (s : string) : Z :=
  match s with
  | String c t =>
      if isdigit c
      then leading_digits (10 * acc + (Z.of_nat (nat_of_ascii c) - 48)) t
      else acc
  | EmptyString => acc
  end.

(** The integer that the text writes: white space, an optional sign, then
    digits; 0 when there is no digit. *)
Definition parse_int (s : string) : Z :=
  match skip_spaces s with
  | String "-" t => - leading_digits 0 t
  | String "+" t => leading_digits 0 t
  | t => leading_digits 0 t
  end.

Definition LONG_MIN : Z := - 2 ^ 63.
Definition LONG_MAX : Z := 2 ^ 63 - 1.

(** [strtol(s, NULL, 10)] with a [long] of 64 bits: the integer that the text
    writes, or LONG_MIN or LONG_MAX when that is outside the range of
    [long]. *)
Definition strtol (s : string) : Z :=
  Z.max LONG_MIN (Z.min LONG_MAX (parse_int s)).

(** C [atoi] as glibc has it, [(int) strtol(s, NULL, 10)]: the conversion to
    [int] keeps the low 32 bits.  (The C standard leaves [atoi] of a number
    outside the range of [int] undefined.) *)
Definition atoi (s : string) : Z := wrap_int (strtol s).

(** [snprintf(szID, sizeof(szID), CPL_FRMT_GIB, nID)]: a 64-bit integer in
    decimal (at most 20 characters, so the buffer of 32 never truncates). *)
Definition CPL_FRMT_GIB (n : Z) : string :=
  NilZero.string_of_int (Z.to_int n).

(** ** Tags *)

Record OSMTag : Set := mkTag { pszK : string; pszV : string }.

Record OSMInfo : Set := mkInfo {
  bTimeStampIsStr : bool;
  ts_pszTimeStamp : string;   (* ts.pszTimeStamp, when bTimeStampIsStr *)
  ts_nTimeStamp : Z;          (* ts.nTimeStamp, otherwise *)
  nChangeset : Z;
  nVersion : Z;
  nUID : Z;
  pszUserSID : string
}.

(** [GetValueOfTag]: the value of the first tag whose key is [pszKeyToSearch]. *)
Fixpoint GetValueOfTag (pszKeyToSearch : string) (pasTags : list OSMTag)
    : option string :=
  match pasTags with
  | [] => None
  | t :: rest =>
      if String.eqb (pszK t) pszKeyToSearch then Some (pszV t)
      else GetValueOfTag pszKeyToSearch rest
  end.

(** [OGROSMLayer::AddInOtherOrAllTags] over the set [aoSetIgnoreKeys]. *)
Definition AddInOtherOrAllTags (aoSetIgnoreKeys : gset string) (pszK : string)
    : bool :=
  if bool_decide (pszK ∉ aoSetIgnoreKeys) then
    match find_char ":" pszK 0%nat with
    | Some colon =>
        (* pszColon[1] = 0: the key is cut after its first colon *)
        bool_decide (substr_to pszK (S colon) ∉ aoSetIgnoreKeys)
    | None => true
    end
  else false.

(** [OGROSMEscapeStringHSTORE]: what is appended to [sOut]. *)
Fixpoint hstore_body (pszV : string) : string :=
  match pszV with
  | EmptyString => EmptyString
  | String c t =>
      if Ascii.eqb c dquote || Ascii.eqb c backslash
      then String backslash (String c (hstore_body t))
      else String c (hstore_body t)
  end.

Definition OGROSMEscapeStringHSTORE (pszV : string) (sOut : string) : string :=
  sOut ++ String dquote (hstore_body pszV) ++ String dquote EmptyString.

Definition hex_digit (n : nat) : ascii :=
  if (n <? 10)%nat then ascii_of_nat (48 + n) else ascii_of_nat (55 + n).

(** [CPLSPrintf("\\u%04X", ch)] for a character below 0x20. *)
Definition u_escape (c : ascii) : string :=
  let n := nat_of_ascii c in
  String backslash
    (String "u" (String "0" (String "0"
       (String (hex_digit (n / 16)) (String (hex_digit (n mod 16)) EmptyString))))).

Fixpoint json_body (pszV : string) : string :=
  match pszV with
  | EmptyString => EmptyString
  | String c t =>
      (if Ascii.eqb c dquote then String backslash (String dquote EmptyString)
       else if Ascii.eqb c backslash then String backslash (String backslash EmptyString)
       else if Ascii.eqb c "010" then String backslash "n"
       else if Ascii.eqb c "013" then String backslash "r"
       else if Ascii.eqb c "009" then String backslash "t"
       else if (nat_of_ascii c <? 32)%nat then u_escape c
       else String c EmptyString) ++ json_body t
  end.

Definition OGROSMEscapeStringJSON (pszV : string) (sOut : string) : string :=
  sOut ++ String dquote (json_body pszV) ++ String dquote EmptyString.

(** ** The schema of a layer *)

Inductive OGRFieldType : Set :=
  | OFTInteger | OFTIntegerList | OFTReal | OFTRealList | OFTString
  | OFTStringList | OFTBinary | OFTDate | OFTTime | OFTDateTime
  | OFTInteger64 | OFTInteger64List.

Inductive OGRFieldSubType : Set :=
  | OFSTNone | OFSTBoolean | OFSTInt16 | OFSTFloat32 | OFSTJSON | OFSTUUID.

Global Instance OGRFieldType_eq_dec : EqDecision OGRFieldType.
Proof. solve_decision. Defined.

Record OGRFieldDefn : Set := mkFieldDefn {
  fd_name : string;
  fd_type : OGRFieldType;
  fd_subtype : OGRFieldSubType
}.

(** A value bound to, or produced by, a statement, with its SQLite type. *)
Inductive SqlValue : Set :=
  | SQLITE_INTEGER (n : Z)
  | SQLITE_FLOAT (d : double)
  | SQLITE_TEXT (s : string)
  | SQLITE_BLOB
  | SQLITE_NULL.

(** A prepared statement: the text it was compiled from, the values bound to
    its parameters (numbered from 1), and whether it was stepped since its
    last reset. *)
Record sqlite3_stmt : Type := mkStmt {
  stmt_sql : string;
  stmt_bound : gmap nat SqlValue;
  stmt_busy : bool
}.

(** The outcome of [sqlite3_step]: a row with its columns, or anything else. *)
Inductive StepResult : Set :=
  | SQLITE_ROW (columns : list SqlValue)
  | SQLITE_DONE.

Record OGROSMComputedAttribute : Type := mkAttr {
  osName : string;
  nIndex : Z;
  eType : OGRFieldType;
  osSQL : string;
  hStmt : sqlite3_stmt;
  aosAttrToBind : list string;
  anIndexToBind : list Z;
  bHardcodedZOrder : bool
}.

(** The members of [OGROSMLayer] that describe its fields. *)
Record OGROSMLayer : Type := mkLayer {
  m_poFeatureDefn : list OGRFieldDefn;
  m_oMapFieldNameToIndex : gmap string Z;
  m_nIndexOSMId : Z;
  m_nIndexOSMWayId : Z;
  m_nIndexOtherTags : Z;
  m_nIndexAllTags : Z;
  m_bHasOSMId : bool;
  m_bHasVersion : bool;
  m_bHasTimestamp : bool;
  m_bHasUID : bool;
  m_bHasUser : bool;
  m_bHasChangeset : bool;
  aoSetIgnoreKeys : gset string;
  m_oComputedAttributes : list OGROSMComputedAttribute;
  m_osAllTagsBuffer : string
}.

(** The members of [OGROSMDataSource] that the schema code reads. *)
Record OSMOptions : Set := mkOptions {
  m_bTagsAsHSTORE : bool;
  m_bAttributeNameLaundering : bool;  (* DoesAttributeNameLaundering() *)
  szLaunderedFieldName_size : nat     (* sizeof(szLaunderedFieldName) *)
}.

(** What this file calls but does not define: the accessors of [OGRFeature]
    on a slot of another type, the two time stamp decoders, and SQLite. *)
Class External : Type := {
  FieldAsString : OGRField -> string;
  FieldAsInteger : OGRField -> Z;
  FieldAsInteger64 : OGRField -> Z;
  FieldAsDouble : OGRField -> double;
  OGRParseXMLDateTime : string -> option DateTime;
  CPLUnixTimeToYMDHMS : Z -> DateTime;  (* tm_year, tm_mon, ... of struct tm *)
  sqlite3_open_v2 : bool;               (* rc == SQLITE_OK *)
  sqlite3_prepare_v2 : string -> bool;  (* rc == SQLITE_OK *)
  sqlite3_step : string -> gmap nat SqlValue -> StepResult
}.

(** A layer right after its constructor. *)
Definition new_layer : OGROSMLayer :=
  mkLayer [] ∅ (-1) (-1) (-1) (-1) false false false false false false ∅ [] "".

(** Modelled from the spec: [OGRFeatureDefn::GetFieldIndex] is in
    ogr/ogrfeaturedefn.cpp; the spec speaks of the field whose name is the
    given one.  The index of the first field definition with that name, or
    -1. *)
Fixpoint defn_index_from (i : Z) (defn : list OGRFieldDefn) (pszName : string) : Z :=
  match defn with
  | [] => -1
  | d :: rest =>
      if String.eqb (fd_name d) pszName then i
      else defn_index_from (i + 1) rest pszName
  end.

Definition OGRFeatureDefn_GetFieldIndex (defn : list OGRFieldDefn) (pszName : string) : Z :=
  defn_index_from 0 defn pszName.

(** [OGRFeatureDefn::GetFieldCount]. *)
Definition GetFieldCount (defn : list OGRFieldDefn) : Z := Z.of_nat (length defn).

(** The loop of [GetLaunderedFieldName]: at most [room] characters, every
    colon replaced by an underscore. *)
Fixpoint launder (room : nat) (pszName : string) : string :=
  match room, pszName with
  | S room', String c t =>
      String (if Ascii.eqb c ":" then "_"%char else c) (launder room' t)
  | _, _ => EmptyString
  end.

(** [OGROSMLayer::GetLaunderedFieldName]. *)
Definition GetLaunderedFieldName (o : OSMOptions) (pszName : string) : string :=
  if m_bAttributeNameLaundering o && bool_decide (is_Some (find_char ":" pszName 0%nat))
  then launder (szLaunderedFieldName_size o - 1)%nat pszName
  else pszName.

(** [OGROSMLayer::AddField].  The four special names are distinct, so the
    else-if chain of the source assigns at most one of the four indices. *)
Definition AddField (o : OSMOptions) (L : OGROSMLayer) (pszName : string)
    (eFieldType : OGRFieldType) (eSubType : OGRFieldSubType) : OGROSMLayer :=
  let oField := mkFieldDefn (GetLaunderedFieldName o pszName) eFieldType eSubType in
  let defn := (m_poFeatureDefn L ++ [oField])%list in
  let nIndex := GetFieldCount defn - 1 in
  mkLayer defn (<[pszName := nIndex]> (m_oMapFieldNameToIndex L))
    (if String.eqb pszName "osm_id" then nIndex else m_nIndexOSMId L)
    (if String.eqb pszName "osm_way_id" then nIndex else m_nIndexOSMWayId L)
    (if String.eqb pszName "other_tags" then nIndex else m_nIndexOtherTags L)
    (if String.eqb pszName "all_tags" then nIndex else m_nIndexAllTags L)
    (m_bHasOSMId L) (m_bHasVersion L) (m_bHasTimestamp L) (m_bHasUID L)
    (m_bHasUser L) (m_bHasChangeset L) (aoSetIgnoreKeys L)
    (m_oComputedAttributes L) (m_osAllTagsBuffer L).

(** [OGROSMLayer::GetFieldIndex]. *)
Definition GetFieldIndex (L : OGROSMLayer) (pszName : string) : Z :=
  match m_oMapFieldNameToIndex L !! pszName with
  | Some i => i
  | None => -1
  end.

(** [OGROSMLayer::AddIgnoreKey]. *)
Definition AddIgnoreKey (L : OGROSMLayer) (pszK : string) : OGROSMLayer :=
  mkLayer (m_poFeatureDefn L) (m_oMapFieldNameToIndex L) (m_nIndexOSMId L)
    (m_nIndexOSMWayId L) (m_nIndexOtherTags L) (m_nIndexAllTags L)
    (m_bHasOSMId L) (m_bHasVersion L) (m_bHasTimestamp L) (m_bHasUID L)
    (m_bHasUser L) (m_bHasChangeset L) ({[pszK]} ∪ aoSetIgnoreKeys L)
    (m_oComputedAttributes L) (m_osAllTagsBuffer L).

(** The inline setters of the header (SetHasOSMId and the like), at once. *)
Definition SetHas (L : OGROSMLayer) (id version timestamp uid user changeset : bool)
    : OGROSMLayer :=
  mkLayer (m_poFeatureDefn L) (m_oMapFieldNameToIndex L) (m_nIndexOSMId L)
    (m_nIndexOSMWayId L) (m_nIndexOtherTags L) (m_nIndexAllTags L)
    id version timestamp uid user changeset (aoSetIgnoreKeys L)
    (m_oComputedAttributes L) (m_osAllTagsBuffer L).

(** ** Features *)

(** A feature of the layer's definition, all its fields unset. *)
Definition OGRFeature_new (defn : list OGRFieldDefn) : OGRFeature :=
  mkFeature (-1) (replicate (length defn) None).

Definition SetFID (f : OGRFeature) (nID : Z) : OGRFeature :=
  mkFeature nID (fields f).

(** [OGRFeature::SetField(i, value)]; an index outside the feature is
    reported by OGR and changes nothing. *)
Definition SetField (f : OGRFeature) (i : Z) (v : OGRField) : OGRFeature :=
  if 0 <=? i then mkFeature (nFID f) (<[Z.to_nat i := Some v]> (fields f))
  else f.

(** [OGRFeature::SetField(name, value)]. *)
Definition SetFieldByName (defn : list OGRFieldDefn) (f : OGRFeature)
    (name : string) (v : OGRField) : OGRFeature :=
  SetField f (OGRFeatureDefn_GetFieldIndex defn name) v.

(** The slot of field [i]: [None] when the field is unset or [i] is no field. *)
Definition GetRawField (f : OGRFeature) (i : Z) : option OGRField :=
  if 0 <=? i then mjoin (fields f !! Z.to_nat i) else None.

Definition IsFieldSetAndNotNull (f : OGRFeature) (i : Z) : bool :=
  bool_decide (is_Some (GetRawField f i)).

(** ** SetFieldsFromTags *)

(** Lines 566-587: the FID and the osm_id or osm_way_id field. *)
Definition set_identifier (L : OGROSMLayer) (f : OGRFeature) (nID : Z)
    (bIsWayID : bool) : OGRFeature :=
  if negb bIsWayID then
    let f := SetFID f nID in
    if m_bHasOSMId L then SetField f (m_nIndexOSMId L) (OFString (CPL_FRMT_GIB nID))
    else f
  else
    let f := SetFID f nID in
    if m_nIndexOSMWayId L >=? 0
    then SetField f (m_nIndexOSMWayId L) (OFString (CPL_FRMT_GIB nID))
    else f.

(** One entry appended to [m_osAllTagsBuffer] (lines 642-663). *)
Definition append_entry (bTagsAsHSTORE : bool) (buf : string) (t : OSMTag) : string :=
  if bTagsAsHSTORE then
    let buf := if negb (String.eqb buf "") then buf ++ "," else buf in
    let buf := OGROSMEscapeStringHSTORE (pszK t) buf in
    let buf := buf ++ "=" in
    let buf := buf ++ ">" in
    OGROSMEscapeStringHSTORE (pszV t) buf
  else
    let buf := if negb (String.eqb buf "") then buf ++ "," else "{" in
    let buf := OGROSMEscapeStringJSON (pszK t) buf in
    let buf := buf ++ ":" in
    OGROSMEscapeStringJSON (pszV t) buf.

(** The body of the loop over the tags (lines 629-673) on the feature and
    [m_osAllTagsBuffer]. *)
Definition project_tag (o : OSMOptions) (L : OGROSMLayer)
    (st : OGRFeature * string) (t : OSMTag) : OGRFeature * string :=
  let '(f, buf) := st in
  let nIndex := GetFieldIndex L (pszK t) in
  let is_field := (nIndex >=? 0) && negb (nIndex =? m_nIndexOSMId L) in
  let f := if is_field then SetField f nIndex (OFString (pszV t)) else f in
  if is_field && (m_nIndexAllTags L <? 0) then (f, buf)   (* continue *)
  else if (m_nIndexAllTags L >=? 0) || (m_nIndexOtherTags L >=? 0) then
    if AddInOtherOrAllTags (aoSetIgnoreKeys L) (pszK t)
    then (f, append_entry (m_bTagsAsHSTORE o) buf t)
    else (f, buf)
  else (f, buf).

(** The loop over the tags, from an empty buffer (lines 626-674). *)
Definition project_tags (o : OSMOptions) (L : OGROSMLayer) (f : OGRFeature)
    (pasTags : list OSMTag) : OGRFeature * string :=
  fold_left (project_tag o L) pasTags (f, "").

(** Lines 676-686: the aggregate goes to all_tags or to other_tags, when the
    buffer is not empty. *)
Definition store_aggregate (o : OSMOptions) (L : OGROSMLayer)
    (st : OGRFeature * string) : OGRFeature * string :=
  let '(f, buf) := st in
  if negb (String.eqb buf "") then
    let buf := if negb (m_bTagsAsHSTORE o) then buf ++ "}" else buf in
    if m_nIndexAllTags L >=? 0
    then (SetField f (m_nIndexAllTags L) (OFString buf), buf)
    else (SetField f (m_nIndexOtherTags L) (OFString buf), buf)
  else (f, buf).

(** [v[i]] of a [std::vector<int>]; an index past the end does not occur for
    the vectors read here (see [canonical_zorder_binds]). *)
Definition vec_at (v : list Z) (i : nat) : Z := nth i v (-1).

(** [strcmp(a, b) == 0]. *)
Definition streq (a b : string) : bool := String.eqb a b.

(** Lines 729-760: [nZOrder] after the chain of comparisons of [pszHighway]. *)
Definition add_highway (nZOrder : Z) (pszHighway : string) : Z :=
  if streq pszHighway "minor" || streq pszHighway "road"
     || streq pszHighway "unclassified" || streq pszHighway "residential"
  then int_add nZOrder 3
  else if streq pszHighway "tertiary_link" || streq pszHighway "tertiary"
  then int_add nZOrder 4
  else if streq pszHighway "secondary_link" || streq pszHighway "secondary"
  then int_add nZOrder 6
  else if streq pszHighway "primary_link" || streq pszHighway "primary"
  then int_add nZOrder 7
  else if streq pszHighway "trunk_link" || streq pszHighway "trunk"
  then int_add nZOrder 8
  else if streq pszHighway "motorway_link" || streq pszHighway "motorway"
  then int_add nZOrder 9
  else nZOrder.

(** The test of lines 775-777 and 795-797. *)
Definition is_yes (s : string) : bool :=
  streq s "yes" || streq s "true" || streq s "1".

Section WithExternal.
Context `{External}.

(** [OGRFeature::GetFieldAsString] and its siblings on a slot that is set. *)
Definition GetFieldAsString (v : OGRField) : string :=
  match v with OFString s => s | _ => FieldAsString v end.

Definition GetFieldAsInteger (v : OGRField) : Z :=
  match v with OFInteger n => n | _ => FieldAsInteger v end.

Definition GetFieldAsInteger64 (v : OGRField) : Z :=
  match v with OFInteger64 n => n | _ => FieldAsInteger64 v end.

Definition GetFieldAsDouble (v : OGRField) : double :=
  match v with OFReal d => d | _ => FieldAsDouble v end.

(** Lines 589-624: the metadata fields. *)
Definition set_metadata (L : OGROSMLayer) (f : OGRFeature) (psInfo : OSMInfo)
    : OGRFeature :=
  let defn := m_poFeatureDefn L in
  let f := if m_bHasVersion L
           then SetFieldByName defn f "osm_version" (OFInteger (nVersion psInfo))
           else f in
  let f := if m_bHasTimestamp L then
             if bTimeStampIsStr psInfo then
               match OGRParseXMLDateTime (ts_pszTimeStamp psInfo) with
               | Some sField => SetFieldByName defn f "osm_timestamp" (OFDateTime sField)
               | None => f
               end
             else
               let brokendown := CPLUnixTimeToYMDHMS (ts_nTimeStamp psInfo) in
               SetFieldByName defn f "osm_timestamp"
                 (OFDateTime (mkDateTime (dt_year brokendown + 1900)
                                (dt_month brokendown + 1) (dt_day brokendown)
                                (dt_hour brokendown) (dt_minute brokendown)
                                (dt_second brokendown) 0))
           else f in
  let f := if m_bHasUID L
           then SetFieldByName defn f "osm_uid" (OFInteger (nUID psInfo))
           else f in
  let f := if m_bHasUser L
           then SetFieldByName defn f "osm_user" (OFString (pszUserSID psInfo))
           else f in
  if m_bHasChangeset L
  then SetFieldByName defn f "osm_changeset" (OFInteger64 (nChangeset psInfo))
  else f.

(** One input of the z_order formula, as each of the five blocks of lines
    717-827 reads it: with a bound field, the field as a string when it is set
    and nothing otherwise; without one, the first tag of that key. *)
Definition zorder_input (f : OGRFeature) (pasTags : list OSMTag) (nIdx : Z)
    (key : string) : option string :=
  if nIdx >=? 0 then
    match GetRawField f nIdx with
    | Some v => Some (GetFieldAsString v)
    | None => None
    end
  else GetValueOfTag key pasTags.

(** Lines 693-831: the value of [nZOrder] when it is stored. *)
Definition HardcodedZOrder (oAttr : OGROSMComputedAttribute) (f : OGRFeature)
    (pasTags : list OSMTag) : Z :=
  let nHighwayIdx := vec_at (anIndexToBind oAttr) 0 in
  let nBridgeIdx := vec_at (anIndexToBind oAttr) 1 in
  let nTunnelIdx := vec_at (anIndexToBind oAttr) 2 in
  let nRailwayIdx := vec_at (anIndexToBind oAttr) 3 in
  let nLayerIdx := vec_at (anIndexToBind oAttr) 4 in
  let nZOrder := 0 in
  let nZOrder :=
    match zorder_input f pasTags nHighwayIdx "highway" with
    | Some pszHighway => add_highway nZOrder pszHighway
    | None => nZOrder
    end in
  let nZOrder :=
    match zorder_input f pasTags nBridgeIdx "bridge" with
    | Some pszBridge => if is_yes pszBridge then int_add nZOrder 10 else nZOrder
    | None => nZOrder
    end in
  let nZOrder :=
    match zorder_input f pasTags nTunnelIdx "tunnel" with
    | Some pszTunnel => if is_yes pszTunnel then int_sub nZOrder 10 else nZOrder
    | None => nZOrder
    end in
  let nZOrder :=
    match zorder_input f pasTags nRailwayIdx "railway" with
    | Some _ => int_add nZOrder 5
    | None => nZOrder
    end in
  match zorder_input f pasTags nLayerIdx "layer" with
  | Some pszLayer => int_add nZOrder (int_mul 10 (atoi pszLayer))
  | None => nZOrder
  end.

(** Lines 840-887: the value bound to parameter [j + 1]. *)
Definition bound_value (L : OGROSMLayer) (f : OGRFeature) (pasTags : list OSMTag)
    (idx : Z) (attr : string) : SqlValue :=
  if idx >=? 0 then
    match GetRawField f idx with
    | None => SQLITE_NULL
    | Some v =>
        match fd_type <$> (m_poFeatureDefn L !! Z.to_nat idx) with
        | Some OFTInteger => SQLITE_INTEGER (GetFieldAsInteger v)
        | Some OFTInteger64 => SQLITE_INTEGER (GetFieldAsInteger64 v)
        | Some OFTReal => SQLITE_FLOAT (GetFieldAsDouble v)
        | _ => SQLITE_TEXT (GetFieldAsString v)
        end
    end
  else
    match GetValueOfTag attr pasTags with
    | Some pszV => SQLITE_TEXT pszV
    | None => SQLITE_NULL
    end.

(** [sqlite3_bind_*(hStmt, i, v)]: refused (SQLITE_MISUSE) on a statement
    that was stepped and not reset. *)
Definition sqlite3_bind (st : sqlite3_stmt) (i : nat) (v : SqlValue) : sqlite3_stmt :=
  if stmt_busy st then st
  else mkStmt (stmt_sql st) (<[i := v]> (stmt_bound st)) false.

Definition do_step (st : sqlite3_stmt) : StepResult * sqlite3_stmt :=
  (sqlite3_step (stmt_sql st) (stmt_bound st),
   mkStmt (stmt_sql st) (stmt_bound st) true).

Definition sqlite3_reset (st : sqlite3_stmt) : sqlite3_stmt :=
  mkStmt (stmt_sql st) (stmt_bound st) false.

(** The loop of lines 838-888 over [j = 0 .. anIndexToBind.size() - 1]. *)
Fixpoint bind_all (L : OGROSMLayer) (f : OGRFeature) (pasTags : list OSMTag)
    (j : nat) (an : list Z) (aos : list string) (st : sqlite3_stmt) : sqlite3_stmt :=
  match an with
  | [] => st
  | idx :: an' =>
      let attr := hd "" aos in
      bind_all L f pasTags (S j) an' (tl aos)
               (sqlite3_bind st (j + 1)%nat (bound_value L f pasTags idx attr))
  end.

(** Lines 890-912: what the row, if any, stores in the field of the
    attribute. *)
Definition store_result (oAttr : OGROSMComputedAttribute) (f : OGRFeature)
    (r : StepResult) : OGRFeature :=
  match r with
  | SQLITE_ROW [SQLITE_INTEGER n] => SetField f (nIndex oAttr) (OFInteger64 n)
  | SQLITE_ROW [SQLITE_FLOAT d] => SetField f (nIndex oAttr) (OFReal d)
  | SQLITE_ROW [SQLITE_TEXT s] => SetField f (nIndex oAttr) (OFString s)
  | _ => f
  end.

Definition with_stmt (oAttr : OGROSMComputedAttribute) (st : sqlite3_stmt)
    : OGROSMComputedAttribute :=
  mkAttr (osName oAttr) (nIndex oAttr) (eType oAttr) (osSQL oAttr) st
         (aosAttrToBind oAttr) (anIndexToBind oAttr) (bHardcodedZOrder oAttr).

(** Lines 838-914: the evaluation of an attribute through SQLite. *)
Definition eval_general (L : OGROSMLayer) (oAttr : OGROSMComputedAttribute)
    (f : OGRFeature) (pasTags : list OSMTag)
    : OGRFeature * OGROSMComputedAttribute :=
  let st := bind_all L f pasTags 0%nat (anIndexToBind oAttr) (aosAttrToBind oAttr)
                     (hStmt oAttr) in
  let '(r, st) := do_step st in
  let f := store_result oAttr f r in
  (f, with_stmt oAttr (sqlite3_reset st)).

(** The body of the loop of line 688 for one attribute. *)
Definition eval_attribute (L : OGROSMLayer) (pasTags : list OSMTag)
    (oAttr : OGROSMComputedAttribute) (f : OGRFeature)
    : OGRFeature * OGROSMComputedAttribute :=
  if bHardcodedZOrder oAttr
  then (SetField f (nIndex oAttr) (OFInteger (HardcodedZOrder oAttr f pasTags)), oAttr)
  else eval_general L oAttr f pasTags.

(** The loop of line 688, in declaration order. *)
Fixpoint eval_attributes (L : OGROSMLayer) (pasTags : list OSMTag)
    (attrs : list OGROSMComputedAttribute) (f : OGRFeature)
    : OGRFeature * list OGROSMComputedAttribute :=
  match attrs with
  | [] => (f, [])
  | oAttr :: rest =>
      let '(f, oAttr') := eval_attribute L pasTags oAttr f in
      let '(f, rest') := eval_attributes L pasTags rest f in
      (f, oAttr' :: rest')
  end.

Definition with_scratch (L : OGROSMLayer) (buf : string)
    (attrs : list OGROSMComputedAttribute) : OGROSMLayer :=
  mkLayer (m_poFeatureDefn L) (m_oMapFieldNameToIndex L) (m_nIndexOSMId L)
    (m_nIndexOSMWayId L) (m_nIndexOtherTags L) (m_nIndexAllTags L)
    (m_bHasOSMId L) (m_bHasVersion L) (m_bHasTimestamp L) (m_bHasUID L)
    (m_bHasUser L) (m_bHasChangeset L) (aoSetIgnoreKeys L) attrs buf.

(** [OGROSMLayer::SetFieldsFromTags]: the feature, and the layer with its
    scratch buffer and statements as the call leaves them. *)
Definition SetFieldsFromTags (o : OSMOptions) (L : OGROSMLayer)
    (poFeature : OGRFeature) (nID : Z) (bIsWayID : bool)
    (pasTags : list OSMTag) (psInfo : OSMInfo) : OGRFeature * OGROSMLayer :=
  let f := set_identifier L poFeature nID bIsWayID in
  let f := set_metadata L f psInfo in
  let '(f, buf) := store_aggregate o L (project_tags o L f pasTags) in
  let '(f, attrs) := eval_attributes L pasTags (m_oComputedAttributes L) f in
  (f, with_scratch L buf attrs).

(** ** AddComputedAttribute *)

(** The statement that line 994 compares [pszSQL] with. *)
Definition zorder_sql : string :=
  "SELECT (CASE [highway] WHEN 'minor' THEN 3 WHEN 'road' THEN 3 " ++
  "WHEN 'unclassified' THEN 3 WHEN 'residential' THEN 3 WHEN " ++
  "'tertiary_link' THEN 4 WHEN 'tertiary' THEN 4 WHEN " ++
  "'secondary_link' " ++
  "THEN 6 WHEN 'secondary' THEN 6 WHEN 'primary_link' THEN 7 WHEN " ++
  "'primary' THEN 7 WHEN 'trunk_link' THEN 8 WHEN 'trunk' THEN 8 " ++
  "WHEN 'motorway_link' THEN 9 WHEN 'motorway' THEN 9 ELSE 0 END) + " ++
  "(CASE WHEN [bridge] IN ('yes', 'true', '1') THEN 10 ELSE 0 END) + " ++
  "(CASE WHEN [tunnel] IN ('yes', 'true', '1') THEN -10 ELSE 0 END) " ++
  "+ " ++
  "(CASE WHEN [railway] IS NOT NULL THEN 5 ELSE 0 END) + " ++
  "(CASE WHEN [layer] IS NOT NULL THEN 10 * CAST([layer] AS INTEGER) " ++
  "ELSE 0 END)".

(** The state of the first loop (lines 1009-1030). *)
Record Placeholders : Set := mkPlaceholders {
  ph_sql : string;             (* osSQL *)
  ph_attrs : list string;      (* aosAttrToBind *)
  ph_indices : list Z          (* anIndexToBind *)
}.

(** The loop of lines 1010-1030, at most [fuel] iterations from
    [nStartSearch]. *)
Fixpoint extract_loop (fuel : nat) (defn : list OGRFieldDefn) (osSQL : string)
    (nStartSearch : nat) (aos : list string) (an : list Z) : Placeholders :=
  match fuel with
  | O => mkPlaceholders osSQL aos an
  | S fuel' =>
      match find_char "[" osSQL nStartSearch with
      | None => mkPlaceholders osSQL aos an
      | Some nPos =>
          let nStartSearch := (nPos + 1)%nat in
          if (0 <? nPos)%nat && negb (Ascii.eqb (char_at osSQL (nPos - 1)) backslash)
          then
            let osAttr := substr_from osSQL (nPos + 1) in
            match find_char "]" osAttr 0 with
            | None => mkPlaceholders osSQL aos an
            | Some nPos2 =>
                let osAttr := substr_to osAttr nPos2 in
                let osSQL := substr_to osSQL nPos ++ "?" ++
                             substr_from osSQL (nPos + 1 + nPos2 + 1) in
                extract_loop fuel' defn osSQL nStartSearch
                  (aos ++ [osAttr])%list
                  (an ++ [OGRFeatureDefn_GetFieldIndex defn osAttr])%list
            end
          else extract_loop fuel' defn osSQL nStartSearch aos an
      end
  end.

(** Every iteration moves [nStartSearch] closer to the end of [osSQL], so
    one more iteration than [osSQL] has characters always suffices (see
    [extract_loop_fuel]). *)
Definition extract_placeholders (defn : list OGRFieldDefn) (pszSQL : string)
    : Placeholders :=
  extract_loop (S (String.length pszSQL)) defn pszSQL 0 [] [].

(** The loop of lines 1031-1037: each backslash is dropped, but not one that
    ends the statement. *)
Fixpoint unescape_loop (fuel : nat) (osSQL : string) : string :=
  match fuel with
  | O => osSQL
  | S fuel' =>
      match find_char backslash osSQL 0 with
      | None => osSQL
      | Some nPos =>
          if (nPos =? String.length osSQL - 1)%nat then osSQL
          else unescape_loop fuel' (substr_to osSQL nPos ++ substr_from osSQL (nPos + 1))
      end
  end.

Definition unescape (osSQL : string) : string :=
  unescape_loop (String.length osSQL) osSQL.

(** What [AddComputedAttribute] leaves: the handle of the data source
    ([true]: not null), the layer, and the errors it reported. *)
Record AddComputedResult : Type := mkAddComputed {
  aca_hDB : bool;
  aca_layer : OGROSMLayer;
  aca_errors : list CPLErrorEvent
}.

Definition cannot_open : CPLErrorEvent :=
  mkError CE_Failure CPLE_AppDefined "Cannot open temporary sqlite DB".
Definition same_name : CPLErrorEvent :=
  mkError CE_Failure CPLE_AppDefined "A field with same name %s already exists".
Definition prepare_failed : CPLErrorEvent :=
  mkError CE_Failure CPLE_AppDefined "sqlite3_prepare_v2() failed :  %s".

Definition with_attribute (L : OGROSMLayer) (oField : OGRFieldDefn)
    (mk : Z -> OGROSMComputedAttribute) : OGROSMLayer :=
  let defn := (m_poFeatureDefn L ++ [oField])%list in
  mkLayer defn (m_oMapFieldNameToIndex L) (m_nIndexOSMId L)
    (m_nIndexOSMWayId L) (m_nIndexOtherTags L) (m_nIndexAllTags L)
    (m_bHasOSMId L) (m_bHasVersion L) (m_bHasTimestamp L) (m_bHasUID L)
    (m_bHasUser L) (m_bHasChangeset L) (aoSetIgnoreKeys L)
    (m_oComputedAttributes L ++ [mk (GetFieldCount defn - 1)])%list
    (m_osAllTagsBuffer L).

(** [OGROSMLayer::AddComputedAttribute], with [hDB] saying whether
    [m_poDS->m_hDBForComputedAttributes] is already open. *)
Definition AddComputedAttribute (hDB : bool) (L : OGROSMLayer)
    (pszName : string) (eType : OGRFieldType) (pszSQL : string)
    : AddComputedResult :=
  if negb hDB && negb sqlite3_open_v2 then mkAddComputed false L [cannot_open]
  else if OGRFeatureDefn_GetFieldIndex (m_poFeatureDefn L) pszName >=? 0
  then mkAddComputed true L [same_name]
  else
    let bHardcodedZOrder :=
      bool_decide (eType = OFTInteger) && streq pszSQL zorder_sql in
    let ph := extract_placeholders (m_poFeatureDefn L) pszSQL in
    let osSQL := unescape (ph_sql ph) in
    if negb (sqlite3_prepare_v2 osSQL)
    then mkAddComputed true L [prepare_failed]
    else
      mkAddComputed true
        (with_attribute L (mkFieldDefn pszName eType OFSTNone)
           (fun nIndex =>
              mkAttr pszName nIndex eType pszSQL (mkStmt osSQL ∅ false)
                     (ph_attrs ph) (ph_indices ph) bHardcodedZOrder))
        [].

End WithExternal.

(** ** Vocabulary of the statements *)

(** An operation on the feature array of a layer: an [AddFeature] with the
    threshold check on, or the hand-over of lines 257-266, which the caller
    reaches with a non-empty array only. *)
Inductive BufferOp : Set :=
  | OpAppend (poFeature : OGRFeature) (bAttrFilterAlreadyEvaluated bad_alloc : bool)
  | OpTake.

(** What a run of operations shows: the flags the appends returned, the
    features the array accepted, the features handed over, the layer. *)
Record Run : Type := mkRun {
  run_flags : list bool;
  run_accepted : list OGRFeature;
  run_delivered : list (option OGRFeature);
  run_layer : LayerBuffer
}.

Definition run_op (r : Run) (op : BufferOp) : Run :=
  let L := run_layer r in
  match op with
  | OpAppend f already bad =>
      let a := AddFeature L f already true bad in
      mkRun (run_flags r ++ [add_ok a])%list
            (if bool_decide (add_filtered_out a = Some false)
             then (run_accepted r ++ [f])%list else run_accepted r)
            (run_delivered r) (add_layer a)
  | OpTake =>
      if bool_decide (m_apoFeatures L = []) then r
      else
        let '(f, L') := TakeNext L in
        mkRun (run_flags r) (run_accepted r) (run_delivered r ++ [f])%list L'
  end.

Definition run_ops (ops : list BufferOp) (L : LayerBuffer) : Run :=
  fold_left run_op ops (mkRun [] [] [] L).

(** The features that wait in the array: the slots from the cursor on. *)
Definition pending (L : LayerBuffer) : list (option OGRFeature) :=
  drop (m_nFeatureArrayIndex L) (m_apoFeatures L).

(** The cursor is inside the array, or the array is empty and the cursor is
    at its start; and no waiting slot was moved from. *)
Definition cursor_ok (L : LayerBuffer) : Prop :=
  ((m_nFeatureArrayIndex L < length (m_apoFeatures L))%nat
   ∨ (m_apoFeatures L = [] ∧ m_nFeatureArrayIndex L = 0%nat))
  ∧ Forall (fun s => is_Some s) (pending L).

(** Two layers with the same array, cursor, interest and filters. *)
Definition same_array (L1 L2 : LayerBuffer) : Prop :=
  m_apoFeatures L1 = m_apoFeatures L2
  ∧ m_nFeatureArrayIndex L1 = m_nFeatureArrayIndex L2
  ∧ m_bUserInterested L1 = m_bUserInterested L2
  ∧ m_poFilterGeom L1 = m_poFilterGeom L2
  ∧ m_poAttrQuery L1 = m_poAttrQuery L2.

(** Sample data for the instances below. *)
Definition feature0 : OGRFeature := mkFeature 0 [].
Definition feature1 : OGRFeature := mkFeature 1 [].
Definition feature2 : OGRFeature := mkFeature 2 [].

(** A layer whose array holds one feature more than MAX_THRESHOLD. *)
Definition full_buffer : LayerBuffer :=
  mkBuffer (replicate (Z.to_nat (MAX_THRESHOLD + 1)) (Some feature0)) 0%nat
           false false true None None.

(** A layer that holds one feature more than SWITCH_THRESHOLD, and a data
    source in interleaved mode whose current layer 0 is empty while layer 1
    is that one. *)
Definition busy_buffer : LayerBuffer :=
  mkBuffer (replicate (Z.to_nat (SWITCH_THRESHOLD + 1)) (Some feature0)) 0%nat
           false true true None None.

Definition interleaved_ds : OGROSMDataSource :=
  mkDS [new_buffer true None None; busy_buffer] (Some 0%nat) true
       [[(0%nat, feature1)]] 0.

(** The character [c] occurs in [s]. *)
Definition occurs (c : ascii) (s : string) : Prop :=
  In c (list_ascii_of_string s).

(** A feature has a slot for every index that the name map of the layer
    answers. *)
Definition fits (L : OGROSMLayer) (f : OGRFeature) : Prop :=
  forall name i, m_oMapFieldNameToIndex L !! name = Some i ->
                 0 <= i < Z.of_nat (length (fields f)).

(** Options, a layer with the fields highway and name, and the entity of the
    end-to-end example of the specification. *)
Definition plain_options : OSMOptions := mkOptions false false 256.

Definition road_layer : OGROSMLayer :=
  AddField plain_options
    (AddField plain_options new_layer "highway" OFTString OFSTNone)
    "name" OFTString OFSTNone.


(** Every index of the name map is an index of the feature definition. *)
Definition schema_ok (L : OGROSMLayer) : Prop :=
  forall name i, m_oMapFieldNameToIndex L !! name = Some i ->
                 0 <= i < GetFieldCount (m_poFeatureDefn L).


(** Stand-ins for what [External] leaves open: accessors that answer a
    constant, a data base that opens, statements that all compile, and
    [step] for [sqlite3_step]. *)
Definition stub_external (step : string -> gmap nat SqlValue -> StepResult)
    : External :=
  {| FieldAsString := fun _ => "";
     FieldAsInteger := fun _ => 0;
     FieldAsInteger64 := fun _ => 0;
     FieldAsDouble := fun _ => PrimFloat.zero;
     OGRParseXMLDateTime := fun _ => None;
     CPLUnixTimeToYMDHMS := fun _ => mkDateTime 70 0 1 0 0 0 0;
     sqlite3_open_v2 := true;
     sqlite3_prepare_v2 := fun _ => true;
     sqlite3_step := step |}.

(** An engine whose every statement yields one row with one NULL. *)
Definition null_rows : External := stub_external (fun _ _ => SQLITE_ROW [SQLITE_NULL]).

Definition no_info : OSMInfo := mkInfo false "" 0 0 0 0 "".


(** The table of the z_order formula as the specification gives it. *)
Definition highway_table : list (string * Z) :=
  [("minor", 3); ("road", 3); ("unclassified", 3); ("residential", 3);
   ("tertiary", 4); ("tertiary_link", 4); ("secondary", 6); ("secondary_link", 6);
   ("primary", 7); ("primary_link", 7); ("trunk", 8); ("trunk_link", 8);
   ("motorway", 9); ("motorway_link", 9)].

Definition base_score (highway : option string) : Z :=
  match highway with
  | Some h =>
      match find (fun p => String.eqb h (fst p)) highway_table with
      | Some p => snd p
      | None => 0
      end
  | None => 0
  end.

(** The value is one of yes, true, 1. *)
Definition truthy (v : option string) : bool :=
  match v with
  | Some s => bool_decide (s ∈ ["yes"; "true"; "1"])
  | None => false
  end.

(** The formula of the specification on its five inputs, in the integers. *)
Definition zorder_formula (highway bridge tunnel railway layer : option string) : Z :=
  base_score highway
  + (if truthy bridge then 10 else 0)
  - (if truthy tunnel then 10 else 0)
  + (if railway is Some _ then 5 else 0)
  + 10 * (if layer is Some l then parse_int l else 0).

(** An input of the formula as C2 words it: the bound field when it is
    declared and set, else the first tag of that key. *)
Definition claimed_input `{External} (f : OGRFeature) (pasTags : list OSMTag)
    (nIdx : Z) (key : string) : option string :=
  if (nIdx >=? 0) && IsFieldSetAndNotNull f nIdx
  then GetFieldAsString <$> GetRawField f nIdx
  else GetValueOfTag key pasTags.

(** An input of the formula as the corrected C2 words it: when a field is
    declared for it (an index that is not negative), that field as a string,
    and no input when the field is unset; the first tag of that key only when
    no field is declared. *)
Definition declared_input `{External} (f : OGRFeature) (pasTags : list OSMTag)
    (nIdx : Z) (key : string) : option string :=
  if nIdx <? 0 then GetValueOfTag key pasTags
  else GetFieldAsString <$> GetRawField f nIdx.

(** A layer with a computed attribute named bridge, declared before the
    z_order attribute. *)
Definition shadowed_layer : OGROSMLayer :=
  aca_layer
    (@AddComputedAttribute null_rows true
       (aca_layer (@AddComputedAttribute null_rows false new_layer
                     "bridge" OFTString "SELECT NULL"))
       "z_order" OFTInteger zorder_sql).

(** A layer with the z_order attribute alone, and a motorway on a bridge at
    layer 2. *)
Definition zorder_layer : OGROSMLayer :=
  aca_layer (@AddComputedAttribute null_rows false new_layer
               "z_order" OFTInteger zorder_sql).

Definition motorway_bridge : list OSMTag :=
  [mkTag "highway" "motorway"; mkTag "bridge" "yes"; mkTag "layer" "2"].

(** The attribute that [zorder_layer] holds. *)
Definition zorder_attribute : OGROSMComputedAttribute :=
  mkAttr "z_order" 0 OFTInteger zorder_sql
         (mkStmt (unescape (ph_sql (extract_placeholders [] zorder_sql))) ∅ false)
         ["highway"; "bridge"; "tunnel"; "railway"; "layer"; "layer"]
         [-1; -1; -1; -1; -1; -1] true.

(** An engine whose statements add their first two parameters when both are
    integers, with accessors that read an integer off a text field. *)
Definition adding_engine : External :=
  {| FieldAsString := fun _ => "";
     FieldAsInteger := fun v => if v is OFString s then atoi s else 0;
     FieldAsInteger64 := fun _ => 0;
     FieldAsDouble := fun _ => PrimFloat.zero;
     OGRParseXMLDateTime := fun _ => None;
     CPLUnixTimeToYMDHMS := fun _ => mkDateTime 70 0 1 0 0 0 0;
     sqlite3_open_v2 := true;
     sqlite3_prepare_v2 := fun _ => true;
     sqlite3_step := fun _ bound =>
       match bound !! 1%nat, bound !! 2%nat with
       | Some (SQLITE_INTEGER a), Some (SQLITE_INTEGER b) =>
           SQLITE_ROW [SQLITE_INTEGER (a + b)]
       | _, _ => SQLITE_DONE
       end |}.

(** The layer of the round-trip example of the specification: integer
    fields a and b and the attribute total, which is their sum. *)
Definition sum_layer : OGROSMLayer :=
  aca_layer
    (@AddComputedAttribute adding_engine false
       (AddField plain_options
          (AddField plain_options new_layer "a" OFTInteger OFSTNone)
          "b" OFTInteger OFSTNone)
       "total" OFTInteger "SELECT [a] + [b]").

Definition sum_attribute : OGROSMComputedAttribute :=
  mkAttr "total" 2 OFTInteger "SELECT [a] + [b]"
         (mkStmt "SELECT ? + ?" ∅ false) ["a"; "b"] [0; 1] false.

(** ** Vocabulary of the further properties *)

Global Instance CPLErr_eq_dec : EqDecision CPLErr.
Proof. solve_decision. Defined.

Global Instance CPLErrorNum_eq_dec : EqDecision CPLErrorNum.
Proof. solve_decision. Defined.

Global Instance CPLErrorEvent_eq_dec : EqDecision CPLErrorEvent.
Proof. solve_decision. Defined.

(** The layer wants the feature: it is of interest to the user, the spatial
    filter (if any) lets the feature through, and so does the attribute
    filter (if any), unless the caller evaluated it already. *)
Definition passes_filters (L : LayerBuffer) (f : OGRFeature) (already : bool) : Prop :=
  m_bUserInterested L = true
  ∧ (forall g, m_poFilterGeom L = Some g -> g f = true)
  ∧ (forall q, m_poAttrQuery L = Some q -> already = true ∨ q f = true).

(** [AddToArray] does not turn the feature down for the size of the array. *)
Definition has_room (L : LayerBuffer) (bCheckFeatureThreshold : bool) : Prop :=
  bCheckFeatureThreshold = false ∨ size (m_apoFeatures L) <= MAX_THRESHOLD.

(** The arguments of one call of [AddFeature]: the feature,
    bAttrFilterAlreadyEvaluated, bCheckFeatureThreshold, and whether
    [push_back] throws. *)
Definition AddArgs : Set := (OGRFeature * bool * bool * bool)%type.

(** A sequence of calls of [AddFeature] on a layer: the layer at the end and
    all the errors reported, in order. *)
Fixpoint add_all (L : LayerBuffer) (calls : list AddArgs)
    : LayerBuffer * list CPLErrorEvent :=
  match calls with
  | [] => (L, [])
  | (f, already, chk, bad) :: rest =>
      let a := AddFeature L f already chk bad in
      let '(L', errs) := add_all (add_layer a) rest in
      (L', (add_errors a ++ errs)%list)
  end.

(** How often the error of line 296 occurs among the errors. *)
Definition warnings (errs : list CPLErrorEvent) : nat :=
  length (filter (fun e => e = too_many_features) errs).

(** A layer with a spatial filter that lets no feature through. *)
Definition closed_buffer : LayerBuffer :=
  mkBuffer [] 0%nat false false true (Some (fun _ => false)) None.

(** Every layer of the data source has its cursor in order. *)
Definition ds_ok (ds : OGROSMDataSource) : Prop :=
  Forall cursor_ok (m_apoLayers ds).

(** A layer with two features waiting. *)
Definition two_features : LayerBuffer :=
  mkBuffer [Some feature1; Some feature2] 0%nat false false true None None.

(** Interleaved reading: layer 0 has two features, layer 1 is current and
    over SWITCH_THRESHOLD. *)
Definition fed_ds : OGROSMDataSource :=
  mkDS [two_features; busy_buffer] (Some 1%nat) true [[(0%nat, feature0)]] 0.

(** Interleaved reading: both layers empty, layer 1 current, a chunk waiting. *)
Definition waiting_ds : OGROSMDataSource :=
  mkDS [new_buffer true None None; new_buffer true None None] (Some 1%nat) true
       [[(0%nat, feature1)]] 0.

(** Interleaved reading at the end of the input: nothing left anywhere. *)
Definition drained_ds : OGROSMDataSource :=
  mkDS [new_buffer true None None; new_buffer true None None] (Some 0%nat) true [] 3.

(** Interleaved reading at the end of the input, with features left in
    layer 1 while layer 0 is current. *)
Definition leftover_ds : OGROSMDataSource :=
  mkDS [new_buffer true None None; two_features] (Some 0%nat) true [] 3.

(** Plain reading: the first chunk is for layer 1, the second for layer 0. *)
Definition plain_ds : OGROSMDataSource :=
  mkDS [new_buffer true None None; new_buffer true None None] None false
       [[(1%nat, feature1)]; [(0%nat, feature2)]] 0.

(** One step of the set-up of a layer: the calls by which the data source
    declares the fields, the keys to ignore and the computed attributes of a
    layer. *)
Inductive SetupOp : Set :=
  | DoAddField (pszName : string) (eFieldType : OGRFieldType) (eSubType : OGRFieldSubType)
  | DoAddIgnoreKey (pszK : string)
  | DoSetHas (id version timestamp uid user changeset : bool)
  | DoAddComputedAttribute (pszName : string) (eType : OGRFieldType) (pszSQL : string).

(** The handle of the data base of the data source ([true]: open) and the
    layer, after one step. *)
Definition setup_op `{External} (o : OSMOptions) (st : bool * OGROSMLayer)
    (op : SetupOp) : bool * OGROSMLayer :=
  let '(hDB, L) := st in
  match op with
  | DoAddField pszName eFieldType eSubType =>
      (hDB, AddField o L pszName eFieldType eSubType)
  | DoAddIgnoreKey pszK => (hDB, AddIgnoreKey L pszK)
  | DoSetHas id version timestamp uid user changeset =>
      (hDB, SetHas L id version timestamp uid user changeset)
  | DoAddComputedAttribute pszName eType pszSQL =>
      let r := AddComputedAttribute hDB L pszName eType pszSQL in
      (aca_hDB r, aca_layer r)
  end.

(** A layer as a sequence of such steps leaves it, from the constructor. *)
Definition setup `{External} (o : OSMOptions) (ops : list SetupOp)
    : bool * OGROSMLayer :=
  fold_left (setup_op o) ops (false, new_layer).

(** What holds of the schema of a layer however it was set up. *)
Record layer_wf (o : OSMOptions) (L : OGROSMLayer) : Prop := mkWf {
  (* an index of the name map is the field that AddField made for the name *)
  wf_fields : forall name i, m_oMapFieldNameToIndex L !! name = Some i ->
    0 <= i ∧ exists d, m_poFeatureDefn L !! Z.to_nat i = Some d
                       ∧ fd_name d = GetLaunderedFieldName o name;
  (* two names do not share a field *)
  wf_inj : forall n1 n2 i, m_oMapFieldNameToIndex L !! n1 = Some i ->
    m_oMapFieldNameToIndex L !! n2 = Some i -> n1 = n2;
  (* the four indices that AddField keeps are those of the name map *)
  wf_osm_id : m_nIndexOSMId L = GetFieldIndex L "osm_id";
  wf_osm_way_id : m_nIndexOSMWayId L = GetFieldIndex L "osm_way_id";
  wf_other_tags : m_nIndexOtherTags L = GetFieldIndex L "other_tags";
  wf_all_tags : m_nIndexAllTags L = GetFieldIndex L "all_tags";
  (* a computed attribute has a field of its own, which its name finds *)
  wf_attrs : forall a, a ∈ m_oComputedAttributes L ->
    0 <= nIndex a
    ∧ m_poFeatureDefn L !! Z.to_nat (nIndex a)
      = Some (mkFieldDefn (osName a) (eType a) OFSTNone)
    ∧ OGRFeatureDefn_GetFieldIndex (m_poFeatureDefn L) (osName a) = nIndex a;
  wf_apart : forall name i a, m_oMapFieldNameToIndex L !! name = Some i ->
    a ∈ m_oComputedAttributes L -> nIndex a ≠ i;
  (* what an attribute binds: a name for every index, and only fields that
     were declared before the attribute; six of them on the fast path *)
  wf_binds : forall a, a ∈ m_oComputedAttributes L ->
    length (anIndexToBind a) = length (aosAttrToBind a)
    ∧ Forall (fun idx => -1 <= idx < nIndex a) (anIndexToBind a)
    ∧ (bHardcodedZOrder a = true ->
       eType a = OFTInteger
       ∧ aosAttrToBind a = ["highway"; "bridge"; "tunnel"; "railway"; "layer"; "layer"]);
  (* the attributes are in the order of their fields *)
  wf_sorted : forall i j a b, m_oComputedAttributes L !! i = Some a ->
    m_oComputedAttributes L !! j = Some b -> (i < j)%nat -> nIndex a < nIndex b
}.

(** Options with laundering into a buffer of eight bytes, and a set-up with
    a field, an ignored key and the z_order attribute. *)
Definition short_options : OSMOptions := mkOptions false true 8.

Definition sample_setup : list SetupOp :=
  [DoAddField "osm_id" OFTString OFSTNone;
   DoAddField "highway" OFTString OFSTNone;
   DoAddField "other_tags" OFTString OFSTNone;
   DoSetHas true false false false false false;
   DoAddIgnoreKey "created_by";
   DoAddComputedAttribute "z_order" OFTInteger zorder_sql].

(** The layer of [sample_setup]. *)
Definition sample_layer : OGROSMLayer := snd (@setup null_rows plain_options sample_setup).

(** A set-up with the fields of a layer of ways, and a way that bears a tag
    for each of the two identifier fields. *)
Definition way_setup : list SetupOp :=
  [DoAddField "osm_id" OFTString OFSTNone;
   DoAddField "osm_way_id" OFTString OFSTNone;
   DoAddField "name" OFTString OFSTNone;
   DoAddField "other_tags" OFTString OFSTNone;
   DoSetHas true false false false false false;
   DoAddComputedAttribute "z_order" OFTInteger zorder_sql].

Definition way_layer : OGROSMLayer := snd (@setup null_rows plain_options way_setup).

Definition odd_way : list OSMTag :=
  [mkTag "osm_id" "7"; mkTag "osm_way_id" "8"; mkTag "name" "Main St"].

(** What [OGROSMEscapeStringJSON] appends for one character. *)
Definition json_char (c : ascii) : string :=
  if Ascii.eqb c dquote then String backslash (String dquote EmptyString)
  else if Ascii.eqb c backslash then String backslash (String backslash EmptyString)
  else if Ascii.eqb c "010" then String backslash "n"
  else if Ascii.eqb c "013" then String backslash "r"
  else if Ascii.eqb c "009" then String backslash "t"
  else if (nat_of_ascii c <? 32)%nat then u_escape c
  else String c EmptyString.

(** How a reader of a quoted value finds its end: the position, counted from
    [pos], of the first double quote that no backslash escapes. *)
Fixpoint closing_quote_from (pos : nat) (s : string) : option nat :=
  match s with
  | EmptyString => None
  | String c t =>
      if Ascii.eqb c dquote then Some pos
      else if Ascii.eqb c backslash then
        match t with
        | String _ t' => closing_quote_from (S (S pos)) t'
        | EmptyString => None
        end
      else closing_quote_from (S pos) t
  end.

Definition closing_quote (s : string) : option nat := closing_quote_from 0 s.

(** The value of a hexadecimal digit. *)
Definition unhex (c : ascii) : nat :=
  let n := nat_of_ascii c in if (n <? 58)%nat then (n - 48)%nat else (n - 55)%nat.

(** How a reader of a JSON string reads the character at its head: one
    character, or one escape sequence; nothing at the closing quote. *)
Definition json_first (s : string) : option ascii :=
  match s with
  | EmptyString => None
  | String c t =>
      if Ascii.eqb c dquote then None
      else if Ascii.eqb c backslash then
        match t with
        | String e t' =>
            if Ascii.eqb e "n" then Some "010"%char
            else if Ascii.eqb e "r" then Some "013"%char
            else if Ascii.eqb e "t" then Some "009"%char
            else if Ascii.eqb e "u" then
              match t' with
              | String _ (String _ (String h (String l _))) =>
                  Some (ascii_of_nat (16 * unhex h + unhex l))
              | _ => None
              end
            else Some e
        | EmptyString => None
        end
      else Some c
  end.

(** The tag goes into the aggregate: the key is not ignored, and either the
    layer has the all_tags field, or it has the other_tags field and the key
    has no field of its own (the osm_id field does not count as one). *)
Definition listed (L : OGROSMLayer) (t : OSMTag) : bool :=
  let nIndex := GetFieldIndex L (pszK t) in
  ((m_nIndexAllTags L >=? 0)
   || ((m_nIndexOtherTags L >=? 0)
       && negb ((nIndex >=? 0) && negb (nIndex =? m_nIndexOSMId L))))
  && AddInOtherOrAllTags (aoSetIgnoreKeys L) (pszK t).

(** A tag as the aggregate shows it: key and value quoted, with => between
    them in HSTORE and a colon in JSON. *)
Definition entry (bTagsAsHSTORE : bool) (t : OSMTag) : string :=
  if bTagsAsHSTORE
  then OGROSMEscapeStringHSTORE (pszK t) "" ++ "=>" ++ OGROSMEscapeStringHSTORE (pszV t) ""
  else OGROSMEscapeStringJSON (pszK t) "" ++ ":" ++ OGROSMEscapeStringJSON (pszV t) "".

(** Further entries, each after a comma. *)
Definition more_entries (bTagsAsHSTORE : bool) (tags : list OSMTag) : string :=
  fold_right (fun t acc => "," ++ entry bTagsAsHSTORE t ++ acc) "" tags.

(** The text of the aggregate for the tags that go into it: nothing for no
    tag; else the entries with commas between them, in braces in JSON. *)
Definition aggregate_text (bTagsAsHSTORE : bool) (tags : list OSMTag) : string :=
  match tags with
  | [] => ""
  | t :: rest =>
      (if bTagsAsHSTORE then "" else "{")
      ++ entry bTagsAsHSTORE t ++ more_entries bTagsAsHSTORE rest
      ++ (if bTagsAsHSTORE then "" else "}")
  end.

(** The field that line 683 or 685 writes. *)
Definition aggregate_index (L : OGROSMLayer) : Z :=
  if m_nIndexAllTags L >=? 0 then m_nIndexAllTags L else m_nIndexOtherTags L.

(** The layer of [way_setup] with the key created_by ignored, and a way with
    a name, a tag that the layer ignores and two tags that have no field. *)
Definition tagged_layer : OGROSMLayer :=
  snd (@setup null_rows plain_options (way_setup ++ [DoAddIgnoreKey "created_by"])%list).

Definition tagged_way : list OSMTag :=
  [mkTag "name" "Main St"; mkTag "created_by" "JOSM"; mkTag "surface" "paved";
   mkTag "note" "a\b"].

(** A statement written as placeholders, each a name with the text that
    follows it: with the names in brackets, as [AddComputedAttribute] is
    given it, and with a question mark for each, as SQLite is given it. *)
Definition with_brackets (segs : list (string * string)) : string :=
  fold_right (fun seg acc => String "[" (fst seg ++ String "]" (snd seg ++ acc))) "" segs.

Definition with_marks (segs : list (string * string)) : string :=
  fold_right (fun seg acc => String "?" (snd seg ++ acc)) "" segs.

(** The last character of the text is a backslash. *)
Fixpoint ends_with_backslash (s : string) : bool :=
  match s with
  | EmptyString => false
  | String c EmptyString => Ascii.eqb c backslash
  | String _ t => ends_with_backslash t
  end.

(** The text without its backslashes. *)
Fixpoint drop_backslashes (s : string) : string :=
  match s with
  | EmptyString => EmptyString
  | String c t =>
      if Ascii.eqb c backslash then drop_backslashes t else String c (drop_backslashes t)
  end.

(** A name and the text after it that the loop of lines 1010-1030 reads as
    they are meant: no closing bracket in the name, and in the text no
    opening bracket and no backslash at the end. *)
Definition segment_ok (seg : string * string) : Prop :=
  ¬ occurs "]" (fst seg) ∧ ¬ occurs "[" (snd seg) ∧ ends_with_backslash (snd seg) = false.

(** The features of a chunk that are for layer [this], in their order. *)
Definition features_for (this : nat) (c : Chunk) : list OGRFeature :=
  snd <$> List.filter (fun p => (fst p =? this)%nat) c.

(** A layer that takes every feature: of interest, without filters. *)
Definition open_layer (L : LayerBuffer) : Prop :=
  m_bUserInterested L = true ∧ m_poFilterGeom L = None ∧ m_poAttrQuery L = None.

(** Interleaved reading: both layers empty, layer 1 current, and a chunk with
    one feature for layer 0 and two for layer 1. *)
Definition feeding_ds : OGROSMDataSource :=
  mkDS [new_buffer true None None; new_buffer true None None] (Some 1%nat) true
       [[(0%nat, feature1); (1%nat, feature2); (1%nat, feature0)]] 0.

(** The attribute that [way_layer] holds. *)
Definition way_zorder_attribute : OGROSMComputedAttribute :=
  mkAttr "z_order" 4 OFTInteger zorder_sql
         (mkStmt (unescape (ph_sql (extract_placeholders [] zorder_sql))) ∅ false)
         ["highway"; "bridge"; "tunnel"; "railway"; "layer"; "layer"]
         [-1; -1; -1; -1; -1; -1] true.

(** What lines 589-624 give to [SetField], by the name of the field: nothing
    for a field that the layer does not have, or for a time stamp that does
    not parse. *)
Definition metadata_values `{External} (L : OGROSMLayer) (psInfo : OSMInfo)
    : list (string * option OGRField) :=
  [("osm_version",
    if m_bHasVersion L then Some (OFInteger (nVersion psInfo)) else None);
   ("osm_timestamp",
    if m_bHasTimestamp L then
      if bTimeStampIsStr psInfo
      then OFDateTime <$> OGRParseXMLDateTime (ts_pszTimeStamp psInfo)
      else
        let brokendown := CPLUnixTimeToYMDHMS (ts_nTimeStamp psInfo) in
        Some (OFDateTime (mkDateTime (dt_year brokendown + 1900)
                            (dt_month brokendown + 1) (dt_day brokendown)
                            (dt_hour brokendown) (dt_minute brokendown)
                            (dt_second brokendown) 0))
    else None);
   ("osm_uid", if m_bHasUID L then Some (OFInteger (nUID psInfo)) else None);
   ("osm_user", if m_bHasUser L then Some (OFString (pszUserSID psInfo)) else None);
   ("osm_changeset",
    if m_bHasChangeset L then Some (OFInteger64 (nChangeset psInfo)) else None)].

(** One such [SetField]. *)
Definition write_metadata (defn : list OGRFieldDefn) (f : OGRFeature)
    (entry : string * option OGRField) : OGRFeature :=
  match snd entry with
  | Some v => SetFieldByName defn f (fst entry) v
  | None => f
  end.

(** A set-up with the metadata fields of a layer of points, and the
    metadata of version 3 of an entity by user 7. *)
Definition metadata_setup : list SetupOp :=
  [DoAddField "osm_id" OFTString OFSTNone;
   DoAddField "osm_version" OFTInteger OFSTNone;
   DoAddField "osm_uid" OFTInteger OFSTNone;
   DoAddField "osm_user" OFTString OFSTNone;
   DoAddField "name" OFTString OFSTNone;
   DoSetHas true true false true true false].

Definition metadata_layer : OGROSMLayer :=
  snd (@setup null_rows plain_options metadata_setup).

Definition version_3 : OSMInfo := mkInfo false "" 0 0 3 7 "mapper".





(** ** The feature array: bounds *)

Lemma size_app {A} (l1 l2 : list A) : size (l1 ++ l2)%list = size l1 + size l2.
Proof. unfold size. rewrite length_app. lia. Qed.

Lemma size_nonneg {A} (l : list A) : 0 <= size l.
Proof. unfold size. lia. Qed.

(** The three ways [AddToArray] can end. *)
Lemma AddToArray_cases L f chk bad :
  (chk = true ∧ size (m_apoFeatures L) > MAX_THRESHOLD
   ∧ fst (fst (AddToArray L f chk bad)) = false
   ∧ snd (fst (AddToArray L f chk bad)) = set_warned L)
  ∨ ((chk = false ∨ size (m_apoFeatures L) <= MAX_THRESHOLD) ∧ bad = true
     ∧ AddToArray L f chk bad = (false, L, [cannot_resize]))
  ∨ ((chk = false ∨ size (m_apoFeatures L) <= MAX_THRESHOLD) ∧ bad = false
     ∧ AddToArray L f chk bad
       = (true, set_features L (m_apoFeatures L ++ [Some f])%list
                  (m_nFeatureArrayIndex L), [])).
Proof.
  unfold AddToArray.
  destruct chk; simpl.
  - destruct (Z.gtb_spec (size (m_apoFeatures L)) MAX_THRESHOLD).
    + left. repeat split; auto; lia.
    + right. destruct bad; [left | right]; repeat split; auto.
  - right. destruct bad; [left | right]; repeat split; auto.
Qed.

Lemma AddToArray_size L f bad :
  size (m_apoFeatures L) <= MAX_THRESHOLD + 1 ->
  size (m_apoFeatures (snd (fst (AddToArray L f true bad)))) <= MAX_THRESHOLD + 1.
Proof.
  intros Hs.
  destruct (AddToArray_cases L f true bad) as [(_ & _ & _ & ->) | [(_ & _ & ->) | ([? | Hle] & _ & ->)]];
    simpl; try done.
  rewrite size_app. unfold size at 2. simpl. lia.
Qed.

(** [AddFeature] leaves the layer alone or leaves what [AddToArray] leaves. *)
Lemma AddFeature_layer L f already chk bad :
  add_layer (AddFeature L f already chk bad) = L
  ∨ add_layer (AddFeature L f already chk bad) = snd (fst (AddToArray L f chk bad)).
Proof.
  unfold AddFeature.
  destruct (negb (m_bUserInterested L)); [by left |].
  match goal with |- context [if ?c then _ else _] => destruct c end; [| by left].
  right. destruct (AddToArray L f chk bad) as [[[] ?] ?]; reflexivity.
Qed.

Lemma AddFeature_size L f already bad :
  size (m_apoFeatures L) <= MAX_THRESHOLD + 1 ->
  size (m_apoFeatures (add_layer (AddFeature L f already true bad)))
    <= MAX_THRESHOLD + 1.
Proof.
  intros Hs. destruct (AddFeature_layer L f already true bad) as [-> | ->]; [done |].
  by apply AddToArray_size.
Qed.

Lemma TakeNext_size L :
  size (m_apoFeatures (snd (TakeNext L))) <= size (m_apoFeatures L).
Proof.
  unfold TakeNext.
  destruct (m_apoFeatures L !! m_nFeatureArrayIndex L); simpl; [| lia].
  match goal with |- context [if ?c then _ else _] => destruct c end; simpl.
  - apply size_nonneg.
  - unfold size. rewrite length_insert. lia.
Qed.

Lemma run_op_size r op :
  size (m_apoFeatures (run_layer r)) <= MAX_THRESHOLD + 1 ->
  size (m_apoFeatures (run_layer (run_op r op))) <= MAX_THRESHOLD + 1.
Proof.
  intros Hs. destruct op as [f already bad |]; simpl.
  - by apply AddFeature_size.
  - case_bool_decide; [done |].
    pose proof (TakeNext_size (run_layer r)).
    destruct (TakeNext (run_layer r)); simpl in *. lia.
Qed.

Lemma fold_run_size ops r :
  size (m_apoFeatures (run_layer r)) <= MAX_THRESHOLD + 1 ->
  size (m_apoFeatures (run_layer (fold_left run_op ops r))) <= MAX_THRESHOLD + 1.
Proof.
  revert r. induction ops as [| op ops IH]; intros r Hs; simpl; [done |].
  apply IH. by apply run_op_size.
Qed.

(** On a layer of interest without filters, an append below the limit of
    [AddToArray] puts the feature at the end of the array. *)
Lemma AddFeature_open L f already :
  m_bUserInterested L = true -> m_poFilterGeom L = None -> m_poAttrQuery L = None ->
  size (m_apoFeatures L) <= MAX_THRESHOLD ->
  AddFeature L f already true false
  = mkAddResult true (Some false)
      (set_features L (m_apoFeatures L ++ [Some f])%list (m_nFeatureArrayIndex L)) [].
Proof.
  intros Hi Hg Ha Hs. unfold AddFeature, AddToArray. rewrite Hi, Hg, Ha. simpl.
  destruct (Z.gtb_spec (size (m_apoFeatures L)) MAX_THRESHOLD); [lia | reflexivity].
Qed.

Lemma run_replicate f n : forall r,
  m_bUserInterested (run_layer r) = true ->
  m_poFilterGeom (run_layer r) = None -> m_poAttrQuery (run_layer r) = None ->
  size (m_apoFeatures (run_layer r)) + Z.of_nat n <= MAX_THRESHOLD + 1 ->
  let r' := fold_left run_op (replicate n (OpAppend f false false)) r in
  m_apoFeatures (run_layer r') = (m_apoFeatures (run_layer r) ++ replicate n (Some f))%list
  ∧ run_flags r' = (run_flags r ++ replicate n true)%list.
Proof.
  induction n as [| n IH]; intros r Hi Hg Ha Hs; simpl.
  - by rewrite !app_nil_r.
  - rewrite AddFeature_open by (auto; lia). simpl.
    match goal with |- context [fold_left run_op _ ?r1] =>
      destruct (IH r1) as [E1 E2] end; simpl; auto.
    { rewrite size_app. unfold size at 2. simpl. lia. }
    simpl in E1, E2. rewrite E1, E2, <- !app_assoc. done.
Qed.

(** ** The feature array: first in, first out *)

Lemma pending_cons L s q :
  pending L = s :: q ->
  m_apoFeatures L !! m_nFeatureArrayIndex L = Some s
  ∧ q = drop (S (m_nFeatureArrayIndex L)) (m_apoFeatures L).
Proof.
  unfold pending. intros Hp.
  assert (Hl : drop (m_nFeatureArrayIndex L) (m_apoFeatures L) !! 0%nat = Some s)
    by (by rewrite Hp).
  rewrite lookup_drop, Nat.add_0_r in Hl. split; [done |].
  rewrite (drop_S _ _ _ Hl) in Hp. congruence.
Qed.

Lemma cursor_le L : cursor_ok L -> (m_nFeatureArrayIndex L <= length (m_apoFeatures L))%nat.
Proof. intros [[? | [-> ->]] _]; simpl; lia. Qed.

(** A layer with nothing waiting is a layer with an empty array. *)
Lemma drained_is_reset L :
  cursor_ok L -> pending L = [] ->
  m_apoFeatures L = [] ∧ m_nFeatureArrayIndex L = 0%nat.
Proof.
  intros [[Hlt | ?] _] Hp; [| done].
  apply (f_equal length) in Hp. unfold pending in Hp.
  rewrite length_drop in Hp. simpl in Hp. lia.
Qed.

(** Lines 257-266 hand over the first waiting feature and keep the rest. *)
Lemma TakeNext_fifo L s q :
  cursor_ok L -> pending L = s :: q ->
  is_Some s ∧ fst (TakeNext L) = s
  ∧ pending (snd (TakeNext L)) = q ∧ cursor_ok (snd (TakeNext L)).
Proof.
  intros [Hc Hall] Hp.
  destruct (pending_cons L s q Hp) as [Hl Hq].
  rewrite Hp in Hall. apply Forall_cons in Hall as [Hs Hall].
  pose proof (lookup_lt_Some _ _ _ Hl) as Hlt.
  unfold TakeNext. rewrite Hl, length_insert.
  destruct (Nat.eqb_spec (S (m_nFeatureArrayIndex L)) (length (m_apoFeatures L)))
    as [He | Hne]; simpl.
  - split; [done |]. split; [done |]. split.
    + unfold pending; simpl. rewrite Hq, He. symmetry. apply drop_all.
    + split; [by right |]. unfold pending; simpl. constructor.
  - assert (Hd : pending (set_features L (<[m_nFeatureArrayIndex L:=None]> (m_apoFeatures L))
                            (S (m_nFeatureArrayIndex L))) = q).
    { unfold pending; simpl. rewrite drop_insert_lt by lia. done. }
    split; [done |]. split; [done |]. split; [done |]. split.
    + left; simpl. rewrite length_insert. lia.
    + by rewrite Hd.
Qed.

(** An append puts an accepted feature behind the waiting ones and otherwise
    leaves them as they are. *)
Lemma AddFeature_fifo L f already chk bad :
  cursor_ok L ->
  let a := AddFeature L f already chk bad in
  cursor_ok (add_layer a)
  ∧ pending (add_layer a)
    = (pending L ++ if bool_decide (add_filtered_out a = Some false)
                    then [Some f] else [])%list.
Proof.
  intros Hc. pose proof (cursor_le L Hc) as Hle. destruct Hc as [Hc Hall].
  assert (Hkeep : forall L', m_apoFeatures L' = m_apoFeatures L ->
            m_nFeatureArrayIndex L' = m_nFeatureArrayIndex L ->
            cursor_ok L' ∧ pending L' = (pending L ++ [])%list).
  { intros L' E1 E2. unfold cursor_ok, pending. rewrite E1, E2, app_nil_r. done. }
  unfold AddFeature.
  destruct (negb (m_bUserInterested L)); simpl; [by apply Hkeep |].
  match goal with |- context [if ?c then _ else _] => destruct c end;
    simpl; [| by apply Hkeep].
  destruct (AddToArray_cases L f chk bad)
    as [(_ & _ & E1 & E2) | [(_ & _ & E) | (_ & _ & E)]].
  - destruct (AddToArray L f chk bad) as [[b L'] errs]; simpl in *; subst.
    by apply Hkeep.
  - rewrite E; simpl. by apply Hkeep.
  - rewrite E; simpl. unfold cursor_ok, pending; simpl.
    rewrite drop_app_le by done. repeat split.
    + left. rewrite length_app. simpl. lia.
    + apply Forall_app. split; [done |]. by repeat constructor.
Qed.

(** The law of a queue along any run: what waited, followed by what was
    accepted, is what was handed over, followed by what waits. *)
Lemma fold_run_fifo ops : forall r,
  cursor_ok (run_layer r) ->
  let r' := fold_left run_op ops r in
  cursor_ok (run_layer r')
  ∧ exists acc del,
      run_accepted r' = (run_accepted r ++ acc)%list
      ∧ run_delivered r' = (run_delivered r ++ del)%list
      ∧ (pending (run_layer r) ++ (Some <$> acc) = del ++ pending (run_layer r'))%list.
Proof.
  induction ops as [| op ops IH]; intros r Hc; simpl.
  - split; [done |]. exists [], []. by rewrite !app_nil_r.
  - assert (Hstep : cursor_ok (run_layer (run_op r op))
        ∧ exists acc del,
            run_accepted (run_op r op) = (run_accepted r ++ acc)%list
            ∧ run_delivered (run_op r op) = (run_delivered r ++ del)%list
            ∧ (pending (run_layer r) ++ (Some <$> acc)
               = del ++ pending (run_layer (run_op r op)))%list).
    { destruct op as [f already bad |]; simpl.
      - destruct (AddFeature_fifo (run_layer r) f already true bad Hc) as [Hc' Hp].
        split; [done |]. rewrite Hp.
        case_bool_decide.
        + exists [f], []. by rewrite app_nil_r.
        + exists [], []. by rewrite !app_nil_r.
      - case_bool_decide as He.
        + split; [done |]. exists [], []. by rewrite !app_nil_r.
        + destruct (pending (run_layer r)) as [| s q] eqn:Hp.
          { by destruct (drained_is_reset _ Hc Hp). }
          destruct (TakeNext_fifo _ s q Hc Hp) as (_ & E1 & E2 & Hc').
          destruct (TakeNext (run_layer r)) as [s' L']; simpl in *; subst.
          split; [done |]. exists [], [s]. by rewrite !app_nil_r. }
    destruct Hstep as (Hc1 & acc1 & del1 & Ea1 & Ed1 & Hq1).
    destruct (IH _ Hc1) as (Hc2 & acc2 & del2 & Ea2 & Ed2 & Hq2).
    split; [done |]. exists (acc1 ++ acc2)%list, (del1 ++ del2)%list.
    rewrite Ea2, Ea1, Ed2, Ed1, <- !app_assoc. repeat split; try done.
    rewrite fmap_app, app_assoc, Hq1, <- app_assoc, Hq2. done.
Qed.

(** Nothing an append or a hand-over returns depends on the two flags that
    [same_array] leaves out. *)
Lemma run_op_same r1 r2 op :
  same_array (run_layer r1) (run_layer r2) ->
  run_flags r1 = run_flags r2 -> run_accepted r1 = run_accepted r2 ->
  run_delivered r1 = run_delivered r2 ->
  same_array (run_layer (run_op r1 op)) (run_layer (run_op r2 op))
  ∧ run_flags (run_op r1 op) = run_flags (run_op r2 op)
  ∧ run_accepted (run_op r1 op) = run_accepted (run_op r2 op)
  ∧ run_delivered (run_op r1 op) = run_delivered (run_op r2 op).
Proof.
  intros (Ea & Ei & Eu & Eg & Eq) Ef Ec Ed.
  destruct op as [f already bad |]; simpl.
  - unfold AddFeature, AddToArray. rewrite Eu, Eg, Eq, Ea, Ef, Ec, Ed.
    destruct (negb (m_bUserInterested (run_layer r2))); simpl; [done |].
    match goal with |- context [if ?c then _ else _] => destruct c end;
      simpl; [| done].
    destruct (size (m_apoFeatures (run_layer r2)) >? MAX_THRESHOLD); simpl; [done |].
    destruct bad; simpl; [done |].
    unfold same_array; simpl. done.
  - rewrite Ea. case_bool_decide; [done |].
    unfold TakeNext. rewrite Ea, Ei.
    destruct (m_apoFeatures (run_layer r2) !! m_nFeatureArrayIndex (run_layer r2));
      simpl; [| by rewrite Ef, Ec, Ed].
    match goal with |- context [if ?c then _ else _] => destruct c end;
      simpl; rewrite Ef, Ec, Ed; unfold same_array; simpl; done.
Qed.

Lemma fold_run_same ops : forall r1 r2,
  same_array (run_layer r1) (run_layer r2) ->
  run_flags r1 = run_flags r2 -> run_accepted r1 = run_accepted r2 ->
  run_delivered r1 = run_delivered r2 ->
  same_array (run_layer (fold_left run_op ops r1)) (run_layer (fold_left run_op ops r2))
  ∧ run_flags (fold_left run_op ops r1) = run_flags (fold_left run_op ops r2)
  ∧ run_accepted (fold_left run_op ops r1) = run_accepted (fold_left run_op ops r2)
  ∧ run_delivered (fold_left run_op ops r1) = run_delivered (fold_left run_op ops r2).
Proof.
  induction ops as [| op ops IH]; intros r1 r2 Hs Ef Ec Ed; simpl; [done |].
  destruct (run_op_same r1 r2 op Hs Ef Ec Ed) as (? & ? & ? & ?). by apply IH.
Qed.

(** Interest and filters stay as they are along a run. *)
Lemma run_op_config r op :
  m_bUserInterested (run_layer (run_op r op)) = m_bUserInterested (run_layer r)
  ∧ m_poFilterGeom (run_layer (run_op r op)) = m_poFilterGeom (run_layer r)
  ∧ m_poAttrQuery (run_layer (run_op r op)) = m_poAttrQuery (run_layer r).
Proof.
  destruct op as [f already bad |]; simpl.
  - unfold AddFeature, AddToArray.
    destruct (negb (m_bUserInterested (run_layer r))); simpl; [done |].
    repeat (match goal with |- context [if ?c then _ else _] => destruct c end;
            simpl; try done).
  - case_bool_decide; [done |]. unfold TakeNext.
    destruct (m_apoFeatures (run_layer r) !! m_nFeatureArrayIndex (run_layer r));
      simpl; [| done].
    match goal with |- context [if ?c then _ else _] => destruct c end; done.
Qed.

Lemma fold_run_config ops : forall r,
  m_bUserInterested (run_layer (fold_left run_op ops r)) = m_bUserInterested (run_layer r)
  ∧ m_poFilterGeom (run_layer (fold_left run_op ops r)) = m_poFilterGeom (run_layer r)
  ∧ m_poAttrQuery (run_layer (fold_left run_op ops r)) = m_poAttrQuery (run_layer r).
Proof.
  induction ops as [| op ops IH]; intros r; simpl; [done |].
  destruct (IH (run_op r op)) as (-> & -> & ->). apply run_op_config.
Qed.

(** ** C1 and C7: the bound of the array and its order *)

(** C1, as the code has it: along every run of appends (and hand-overs) with
    the threshold check on, the array holds at most MAX_THRESHOLD + 1
    features; and once it holds more than MAX_THRESHOLD, [AddToArray]
    returns false and neither it nor [AddFeature] changes the array. *)
Theorem array_bounded_by_limit_plus_one (L : LayerBuffer) (ops : list BufferOp) :
  size (m_apoFeatures L) <= MAX_THRESHOLD + 1 ->
  let L' := run_layer (run_ops ops L) in
  size (m_apoFeatures L') <= MAX_THRESHOLD + 1
  ∧ (size (m_apoFeatures L') > MAX_THRESHOLD ->
     forall f already bad,
       fst (fst (AddToArray L' f true bad)) = false
       ∧ m_apoFeatures (snd (fst (AddToArray L' f true bad))) = m_apoFeatures L'
       ∧ m_nFeatureArrayIndex (snd (fst (AddToArray L' f true bad)))
         = m_nFeatureArrayIndex L'
       ∧ m_apoFeatures (add_layer (AddFeature L' f already true bad))
         = m_apoFeatures L').
Proof.
  intros Hs L'. split.
  - apply (fold_run_size ops (mkRun [] [] [] L)). exact Hs.
  - intros Hgt f already bad.
    assert (HA : fst (fst (AddToArray L' f true bad)) = false
                 ∧ snd (fst (AddToArray L' f true bad)) = set_warned L').
    { destruct (AddToArray_cases L' f true bad)
        as [(_ & _ & E1 & E2) | [([? | ?] & _) | ([? | ?] & _)]];
        try done; lia. }
    destruct HA as [E1 E2]. rewrite E1, E2. simpl. repeat split.
    destruct (AddFeature_layer L' f already true bad) as [-> | ->]; [done |].
    by rewrite E2.
Qed.

Lemma full_buffer_size : size (m_apoFeatures full_buffer) = MAX_THRESHOLD + 1.
Proof.
  unfold full_buffer. remember (Z.to_nat (MAX_THRESHOLD + 1)) as n eqn:En.
  unfold size; simpl. rewrite length_replicate. subst n.
  apply Z2Nat.id. unfold MAX_THRESHOLD. lia.
Qed.

(** C1 at a full array: the next append is refused and changes nothing. *)
Lemma array_bounded_witness :
  size (m_apoFeatures full_buffer) <= MAX_THRESHOLD + 1
  ∧ fst (fst (AddToArray full_buffer feature1 true false)) = false
  ∧ m_apoFeatures (snd (fst (AddToArray full_buffer feature1 true false)))
    = m_apoFeatures full_buffer.
Proof.
  assert (Hs : size (m_apoFeatures full_buffer) <= MAX_THRESHOLD + 1)
    by (rewrite full_buffer_size; lia).
  split; [exact Hs |].
  destruct (array_bounded_by_limit_plus_one full_buffer [] Hs) as [_ Hrej].
  assert (Hgt : size (m_apoFeatures full_buffer) > MAX_THRESHOLD)
    by (rewrite full_buffer_size; lia).
  destruct (Hrej Hgt feature1 false false) as (E1 & E2 & _).
  split; [exact E1 | exact E2].
Defined.

(** C1 as it is worded fails: MAX_THRESHOLD + 1 appends to an empty array
    all succeed and leave MAX_THRESHOLD + 1 features in it. *)
Lemma array_exceeds_MAX_THRESHOLD :
  let r := run_ops (replicate (Z.to_nat (MAX_THRESHOLD + 1))
                              (OpAppend feature0 false false))
                   (new_buffer true None None) in
  size (m_apoFeatures (run_layer r)) = MAX_THRESHOLD + 1
  ∧ ¬ (size (m_apoFeatures (run_layer r)) <= MAX_THRESHOLD)
  ∧ Forall (fun ok => ok = true) (run_flags r).
Proof.
  assert (Hn : Z.of_nat (Z.to_nat (MAX_THRESHOLD + 1)) = MAX_THRESHOLD + 1)
    by (apply Z2Nat.id; unfold MAX_THRESHOLD; lia).
  remember (Z.to_nat (MAX_THRESHOLD + 1)) as n eqn:En.
  destruct (run_replicate feature0 n (mkRun [] [] [] (new_buffer true None None)))
    as [E1 E2]; try reflexivity.
  { simpl. unfold size. simpl. lia. }
  unfold run_ops. cbv zeta. rewrite E1, E2. simpl.
  unfold size. rewrite length_replicate, Hn.
  split; [done |]. split; [lia |].
  apply Forall_forall. intros ok Hin. by apply elem_of_replicate in Hin as [-> _].
Qed.

(** C7: along every run from a layer whose cursor is in order, the features
    come out in the order they went in (what waited, then what was accepted,
    is what was handed over, then what waits); and when nothing waits, the
    array is empty with its cursor at 0, so that every further run returns
    the same flags and features, and leaves the same array, as on a new
    layer. *)
Theorem array_is_fifo_and_resets (L : LayerBuffer) (ops : list BufferOp) :
  cursor_ok L ->
  let r := run_ops ops L in
  (pending L ++ (Some <$> run_accepted r) = run_delivered r ++ pending (run_layer r))%list
  ∧ cursor_ok (run_layer r)
  ∧ (pending (run_layer r) = [] ->
     m_apoFeatures (run_layer r) = [] ∧ m_nFeatureArrayIndex (run_layer r) = 0%nat
     ∧ forall ops',
         let fresh := new_buffer (m_bUserInterested L) (m_poFilterGeom L)
                                 (m_poAttrQuery L) in
         run_flags (run_ops ops' (run_layer r)) = run_flags (run_ops ops' fresh)
         ∧ run_accepted (run_ops ops' (run_layer r)) = run_accepted (run_ops ops' fresh)
         ∧ run_delivered (run_ops ops' (run_layer r)) = run_delivered (run_ops ops' fresh)
         ∧ m_apoFeatures (run_layer (run_ops ops' (run_layer r)))
           = m_apoFeatures (run_layer (run_ops ops' fresh))
         ∧ m_nFeatureArrayIndex (run_layer (run_ops ops' (run_layer r)))
           = m_nFeatureArrayIndex (run_layer (run_ops ops' fresh))).
Proof.
  intros Hc r.
  destruct (fold_run_fifo ops (mkRun [] [] [] L) Hc) as (Hc' & acc & del & Ea & Ed & Hq).
  simpl in Ea, Ed, Hq. fold (run_ops ops L) in Hc', Ea, Ed, Hq. fold r in Hc', Ea, Ed, Hq.
  split; [by rewrite Ea, Ed |]. split; [done |].
  intros Hp. destruct (drained_is_reset _ Hc' Hp) as [E1 E2].
  split; [done |]. split; [done |]. intros ops' fresh.
  assert (Hcfg : m_bUserInterested (run_layer r) = m_bUserInterested L
                 ∧ m_poFilterGeom (run_layer r) = m_poFilterGeom L
                 ∧ m_poAttrQuery (run_layer r) = m_poAttrQuery L).
  { exact (fold_run_config ops (mkRun [] [] [] L)). }
  destruct Hcfg as (Hu & Hg & Ha).
  destruct (fold_run_same ops' (mkRun [] [] [] (run_layer r)) (mkRun [] [] [] fresh))
    as ((F1 & F2 & _) & F3 & F4 & F5); try reflexivity.
  { unfold same_array; simpl. by rewrite E1, E2, Hu, Hg, Ha. }
  by repeat split.
Qed.

(** C7 on a new layer: two appends, two hand-overs. *)
Lemma array_is_fifo_witness :
  cursor_ok (new_buffer true None None)
  ∧ run_delivered (run_ops [OpAppend feature1 false false; OpAppend feature2 false false;
                            OpTake; OpTake] (new_buffer true None None))
    = [Some feature1; Some feature2]
  ∧ m_apoFeatures (run_layer (run_ops [OpAppend feature1 false false;
                                       OpAppend feature2 false false; OpTake; OpTake]
                                      (new_buffer true None None))) = [].
Proof.
  assert (Hc : cursor_ok (new_buffer true None None)).
  { split; [by right | constructor]. }
  split; [exact Hc |].
  destruct (array_is_fifo_and_resets (new_buffer true None None)
              [OpAppend feature1 false false; OpAppend feature2 false false;
               OpTake; OpTake] Hc) as (Hq & _ & Hreset).
  split.
  - vm_compute. reflexivity.
  - apply Hreset. vm_compute. reflexivity.
Defined.

(** ** C3: the scheduler of the interleaved mode *)

(** The scan never looks at the layer [this], so what is done to that layer
    does not change its result. *)
Lemma scan_layers_alter P g this ls : forall i n,
  (i + n)%nat = this ->
  scan_layers P this i (alter g n ls) = scan_layers P this i ls.
Proof.
  induction ls as [| L ls IH]; intros i n Hn; [done |].
  destruct n as [| n]; simpl.
  - assert (Hi : (i =? this)%nat = true) by (apply Nat.eqb_eq; lia).
    rewrite Hi. simpl. done.
  - destruct (negb (i =? this)%nat && P L); [done |]. apply IH. lia.
Qed.

(** The scan answers the first layer other than [this] that satisfies [P]. *)
Lemma scan_layers_finds P this ls : forall i j L,
  ls !! j = Some L -> (i + j)%nat ≠ this -> P L = true ->
  exists k Lk, scan_layers P this i ls = Some (i + k)%nat
    ∧ ls !! k = Some Lk ∧ (i + k)%nat ≠ this ∧ P Lk = true ∧ (k <= j)%nat.
Proof.
  induction ls as [| L0 ls IH]; intros i j L Hl Hne HP; [done |].
  simpl.
  destruct (negb (i =? this)%nat && P L0) eqn:Hhere.
  - apply andb_true_iff in Hhere as [Hi HP0].
    exists 0%nat, L0. rewrite Nat.add_0_r. repeat split; try done.
    + apply negb_true_iff, Nat.eqb_neq in Hi. lia.
    + lia.
  - destruct j as [| j]; simpl in Hl.
    + injection Hl as ->. rewrite HP, andb_true_r in Hhere.
      apply negb_false_iff, Nat.eqb_eq in Hhere. lia.
    + destruct (IH (S i) j L Hl) as (k & Lk & E & Hk & Hnk & HPk & Hle);
        [lia | done |].
      exists (S k), Lk. rewrite E. repeat split; try done.
      * f_equal. lia.
      * lia.
      * lia.
Qed.

Lemma over_switch_spec L :
  over_switch L = true <-> size (m_apoFeatures L) > SWITCH_THRESHOLD.
Proof.
  unfold over_switch.
  destruct (Z.gtb_spec (size (m_apoFeatures L)) SWITCH_THRESHOLD); split;
    intros; try done; lia.
Qed.

(** Line 183 changes a flag of the layer [this] and no array. *)
Lemma reset_allowed_arrays ds this k :
  m_apoFeatures <$> (alter (fun L => set_reset_allowed L true) this (m_apoLayers ds) !! k)
  = m_apoFeatures <$> (m_apoLayers ds !! k).
Proof.
  destruct (decide (this = k)) as [-> | Hne].
  - rewrite list_lookup_alter_eq. destruct (m_apoLayers ds !! k); done.
  - by rewrite list_lookup_alter_ne.
Qed.

(** C3: in interleaved mode, when the layer that is asked is the current
    one, has nothing to hand over, and another layer holds more than
    SWITCH_THRESHOLD features, [MyGetNextFeature] returns no feature, names
    the first such layer as the new current layer (and [GetNextFeature]
    makes it current), and [ParseNextChunk] is not called: the stream and
    every array are as before. *)
Theorem switch_without_parsing (fuel : nat) (ds : OGROSMDataSource)
    (this j : nat) (Lthis Lj : LayerBuffer) :
  m_bInterleavedReading ds = true ->
  m_poCurrentLayer ds = Some this ->
  m_apoLayers ds !! this = Some Lthis -> m_apoFeatures Lthis = [] ->
  m_apoLayers ds !! j = Some Lj -> j ≠ this ->
  size (m_apoFeatures Lj) > SWITCH_THRESHOLD ->
  exists r i Li,
    MyGetNextFeature fuel ds this = Some r
    ∧ poFeature_of r = None
    ∧ ppoNewCurLayer_of r = Some i
    ∧ i ≠ this ∧ (i <= j)%nat
    ∧ m_apoLayers ds !! i = Some Li ∧ size (m_apoFeatures Li) > SWITCH_THRESHOLD
    ∧ m_stream (ds_of r) = m_stream ds
    ∧ m_nChunkCalls (ds_of r) = m_nChunkCalls ds
    ∧ (forall k, m_apoFeatures <$> (m_apoLayers (ds_of r) !! k)
                 = m_apoFeatures <$> (m_apoLayers ds !! k))
    ∧ (m_poCurrentLayer <$> (snd <$> GetNextFeature fuel ds this)) = Some (Some i)
    ∧ (fst <$> GetNextFeature fuel ds this) = Some None.
Proof.
  intros Hint Hcur Hthis Hempty Hj Hne Hover.
  destruct (scan_layers_finds over_switch this (m_apoLayers ds) 0 j Lj Hj)
    as (i & Li & Hscan & Hi & Hni & HPi & Hle); [lia | by apply over_switch_spec |].
  simpl in Hscan, Hni.
  assert (Hrun : MyGetNextFeature fuel ds this
    = Some (mkNext None (Some i)
        (set_layers ds (alter (fun L => set_reset_allowed L true) this (m_apoLayers ds))))).
  { unfold MyGetNextFeature, is_empty. simpl.
    rewrite list_lookup_alter_eq, Hthis. simpl. rewrite Hempty, Hint, Hcur. simpl.
    rewrite bool_decide_eq_true_2 by done. simpl.
    rewrite (scan_layers_alter over_switch _ this (m_apoLayers ds) 0 this) by lia.
    rewrite Hscan. reflexivity. }
  eexists _, i, Li. split; [exact Hrun |]. simpl.
  repeat split; try done.
  - by apply over_switch_spec.
  - intros k. apply reset_allowed_arrays.
  - unfold GetNextFeature. rewrite Hrun. reflexivity.
  - unfold GetNextFeature. rewrite Hrun. reflexivity.
Qed.

Lemma busy_buffer_size : size (m_apoFeatures busy_buffer) = SWITCH_THRESHOLD + 1.
Proof.
  unfold busy_buffer. remember (Z.to_nat (SWITCH_THRESHOLD + 1)) as n eqn:En.
  unfold size; simpl. rewrite length_replicate. subst n.
  apply Z2Nat.id. unfold SWITCH_THRESHOLD. lia.
Qed.

(** C3 on two layers: layer 0 is current and empty, layer 1 is over the
    threshold; the chunk that is waiting in the stream stays there. *)
Lemma switch_without_parsing_witness :
  exists r,
    MyGetNextFeature 0 interleaved_ds 0 = Some r
    ∧ poFeature_of r = None
    ∧ ppoNewCurLayer_of r = Some 1%nat
    ∧ m_stream (ds_of r) = [[(0%nat, feature1)]]
    ∧ m_nChunkCalls (ds_of r) = 0%nat.
Proof.
  assert (Hover : size (m_apoFeatures busy_buffer) > SWITCH_THRESHOLD)
    by (rewrite busy_buffer_size; lia).
  destruct (switch_without_parsing 0 interleaved_ds 0 1
              (new_buffer true None None) busy_buffer
              eq_refl eq_refl eq_refl eq_refl eq_refl (Nat.neq_succ_0 0) Hover)
    as (r & i & Li & Hr & Hf & Hc & Hne & Hle & _ & _ & Hs & Hn & _).
  exists r. assert (i = 1%nat) as -> by lia.
  repeat split; assumption.
Defined.

(** The loop of the non-interleaved branch ends: every turn that does not
    leave it takes a chunk off the stream. *)
Lemma parse_until_fed_total this : forall fuel ds,
  (length (m_stream ds) < fuel)%nat ->
  is_Some (parse_until_fed fuel ds this).
Proof.
  induction fuel as [| fuel IH]; intros ds Hlen; [lia |].
  simpl. unfold ParseNextChunk.
  destruct (m_stream ds) as [| c rest] eqn:Hst.
  - destruct (negb (is_empty _ this)); eauto.
  - destruct (negb (is_empty _ this)); [eauto |]. simpl.
    apply IH. simpl in *. lia.
Qed.

(** [MyGetNextFeature] returns, given one unit of fuel more than there are
    chunks in the stream. *)
Lemma MyGetNextFeature_total fuel ds this :
  (length (m_stream ds) < fuel)%nat ->
  is_Some (MyGetNextFeature fuel ds this).
Proof.
  intros Hlen. unfold MyGetNextFeature.
  destruct (is_empty _ this); [| eauto].
  destruct (m_bInterleavedReading _).
  - destruct (negb _); [eauto |].
    destruct (scan_layers over_switch _ _ _); [eauto |].
    destruct (ParseNextChunk _ this) as [b ds1].
    destruct (is_empty ds1 this); [| eauto].
    destruct (scan_layers non_empty _ _ _); eauto.
  - match goal with |- context [parse_until_fed fuel ?d this] =>
      destruct (parse_until_fed_total this fuel d) as [[[] ds1] ->] end; eauto.
Qed.

(** ** Strings *)

Lemma find_char_first c pre rest :
  ¬ occurs c pre ->
  find_char c (pre ++ String c rest) 0 = Some (String.length pre).
Proof.
  induction pre as [| a pre IH]; intros Hno; simpl.
  - by rewrite Ascii.eqb_refl.
  - destruct (Ascii.eqb_spec a c) as [-> | Hne].
    + exfalso. apply Hno. by left.
    + rewrite IH; [done |]. intros Hin. apply Hno. by right.
Qed.

Lemma find_char_absent c s : ¬ occurs c s -> find_char c s 0 = None.
Proof.
  induction s as [| a s IH]; intros Hno; simpl; [done |].
  destruct (Ascii.eqb_spec a c) as [-> | Hne].
  - exfalso. apply Hno. by left.
  - rewrite IH; [done |]. intros Hin. apply Hno. by right.
Qed.

Lemma substr_to_app pre rest : substr_to (pre ++ rest) (String.length pre) = pre.
Proof. induction pre as [| a pre IH]; simpl; [by destruct rest | by rewrite IH]. Qed.


Lemma substr_from_app pre rest : substr_from (pre ++ rest) (String.length pre) = rest.
Proof. induction pre as [| a pre IH]; simpl; [by destruct rest | by rewrite IH]. Qed.

(** ** A tag that is turned down *)

(** A tag that [AddInOtherOrAllTags] turns down leaves the buffer as it is. *)
Lemma project_tag_excluded o L f buf t :
  AddInOtherOrAllTags (aoSetIgnoreKeys L) (pszK t) = false ->
  snd (project_tag o L (f, buf) t) = buf.
Proof.
  intros Hex. unfold project_tag. rewrite Hex.
  repeat (match goal with |- context [if ?c then _ else _] => destruct c end;
          simpl; try done).
Qed.

(** ** Placeholders of a computed attribute *)

Lemma length_append s1 s2 :
  String.length (s1 ++ s2) = (String.length s1 + String.length s2)%nat.
Proof. induction s1 as [| a s1 IH]; simpl; [done | by rewrite IH]. Qed.

Lemma length_substr_to s : forall n,
  String.length (substr_to s n) = Nat.min n (String.length s).
Proof.
  induction s as [| a s IH]; intros [| n]; simpl; try done. by rewrite IH.
Qed.

Lemma length_substr_from s : forall n,
  String.length (substr_from s n) = (String.length s - n)%nat.
Proof. induction s as [| a s IH]; intros [| n]; simpl; try done. Qed.

Lemma find_char_bounds c s : forall start p,
  find_char c s start = Some p -> (start <= p < String.length s)%nat.
Proof.
  induction s as [| a s IH]; intros start p Hf; simpl in Hf; [done |].
  destruct start as [| n].
  - destruct (Ascii.eqb a c).
    + injection Hf as <-. simpl. lia.
    + destruct (find_char c s 0) as [q |] eqn:Hq; [| done].
      injection Hf as <-. apply IH in Hq. simpl. lia.
  - destruct (find_char c s n) as [q |] eqn:Hq; [| done].
    injection Hf as <-. apply IH in Hq. simpl. lia.
Qed.

(** One turn of the loop of lines 1010-1030. *)
Lemma extract_loop_S fuel defn osSQL nStartSearch aos an :
  extract_loop (S fuel) defn osSQL nStartSearch aos an
  = match find_char "[" osSQL nStartSearch with
    | None => mkPlaceholders osSQL aos an
    | Some nPos =>
        if (0 <? nPos)%nat && negb (Ascii.eqb (char_at osSQL (nPos - 1)) backslash)
        then
          match find_char "]" (substr_from osSQL (nPos + 1)) 0 with
          | None => mkPlaceholders osSQL aos an
          | Some nPos2 =>
              extract_loop fuel defn
                (substr_to osSQL nPos ++ "?" ++ substr_from osSQL (nPos + 1 + nPos2 + 1))
                (nPos + 1)
                (aos ++ [substr_to (substr_from osSQL (nPos + 1)) nPos2])%list
                (an ++ [OGRFeatureDefn_GetFieldIndex defn
                          (substr_to (substr_from osSQL (nPos + 1)) nPos2)])%list
          end
        else extract_loop fuel defn osSQL (nPos + 1) aos an
    end.
Proof. reflexivity. Qed.

(** The loop has left before the fuel runs out: with more fuel than there
    are characters after [nStartSearch], one more unit changes nothing. *)
Lemma extract_loop_fuel defn : forall fuel osSQL nStartSearch aos an,
  (String.length osSQL - nStartSearch < fuel)%nat ->
  extract_loop (S fuel) defn osSQL nStartSearch aos an
  = extract_loop fuel defn osSQL nStartSearch aos an.
Proof.
  induction fuel as [| fuel IH]; intros s start aos an Hm; [lia |].
  rewrite (extract_loop_S (S fuel)), (extract_loop_S fuel).
  destruct (find_char "[" s start) as [nPos |] eqn:Hf; [| done].
  apply find_char_bounds in Hf.
  destruct ((0 <? nPos)%nat && negb (Ascii.eqb (char_at s (nPos - 1)) backslash)).
  - destruct (find_char "]" (substr_from s (nPos + 1)) 0) as [nPos2 |] eqn:Hf2; [| done].
    apply find_char_bounds in Hf2. rewrite length_substr_from in Hf2.
    apply IH. rewrite !length_append, length_substr_to, length_substr_from. simpl. lia.
  - apply IH. lia.
Qed.

Lemma extract_loop_enough defn pszSQL k :
  extract_loop (S (String.length pszSQL) + k) defn pszSQL 0 [] []
  = extract_placeholders defn pszSQL.
Proof.
  unfold extract_placeholders. induction k as [| k IH]; [by rewrite Nat.add_0_r |].
  rewrite Nat.add_succ_r, extract_loop_fuel; [done | lia].
Qed.

(** One turn of the loop of lines 1031-1037. *)
Lemma unescape_loop_S fuel osSQL :
  unescape_loop (S fuel) osSQL
  = match find_char backslash osSQL 0 with
    | None => osSQL
    | Some nPos =>
        if (nPos =? String.length osSQL - 1)%nat then osSQL
        else unescape_loop fuel (substr_to osSQL nPos ++ substr_from osSQL (nPos + 1))
    end.
Proof. reflexivity. Qed.

Lemma unescape_loop_fuel : forall fuel osSQL,
  (String.length osSQL <= fuel)%nat ->
  unescape_loop (S fuel) osSQL = unescape_loop fuel osSQL.
Proof.
  induction fuel as [| fuel IH]; intros s Hm.
  - destruct s; [done | simpl in Hm; lia].
  - rewrite (unescape_loop_S (S fuel)), (unescape_loop_S fuel).
    destruct (find_char backslash s 0) as [nPos |] eqn:Hf; [| done].
    apply find_char_bounds in Hf.
    destruct (nPos =? String.length s - 1)%nat; [done |].
    apply IH. rewrite length_append, length_substr_to, length_substr_from. lia.
Qed.

Lemma unescape_enough osSQL k :
  unescape_loop (String.length osSQL + k) osSQL = unescape osSQL.
Proof.
  unfold unescape. induction k as [| k IH]; [by rewrite Nat.add_0_r |].
  rewrite Nat.add_succ_r, unescape_loop_fuel; [done | lia].
Qed.

(** From the second character on, the loop does not look at the first
    character of the statement other than to see that it is no backslash:
    two statements that differ in it alone are rewritten alike. *)
Lemma extract_loop_head defn a b :
  a ≠ backslash -> b ≠ backslash ->
  forall fuel t nStartSearch aos an,
    (1 <= nStartSearch)%nat ->
    exists u aos' an',
      extract_loop fuel defn (String a t) nStartSearch aos an
      = mkPlaceholders (String a u) aos' an'
      ∧ extract_loop fuel defn (String b t) nStartSearch aos an
        = mkPlaceholders (String b u) aos' an'.
Proof.
  intros Ha Hb. induction fuel as [| fuel IH]; intros t start aos an Hs.
  - by exists t, aos, an.
  - rewrite !extract_loop_S.
    destruct start as [| n]; [lia |].
    change (find_char "[" (String a t) (S n)) with (S <$> find_char "[" t n).
    change (find_char "[" (String b t) (S n)) with (S <$> find_char "[" t n).
    destruct (find_char "[" t n) as [p |]; simpl fmap; [| by exists t, aos, an].
    cbv beta iota.
    assert (Hc : negb (Ascii.eqb (char_at (String a t) (S p - 1)) backslash)
                 = negb (Ascii.eqb (char_at (String b t) (S p - 1)) backslash)).
    { replace (S p - 1)%nat with p by lia. destruct p as [| p]; [| done].
      unfold char_at; simpl.
      destruct (Ascii.eqb_spec a backslash), (Ascii.eqb_spec b backslash); done. }
    rewrite Hc.
    destruct ((0 <? S p)%nat && negb (Ascii.eqb (char_at (String b t) (S p - 1)) backslash)).
    + replace (S p + 1)%nat with (S (p + 1)) by lia.
      change (substr_from (String a t) (S (p + 1))) with (substr_from t (p + 1)).
      change (substr_from (String b t) (S (p + 1))) with (substr_from t (p + 1)).
      destruct (find_char "]" (substr_from t (p + 1)) 0) as [nPos2 |];
        [| by exists t, aos, an].
      replace (S (p + 1) + nPos2 + 1)%nat with (S (p + 1 + nPos2 + 1)) by lia.
      apply (IH (substr_to t p ++ "?" ++ substr_from t (p + 1 + nPos2 + 1))). lia.
    + apply IH. lia.
Qed.

Lemma unescape_loop_head a b :
  a ≠ backslash -> b ≠ backslash ->
  forall fuel t,
    exists u, unescape_loop fuel (String a t) = String a u
              ∧ unescape_loop fuel (String b t) = String b u.
Proof.
  intros Ha Hb. induction fuel as [| fuel IH]; intros t; [by exists t |].
  rewrite !unescape_loop_S.
  assert (Hf : forall x, x ≠ backslash ->
            find_char backslash (String x t) 0 = S <$> find_char backslash t 0).
  { intros x Hx. simpl. by destruct (Ascii.eqb_spec x backslash). }
  rewrite (Hf a Ha), (Hf b Hb).
  destruct (find_char backslash t 0) as [p |]; simpl fmap; cbv beta iota;
    [| by exists t].
  change (String.length (String a t)) with (S (String.length t)).
  change (String.length (String b t)) with (S (String.length t)).
  destruct (S p =? S (String.length t) - 1)%nat; [by exists t |].
  replace (S p + 1)%nat with (S (p + 1)) by lia.
  apply (IH (substr_to t p ++ substr_from t (p + 1))).
Qed.

(** ** C9: a bracket that opens the expression *)

(** The turn that meets the bracket at position 0 moves on to position 1. *)
Lemma extract_loop_at_0 fuel defn rest aos an :
  extract_loop (S fuel) defn (String "[" rest) 0 aos an
  = extract_loop fuel defn (String "[" rest) 1 aos an.
Proof. reflexivity. Qed.

(** C9: the bracket at position 0 is never a placeholder.  An expression
    that opens with a bracket is rewritten exactly as the same expression
    with any character [c] other than a bracket and a backslash in its first
    place: the same names are bound to the same indices, and the rewritten
    statements (before and after the backslashes are dropped) differ in that
    first character only.  When no other opening bracket follows, the
    expression is kept as it is and nothing is bound. *)
Theorem leading_bracket_is_literal (defn : list OGRFieldDefn) (rest : string)
    (c : ascii) :
  c ≠ "["%char -> c ≠ backslash ->
  (exists u v aos an,
     extract_placeholders defn (String "[" rest) = mkPlaceholders (String "[" u) aos an
     ∧ extract_placeholders defn (String c rest) = mkPlaceholders (String c u) aos an
     ∧ unescape (String "[" u) = String "[" v
     ∧ unescape (String c u) = String c v)
  ∧ (¬ occurs "[" rest ->
     extract_placeholders defn (String "[" rest)
     = mkPlaceholders (String "[" rest) [] []).
Proof.
  intros Hc1 Hc2.
  assert (Hb : "["%char ≠ backslash) by (intros E; discriminate E).
  split.
  - destruct (extract_loop_head defn "[" c Hb Hc2 (S (String.length rest)) rest 1 [] [])
      as (u & aos & an & E1 & E2); [lia |].
    destruct (unescape_loop_head "[" c Hb Hc2 (S (String.length u)) u) as (v & U1 & U2).
    exists u, v, aos, an. repeat split.
    + unfold extract_placeholders.
      change (String.length (String "[" rest)) with (S (String.length rest)).
      rewrite extract_loop_at_0. exact E1.
    + unfold extract_placeholders.
      change (String.length (String c rest)) with (S (String.length rest)).
      rewrite <- E2, <- (extract_loop_fuel defn (S (String.length rest)) (String c rest) 1)
        by (simpl; lia).
      rewrite !(extract_loop_S (S (String.length rest))).
      assert (Hf : find_char "[" (String c rest) 0 = find_char "[" (String c rest) 1).
      { simpl. by destruct (Ascii.eqb_spec c "["). }
      by rewrite Hf.
    + exact U1.
    + exact U2.
  - intros Hno. unfold extract_placeholders.
    change (String.length (String "[" rest)) with (S (String.length rest)).
    rewrite extract_loop_at_0, extract_loop_S.
    change (find_char "[" (String "[" rest) 1) with (S <$> find_char "[" rest 0).
    by rewrite find_char_absent.
Qed.

(** C9 on an expression that opens with the bracketed name and then adds
    the bracketed b: only b is bound, as when an x stands in the first
    place; and the bracketed name alone is kept, with nothing bound. *)
Lemma leading_bracket_witness :
  extract_placeholders [] "[name] + [b]" = mkPlaceholders "[name] + ?" ["b"] [-1]
  ∧ ph_attrs (extract_placeholders [] "[name] + [b]")
    = ph_attrs (extract_placeholders [] "xname] + [b]")
  ∧ extract_placeholders [] "[name]" = mkPlaceholders "[name]" [] [].
Proof.
  assert (H1 : "x"%char ≠ "["%char) by (intros E; discriminate E).
  assert (H2 : "x"%char ≠ backslash) by (intros E; discriminate E).
  split; [vm_compute; reflexivity |]. split.
  - destruct (leading_bracket_is_literal [] "name] + [b]" "x" H1 H2)
      as [(u & v & aos & an & E1 & E2 & _) _].
    change (extract_placeholders [] "[name] + [b]")
      with (extract_placeholders [] (String "[" "name] + [b]")).
    change (extract_placeholders [] "xname] + [b]")
      with (extract_placeholders [] (String "x" "name] + [b]")).
    rewrite E1, E2. reflexivity.
  - apply (leading_bracket_is_literal [] "name]" "x" H1 H2).
    unfold occurs; simpl. intros H. repeat (destruct H as [H | H]; [discriminate H |]).
    exact H.
Defined.

(** Elsewhere a bracket is a placeholder, unless a backslash precedes it. *)
Lemma placeholder_examples :
  extract_placeholders [] "SELECT [a] + [b]" = mkPlaceholders "SELECT ? + ?" ["a"; "b"] [-1; -1]
  ∧ extract_placeholders [] "SELECT '\[a]'" = mkPlaceholders "SELECT '\[a]'" [] []
  ∧ unescape "SELECT '\[a]'" = "SELECT '[a]'".
Proof. repeat split; vm_compute; reflexivity. Qed.

(** The statement of the z_order formula binds its five inputs in the order
    in which lines 693-697 read them, and [layer] once more. *)
Lemma canonical_zorder_binds defn :
  ph_attrs (extract_placeholders defn zorder_sql)
  = ["highway"; "bridge"; "tunnel"; "railway"; "layer"; "layer"].
Proof.
  assert (H : forall fuel s start aos an1 an2,
            ph_attrs (extract_loop fuel defn s start aos an1)
            = ph_attrs (extract_loop fuel [] s start aos an2)).
  { induction fuel as [| fuel IH]; intros s start aos an1 an2; [done |].
    rewrite !extract_loop_S.
    repeat (match goal with |- context [match ?c with _ => _ end] => destruct c end;
            try done). }
  unfold extract_placeholders. rewrite (H _ _ _ _ _ []). vm_compute. reflexivity.
Qed.

(** ** C5: declaring a computed attribute *)

Lemma defn_index_from_spec defn pszName : forall i,
  0 <= i ->
  (pszName ∈ (fd_name <$> defn) -> i <= defn_index_from i defn pszName)
  ∧ (pszName ∉ (fd_name <$> defn) -> defn_index_from i defn pszName = -1).
Proof.
  induction defn as [| d defn IH]; intros i Hi; simpl.
  - split; [intros Hin; by apply elem_of_nil in Hin | done].
  - destruct (String.eqb_spec (fd_name d) pszName) as [E | Hne].
    + split; [lia |]. intros Hn. exfalso. apply Hn. rewrite E. by left.
    + destruct (IH (i + 1)) as [IH1 IH2]; [lia |]. split.
      * intros Hin. apply elem_of_cons in Hin as [E | Hin]; [by subst |].
        specialize (IH1 Hin). lia.
      * intros Hn. apply IH2. intros Hin. apply Hn. by right.
Qed.

(** [GetFieldIndex] answers an index exactly for the names of the fields. *)
Lemma GetFieldIndex_collides defn pszName :
  (OGRFeatureDefn_GetFieldIndex defn pszName >=? 0) = true
  <-> pszName ∈ (fd_name <$> defn).
Proof.
  unfold OGRFeatureDefn_GetFieldIndex.
  destruct (defn_index_from_spec defn pszName 0) as [H1 H2]; [lia |].
  destruct (decide (pszName ∈ (fd_name <$> defn))) as [Hin | Hn].
  - specialize (H1 Hin). split; [done |]. intros _. apply Z.geb_le. lia.
  - rewrite (H2 Hn). split; [done | by intros ?].
Qed.

Section Declaring.
Context `{External}.

(** C5: [AddComputedAttribute] reports an error exactly when the data base
    is not open yet and cannot be opened, or a field of that name exists, or
    the rewritten statement does not compile.  Then it reports one error of
    class CE_Failure (not CE_Fatal) and returns with the layer as it was, so
    that whatever is done next is done on the layer it was before.
    Otherwise the field and the attribute are appended. *)
Theorem declaration_fails_exactly_when (hDB : bool) (L : OGROSMLayer)
    (pszName : string) (eType : OGRFieldType) (pszSQL : string) :
  let r := AddComputedAttribute hDB L pszName eType pszSQL in
  let open_fails := hDB = false ∧ sqlite3_open_v2 = false in
  let collides := pszName ∈ (fd_name <$> m_poFeatureDefn L) in
  let compile_fails :=
    sqlite3_prepare_v2
      (unescape (ph_sql (extract_placeholders (m_poFeatureDefn L) pszSQL))) = false in
  (aca_errors r ≠ [] <-> open_fails ∨ collides ∨ compile_fails)
  ∧ (aca_errors r ≠ [] ->
     aca_layer r = L
     ∧ exists e, aca_errors r = [e] ∧ eErrClass e = CE_Failure)
  ∧ (aca_errors r = [] ->
     m_poFeatureDefn (aca_layer r)
     = (m_poFeatureDefn L ++ [mkFieldDefn pszName eType OFSTNone])%list
     ∧ exists oAttr,
         m_oComputedAttributes (aca_layer r)
         = (m_oComputedAttributes L ++ [oAttr])%list
         ∧ osName oAttr = pszName
         ∧ nIndex oAttr = GetFieldCount (m_poFeatureDefn L)).
Proof.
  intros r open_fails collides compile_fails.
  subst r open_fails collides compile_fails. unfold AddComputedAttribute.
  pose proof (GetFieldIndex_collides (m_poFeatureDefn L) pszName) as Hcol.
  destruct (negb hDB && negb sqlite3_open_v2) eqn:Hopen.
  - (* the data base cannot be opened *)
    apply andb_true_iff in Hopen as [Hd Ho].
    apply negb_true_iff in Hd, Ho. simpl.
    split; [split; [intros _; by left | done] |].
    split; [intros _; split; [done | by exists cannot_open] | done].
  - assert (Hopen' : ¬ (hDB = false ∧ sqlite3_open_v2 = false)).
    { intros [-> Ho]. rewrite Ho in Hopen. discriminate Hopen. }
    destruct (OGRFeatureDefn_GetFieldIndex (m_poFeatureDefn L) pszName >=? 0) eqn:Hidx.
    + (* a field of that name exists *)
      simpl. split; [split; [intros _; right; left; by apply Hcol | done] |].
      split; [intros _; split; [done | by exists same_name] | done].
    + assert (Hfree : pszName ∉ (fd_name <$> m_poFeatureDefn L)).
      { intros Hin. apply Hcol in Hin. congruence. }
      destruct (sqlite3_prepare_v2 _) eqn:Hprep; simpl.
      * (* the attribute is added *)
        split; [split; [done |] |].
        { intros [Ho | [Hc | Hp]]; [by apply Hopen' in Ho | by apply Hfree in Hc |].
          discriminate Hp. }
        split; [done |]. intros _. split; [done |].
        eexists. split; [reflexivity |]. split; [done |].
        simpl. unfold GetFieldCount. rewrite length_app. simpl. lia.
      * (* the statement does not compile *)
        split; [split; [intros _; by right; right | done] |].
        split; [intros _; split; [done | by exists prepare_failed] | done].
Qed.

End Declaring.

(** C5 on [road_layer], which has a field highway: an attribute of that
    name is turned down with one CE_Failure and the layer stays as it is,
    while an attribute of a new name is added as field 2. *)
Lemma declaration_witness :
  aca_layer (@AddComputedAttribute null_rows false road_layer
               "highway" OFTInteger "SELECT 1") = road_layer
  ∧ aca_errors (@AddComputedAttribute null_rows false road_layer
                  "highway" OFTInteger "SELECT 1") = [same_name]
  ∧ (fd_name <$> m_poFeatureDefn
       (aca_layer (@AddComputedAttribute null_rows false road_layer
                     "rank" OFTInteger "SELECT 1")))
    = ["highway"; "name"; "rank"].
Proof.
  destruct (@declaration_fails_exactly_when null_rows false road_layer
              "highway" OFTInteger "SELECT 1") as (Hiff & Hfail & _).
  assert (Herr : aca_errors (@AddComputedAttribute null_rows false road_layer
                               "highway" OFTInteger "SELECT 1") ≠ []).
  { apply Hiff. right. left. vm_compute. by left. }
  destruct (Hfail Herr) as [Hl _].
  split; [exact Hl |]. split; vm_compute; reflexivity.
Defined.

(** ** Fields of a feature *)

Lemma SetField_length f i v : length (fields (SetField f i v)) = length (fields f).
Proof.
  unfold SetField. destruct (0 <=? i); simpl; [apply length_insert | done].
Qed.

Lemma GetRawField_SetField_eq f i v :
  0 <= i < Z.of_nat (length (fields f)) ->
  GetRawField (SetField f i v) i = Some v.
Proof.
  intros Hi. unfold GetRawField, SetField.
  destruct (Z.leb_spec 0 i); [| lia]. simpl.
  rewrite list_lookup_insert_eq by lia. done.
Qed.

Lemma GetRawField_SetField_ne f i j v :
  i ≠ j -> GetRawField (SetField f j v) i = GetRawField f i.
Proof.
  intros Hne. unfold GetRawField, SetField.
  destruct (Z.leb_spec 0 j); [| done]. simpl.
  destruct (Z.leb_spec 0 i); [| done].
  rewrite list_lookup_insert_ne by lia. done.
Qed.

(** ** C8: a tag whose key is a field *)

(** The feature after one tag: the field of the key is written when there is
    one and it is not osm_id; no other field is touched. *)
Lemma project_tag_feature o L f buf t :
  fst (project_tag o L (f, buf) t)
  = if (GetFieldIndex L (pszK t) >=? 0)
       && negb (GetFieldIndex L (pszK t) =? m_nIndexOSMId L)
    then SetField f (GetFieldIndex L (pszK t)) (OFString (pszV t))
    else f.
Proof.
  unfold project_tag.
  repeat (match goal with |- context [if ?c then _ else _] => destruct c end;
          simpl; try done).
Qed.

Lemma project_tags_snoc o L f pre t :
  project_tags o L f (pre ++ [t])%list
  = project_tag o L (project_tags o L f pre) t.
Proof. unfold project_tags. by rewrite fold_left_app. Qed.

Lemma project_tags_app o L f pre post :
  project_tags o L f (pre ++ post)%list
  = fold_left (project_tag o L) post (project_tags o L f pre).
Proof. unfold project_tags. by rewrite fold_left_app. Qed.

Lemma project_tag_length o L st t :
  length (fields (fst (project_tag o L st t))) = length (fields (fst st)).
Proof.
  destruct st as [f buf]. rewrite project_tag_feature. simpl.
  destruct ((GetFieldIndex L (pszK t) >=? 0)
            && negb (GetFieldIndex L (pszK t) =? m_nIndexOSMId L));
    [apply SetField_length | done].
Qed.

Lemma fold_project_length o L tags : forall st,
  length (fields (fst (fold_left (project_tag o L) tags st))) = length (fields (fst st)).
Proof.
  induction tags as [| t tags IH]; intros st; simpl; [done |].
  rewrite IH. apply project_tag_length.
Qed.

(** A tag whose key leads to another field leaves the field [i] as it is. *)
Lemma project_tag_other o L i st t :
  GetFieldIndex L (pszK t) ≠ i ->
  GetRawField (fst (project_tag o L st t)) i = GetRawField (fst st) i.
Proof.
  intros Hne. destruct st as [f buf]. rewrite project_tag_feature. simpl.
  destruct ((GetFieldIndex L (pszK t) >=? 0)
            && negb (GetFieldIndex L (pszK t) =? m_nIndexOSMId L));
    [by apply GetRawField_SetField_ne | done].
Qed.

Lemma fold_project_other o L i tags : forall st,
  Forall (fun t => GetFieldIndex L (pszK t) ≠ i) tags ->
  GetRawField (fst (fold_left (project_tag o L) tags st)) i = GetRawField (fst st) i.
Proof.
  induction tags as [| t tags IH]; intros st Hall; simpl; [done |].
  apply Forall_cons in Hall as [Ht Hall].
  rewrite IH by done. by apply project_tag_other.
Qed.




Lemma schema_ok_fits L :
  schema_ok L -> fits L (OGRFeature_new (m_poFeatureDefn L)).
Proof.
  intros Hok name i Hl. specialize (Hok _ _ Hl).
  unfold OGRFeature_new, GetFieldCount in *. simpl. by rewrite length_replicate.
Qed.


(** ** The buffer of the aggregate *)

Lemma append_nonempty s1 c s2 : s1 ++ String c s2 ≠ "".
Proof. destruct s1; discriminate. Qed.

Lemma escape_hstore_nonempty v sOut : OGROSMEscapeStringHSTORE v sOut ≠ "".
Proof. unfold OGROSMEscapeStringHSTORE. destruct sOut; discriminate. Qed.

Lemma escape_json_nonempty v sOut : OGROSMEscapeStringJSON v sOut ≠ "".
Proof. unfold OGROSMEscapeStringJSON. destruct sOut; discriminate. Qed.

Lemma append_entry_nonempty h buf t : append_entry h buf t ≠ "".
Proof.
  unfold append_entry. destruct h; cbv zeta.
  - apply escape_hstore_nonempty.
  - apply escape_json_nonempty.
Qed.





(** ** C2: the z_order formula *)

Lemma wrap_int_small z : - 2 ^ 31 <= z < 2 ^ 31 -> wrap_int z = z.
Proof. intros Hz. unfold wrap_int. rewrite Z.mod_small; lia. Qed.

Lemma wrap_int_range z : - 2 ^ 31 <= wrap_int z < 2 ^ 31.
Proof.
  unfold wrap_int. pose proof (Z.mod_pos_bound (z + 2 ^ 31) (2 ^ 32) ltac:(lia)). lia.
Qed.

(** An [int] that holds [a] wrapped, plus [b], holds [a + b] wrapped. *)
Lemma wrap_int_add a b : wrap_int (wrap_int a + b) = wrap_int (a + b).
Proof.
  unfold wrap_int. f_equal.
  replace ((a + 2 ^ 31) mod 2 ^ 32 - 2 ^ 31 + b + 2 ^ 31)
    with ((a + 2 ^ 31) mod 2 ^ 32 + b) by lia.
  rewrite Zplus_mod_idemp_l. f_equal. lia.
Qed.

Lemma wrap_int_add_r a b : wrap_int (a + wrap_int b) = wrap_int (a + b).
Proof. by rewrite Z.add_comm, wrap_int_add, Z.add_comm. Qed.

Lemma wrap_int_mul_r a b : wrap_int (a * wrap_int b) = wrap_int (a * b).
Proof.
  unfold wrap_int. f_equal.
  rewrite Z.mul_sub_distr_l.
  replace (a * ((b + 2 ^ 31) mod 2 ^ 32) - a * 2 ^ 31 + 2 ^ 31)
    with (a * ((b + 2 ^ 31) mod 2 ^ 32) + (2 ^ 31 - a * 2 ^ 31)) by lia.
  rewrite <- Zplus_mod_idemp_l, Zmult_mod_idemp_r, Zplus_mod_idemp_l.
  f_equal. lia.
Qed.

(** The chain of comparisons of lines 729-760 is the table. *)
Lemma add_highway_table nZOrder h :
  add_highway nZOrder h
  = if base_score (Some h) =? 0 then nZOrder
    else int_add nZOrder (base_score (Some h)).
Proof.
  unfold add_highway, base_score, highway_table, streq.
  destruct (String.eqb_spec h "minor") as [-> | ?]; [reflexivity |].
  destruct (String.eqb_spec h "road") as [-> | ?]; [reflexivity |].
  destruct (String.eqb_spec h "unclassified") as [-> | ?]; [reflexivity |].
  destruct (String.eqb_spec h "residential") as [-> | ?]; [reflexivity |].
  destruct (String.eqb_spec h "tertiary_link") as [-> | ?]; [reflexivity |].
  destruct (String.eqb_spec h "tertiary") as [-> | ?]; [reflexivity |].
  destruct (String.eqb_spec h "secondary_link") as [-> | ?]; [reflexivity |].
  destruct (String.eqb_spec h "secondary") as [-> | ?]; [reflexivity |].
  destruct (String.eqb_spec h "primary_link") as [-> | ?]; [reflexivity |].
  destruct (String.eqb_spec h "primary") as [-> | ?]; [reflexivity |].
  destruct (String.eqb_spec h "trunk_link") as [-> | ?]; [reflexivity |].
  destruct (String.eqb_spec h "trunk") as [-> | ?]; [reflexivity |].
  destruct (String.eqb_spec h "motorway_link") as [-> | ?]; [reflexivity |].
  destruct (String.eqb_spec h "motorway") as [-> | ?]; [reflexivity |].
  simpl.
  repeat match goal with
         | H : h ≠ ?l |- context [String.eqb h ?l] =>
             rewrite (proj2 (String.eqb_neq h l) H)
         end.
  reflexivity.
Qed.

Lemma is_yes_truthy s : is_yes s = truthy (Some s).
Proof.
  unfold is_yes, truthy, streq.
  destruct (String.eqb_spec s "yes") as [-> | H1]; [reflexivity |].
  destruct (String.eqb_spec s "true") as [-> | H2]; [reflexivity |].
  destruct (String.eqb_spec s "1") as [-> | H3]; [reflexivity |].
  simpl. symmetry. apply bool_decide_eq_false. intros Hin.
  repeat (apply elem_of_cons in Hin as [? | Hin]; [done |]).
  by apply elem_of_nil in Hin.
Qed.

Section ZOrder.
Context `{External}.

(** The five steps of lines 727-831, each on an [int] that holds [e]
    wrapped. *)
Lemma step_highway e h :
  add_highway (wrap_int e) h = wrap_int (e + base_score (Some h)).
Proof.
  rewrite add_highway_table.
  destruct (Z.eqb_spec (base_score (Some h)) 0) as [-> | _].
  - by rewrite Z.add_0_r.
  - unfold int_add. apply wrap_int_add.
Qed.

Lemma step_yes e s k :
  (if is_yes s then int_add (wrap_int e) k else wrap_int e)
  = wrap_int (e + if truthy (Some s) then k else 0).
Proof.
  rewrite is_yes_truthy. destruct (truthy (Some s)).
  - unfold int_add. apply wrap_int_add.
  - by rewrite Z.add_0_r.
Qed.

Lemma step_tunnel e s :
  (if is_yes s then int_sub (wrap_int e) 10 else wrap_int e)
  = wrap_int (e - if truthy (Some s) then 10 else 0).
Proof.
  rewrite is_yes_truthy. destruct (truthy (Some s)).
  - unfold int_sub. rewrite <- !Z.add_opp_r. apply wrap_int_add.
  - by rewrite Z.sub_0_r.
Qed.

(** A number whose tenfold is an [int] is read by [atoi] as it is
    written. *)
Lemma atoi_small l :
  - 2 ^ 31 <= 10 * parse_int l < 2 ^ 31 -> atoi l = parse_int l.
Proof.
  intros Hl. unfold atoi, strtol, LONG_MIN, LONG_MAX.
  rewrite Z.min_r, Z.max_r by lia. apply wrap_int_small. lia.
Qed.

(** Beyond the range of [long] the number is cut to LONG_MAX or LONG_MIN
    before it becomes an [int]; within it, only its low 32 bits are kept. *)
Lemma atoi_saturates :
  atoi "99999999999999999999" = -1
  ∧ atoi "-99999999999999999999" = 0
  ∧ atoi "4294967297" = 1.
Proof. repeat split; vm_compute; reflexivity. Qed.

Lemma step_layer e l :
  - 2 ^ 31 <= 10 * parse_int l < 2 ^ 31 ->
  int_add (wrap_int e) (int_mul 10 (atoi l)) = wrap_int (e + 10 * parse_int l).
Proof.
  intros Hl. rewrite atoi_small by done. unfold int_add, int_mul.
  by rewrite wrap_int_add, wrap_int_add_r.
Qed.

Lemma step_add e k : int_add (wrap_int e) k = wrap_int (e + k).
Proof. unfold int_add. apply wrap_int_add. Qed.

(** Lines 699-831 on five inputs that were read already, for a layer
    number whose tenfold is an [int]. *)
Lemma zorder_chain (highway bridge tunnel railway layer : option string) :
  (forall l, layer = Some l -> - 2 ^ 31 <= 10 * parse_int l < 2 ^ 31) ->
  (let nZOrder := 0 in
   let nZOrder :=
     match highway with
     | Some pszHighway => add_highway nZOrder pszHighway
     | None => nZOrder
     end in
   let nZOrder :=
     match bridge with
     | Some pszBridge => if is_yes pszBridge then int_add nZOrder 10 else nZOrder
     | None => nZOrder
     end in
   let nZOrder :=
     match tunnel with
     | Some pszTunnel => if is_yes pszTunnel then int_sub nZOrder 10 else nZOrder
     | None => nZOrder
     end in
   let nZOrder :=
     match railway with
     | Some _ => int_add nZOrder 5
     | None => nZOrder
     end in
   match layer with
   | Some pszLayer => int_add nZOrder (int_mul 10 (atoi pszLayer))
   | None => nZOrder
   end)
  = wrap_int (zorder_formula highway bridge tunnel railway layer).
Proof.
  intros Hl.
  destruct highway as [h |], bridge as [b |], tunnel as [t |], railway as [r |],
    layer as [l |];
    change 0 with (wrap_int 0); cbv zeta;
    repeat first [ rewrite step_highway | rewrite step_yes | rewrite step_tunnel
                 | rewrite step_layer by (by apply Hl) | rewrite step_add ];
    f_equal; unfold zorder_formula;
    change (base_score None) with 0; change (truthy None) with false;
    cbv iota; lia.
Qed.

(** The code reads an input as the corrected C2 words it. *)
Lemma zorder_input_declared f pasTags nIdx key :
  zorder_input f pasTags nIdx key = declared_input f pasTags nIdx key.
Proof.
  unfold zorder_input, declared_input.
  destruct (Z.geb_spec nIdx 0), (Z.ltb_spec nIdx 0); try lia; [| done].
  by destruct (GetRawField f nIdx).
Qed.

(** Where C2 as it is worded reads the same input: without a declared
    field, or with a declared field that is set. *)
Lemma claimed_input_declared f pasTags nIdx key :
  (0 <= nIdx -> IsFieldSetAndNotNull f nIdx = true) ->
  claimed_input f pasTags nIdx key = declared_input f pasTags nIdx key.
Proof.
  intros Hset. unfold claimed_input, declared_input.
  destruct (Z.geb_spec nIdx 0), (Z.ltb_spec nIdx 0); try lia; [| done].
  by rewrite Hset by done.
Qed.

(** C2, as the code has it.  Each input is read from the field that is
    declared for it, and is absent when that field is unset (the tags are
    not looked at then); it is read from the first tag of its key only when
    no field is declared.  When ten times the layer number and the value of
    the formula are within the range of [int], the fast path computes the
    formula of the table on these inputs, and stores it in the field of the
    attribute.  It is the formula on the inputs as C2 words them whenever
    every field that is declared for an input is set. *)
Theorem zorder_is_formula (L : OGROSMLayer) (oAttr : OGROSMComputedAttribute)
    (f : OGRFeature) (pasTags : list OSMTag) :
  let nIdx := fun i => vec_at (anIndexToBind oAttr) i in
  let input := fun i key => declared_input f pasTags (nIdx i) key in
  let exact := zorder_formula (input 0%nat "highway") (input 1%nat "bridge")
                 (input 2%nat "tunnel") (input 3%nat "railway") (input 4%nat "layer") in
  (forall l, input 4%nat "layer" = Some l -> - 2 ^ 31 <= 10 * parse_int l < 2 ^ 31) ->
  - 2 ^ 31 <= exact < 2 ^ 31 ->
  HardcodedZOrder oAttr f pasTags = exact
  ∧ (bHardcodedZOrder oAttr = true ->
     eval_attribute L pasTags oAttr f
     = (SetField f (nIndex oAttr) (OFInteger exact), oAttr))
  ∧ ((forall i, (i < 5)%nat -> 0 <= nIdx i -> IsFieldSetAndNotNull f (nIdx i) = true) ->
     exact
     = zorder_formula (claimed_input f pasTags (nIdx 0%nat) "highway")
                      (claimed_input f pasTags (nIdx 1%nat) "bridge")
                      (claimed_input f pasTags (nIdx 2%nat) "tunnel")
                      (claimed_input f pasTags (nIdx 3%nat) "railway")
                      (claimed_input f pasTags (nIdx 4%nat) "layer")).
Proof.
  intros nIdx input exact Hlayer Hrange.
  assert (Hval : HardcodedZOrder oAttr f pasTags = exact).
  { unfold HardcodedZOrder. cbv zeta. rewrite !zorder_input_declared.
    fold (nIdx 0%nat) (nIdx 1%nat) (nIdx 2%nat) (nIdx 3%nat) (nIdx 4%nat).
    fold (input 0%nat "highway") (input 1%nat "bridge") (input 2%nat "tunnel")
         (input 3%nat "railway") (input 4%nat "layer").
    pose proof (zorder_chain (input 0%nat "highway") (input 1%nat "bridge")
                  (input 2%nat "tunnel") (input 3%nat "railway")
                  (input 4%nat "layer") Hlayer) as Hc.
    cbv zeta in Hc. rewrite Hc. by apply wrap_int_small. }
  split; [exact Hval |]. split.
  - intros Hb. unfold eval_attribute. by rewrite Hb, Hval.
  - intros Hset. subst exact input.
    by rewrite !claimed_input_declared by (apply Hset; lia).
Qed.

End ZOrder.

Lemma zorder_layer_attributes : m_oComputedAttributes zorder_layer = [zorder_attribute].
Proof. vm_compute. reflexivity. Qed.

(** C2 on highway=motorway, bridge=yes, layer=2, read from the tags:
    9 + 10 + 20 = 39. *)
Lemma zorder_is_formula_witness :
  @HardcodedZOrder null_rows zorder_attribute
     (OGRFeature_new (m_poFeatureDefn zorder_layer)) motorway_bridge = 39
  ∧ GetRawField
      (fst (@SetFieldsFromTags null_rows plain_options zorder_layer
              (OGRFeature_new (m_poFeatureDefn zorder_layer)) 7 false
              motorway_bridge no_info)) 0
    = Some (OFInteger 39).
Proof.
  split.
  - destruct (@zorder_is_formula null_rows zorder_layer zorder_attribute
                (OGRFeature_new (m_poFeatureDefn zorder_layer)) motorway_bridge)
      as (Hexact & _).
    + intros l Hl. vm_compute in Hl. injection Hl as <-.
      vm_compute. split; [discriminate | reflexivity].
    + vm_compute. split; [discriminate | reflexivity].
    + rewrite Hexact. vm_compute. reflexivity.
  - vm_compute. reflexivity.
Defined.

(** C2 as it is worded fails.  In [shadowed_layer] the input bridge of
    z_order is bound to field 0, the computed attribute bridge, which is
    unset when z_order is evaluated; the entity has the tag bridge=yes.  The
    code reads no bridge and stores 0; read as C2 words it (the field when
    declared and set, else the tag), the input would be yes and the value
    10.  And for the tag layer=4294967296, ten times which is no [int], the
    code stores 0, not the formula. *)
Lemma zorder_ignores_tag_behind_unset_field :
  let tags := [mkTag "bridge" "yes"] in
  let f := SetFID (OGRFeature_new (m_poFeatureDefn shadowed_layer)) 7 in
  (anIndexToBind <$> (m_oComputedAttributes shadowed_layer !! 1%nat))
  = Some [-1; 0; -1; -1; -1; -1]
  ∧ GetRawField
      (fst (@SetFieldsFromTags null_rows plain_options shadowed_layer
              (OGRFeature_new (m_poFeatureDefn shadowed_layer)) 7 false tags no_info)) 1
    = Some (OFInteger 0)
  ∧ GetRawField f 0 = None
  ∧ @claimed_input null_rows f tags 0 "bridge" = Some "yes"
  ∧ zorder_formula (@claimed_input null_rows f tags (-1) "highway")
                   (@claimed_input null_rows f tags 0 "bridge")
                   (@claimed_input null_rows f tags (-1) "tunnel")
                   (@claimed_input null_rows f tags (-1) "railway")
                   (@claimed_input null_rows f tags (-1) "layer") = 10
  ∧ (forall oAttr, m_oComputedAttributes shadowed_layer !! 1%nat = Some oAttr ->
       @HardcodedZOrder null_rows oAttr f tags
       ≠ zorder_formula (@claimed_input null_rows f tags (vec_at (anIndexToBind oAttr) 0) "highway")
                        (@claimed_input null_rows f tags (vec_at (anIndexToBind oAttr) 1) "bridge")
                        (@claimed_input null_rows f tags (vec_at (anIndexToBind oAttr) 2) "tunnel")
                        (@claimed_input null_rows f tags (vec_at (anIndexToBind oAttr) 3) "railway")
                        (@claimed_input null_rows f tags (vec_at (anIndexToBind oAttr) 4) "layer"))
  ∧ GetRawField
      (fst (@SetFieldsFromTags null_rows plain_options zorder_layer
              (OGRFeature_new (m_poFeatureDefn zorder_layer)) 7 false
              [mkTag "layer" "4294967296"] no_info)) 0
    = Some (OFInteger 0)
  ∧ zorder_formula None None None None (Some "4294967296") = 42949672960.
Proof.
  cbv zeta.
  split; [vm_compute; reflexivity |]. split; [vm_compute; reflexivity |].
  split; [vm_compute; reflexivity |]. split; [vm_compute; reflexivity |].
  split; [vm_compute; reflexivity |].
  split; [| split; vm_compute; reflexivity].
  intros oAttr Hl. vm_compute in Hl. injection Hl as <-. vm_compute. discriminate.
Qed.

(** ** C6: the result of a statement *)

Section General.
Context `{External}.

Lemma bind_all_sql L f pasTags an : forall j aos st,
  stmt_sql (bind_all L f pasTags j an aos st) = stmt_sql st.
Proof.
  induction an as [| idx an IH]; intros j aos st; simpl; [done |].
  rewrite IH. unfold sqlite3_bind. by destruct (stmt_busy st).
Qed.

(** On a statement that was reset, the loop of lines 838-888 binds, for
    every [j], the value of parameter [j + 1] that the entity gives. *)
Lemma bind_all_bound L f pasTags an : forall j aos st k idx,
  stmt_busy st = false ->
  an !! k = Some idx ->
  stmt_bound (bind_all L f pasTags j an aos st) !! (j + k + 1)%nat
  = Some (bound_value L f pasTags idx (hd "" (drop k aos))).
Proof.
  induction an as [| idx0 an IH]; intros j aos st k idx Hb Hk; [done |].
  assert (Hkeep : forall an' j' aos' st' i,
            (i < j' + 1)%nat -> stmt_busy st' = false ->
            stmt_bound (bind_all L f pasTags j' an' aos' st') !! i
            = stmt_bound st' !! i).
  { clear. induction an' as [| idx an' IH']; intros j' aos' st' i Hi Hb; simpl; [done |].
    rewrite IH' by (unfold sqlite3_bind; rewrite ?Hb; simpl; (lia || done)).
    unfold sqlite3_bind. rewrite Hb. simpl. by rewrite lookup_insert_ne by lia. }
  destruct k as [| k]; simpl in *.
  - injection Hk as ->. rewrite Nat.add_0_r.
    rewrite Hkeep by (unfold sqlite3_bind; rewrite ?Hb; simpl; (lia || done)).
    unfold sqlite3_bind. rewrite Hb. simpl. by rewrite lookup_insert_eq.
  - replace (j + S k + 1)%nat with (S j + k + 1)%nat by lia.
    rewrite (IH (S j) (tl aos) _ k idx);
      [| unfold sqlite3_bind; by rewrite Hb | done].
    destruct aos; simpl; by rewrite ?drop_nil.
Qed.

Lemma eval_general_reset L oAttr f pasTags :
  stmt_busy (hStmt (snd (eval_general L oAttr f pasTags))) = false.
Proof. reflexivity. Qed.

(** After the loop of line 688, no statement that went through SQLite is
    left stepped. *)
Lemma eval_attributes_reset L pasTags attrs : forall f,
  Forall (fun a => bHardcodedZOrder a = false -> stmt_busy (hStmt a) = false)
         (snd (eval_attributes L pasTags attrs f)).
Proof.
  induction attrs as [| oAttr attrs IH]; intros f; simpl; [constructor |].
  destruct (eval_attribute L pasTags oAttr f) as [f1 oAttr1] eqn:E1.
  specialize (IH f1).
  destruct (eval_attributes L pasTags attrs f1) as [f2 attrs2]. simpl in *.
  constructor; [| done]. intros Hb.
  unfold eval_attribute in E1. destruct (bHardcodedZOrder oAttr) eqn:Hh.
  - injection E1 as _ <-. congruence.
  - rewrite <- (eval_general_reset L oAttr f pasTags). by rewrite E1.
Qed.

(** C6: for an attribute that goes through SQLite, let [r] be what
    [sqlite3_step] answers on the statement with the values of the entity
    bound.  If [r] is a row of one column that is an integer, a float or a
    text, that value is stored in the field of the attribute, through the
    setter of its SQLite type; if [r] is no row, or a row of another number
    of columns, the record is left as it was (so a field that was unset is
    unset), as it is for a column that is NULL or a blob; and the statement
    is reset in every case, here and for every such attribute of
    [SetFieldsFromTags], so that the next evaluation binds to every
    parameter the value that its own entity gives. *)
Theorem general_path_stores_by_type (o : OSMOptions) (L : OGROSMLayer)
    (oAttr : OGROSMComputedAttribute) (f : OGRFeature) (pasTags : list OSMTag) :
  let st := bind_all L f pasTags 0 (anIndexToBind oAttr) (aosAttrToBind oAttr)
                     (hStmt oAttr) in
  let r := sqlite3_step (stmt_sql st) (stmt_bound st) in
  let f' := fst (eval_general L oAttr f pasTags) in
  let stored := fun v =>
    f' = SetField f (nIndex oAttr) v
    ∧ (0 <= nIndex oAttr < Z.of_nat (length (fields f)) ->
       GetRawField f' (nIndex oAttr) = Some v) in
  (forall n, r = SQLITE_ROW [SQLITE_INTEGER n] -> stored (OFInteger64 n))
  ∧ (forall d, r = SQLITE_ROW [SQLITE_FLOAT d] -> stored (OFReal d))
  ∧ (forall s, r = SQLITE_ROW [SQLITE_TEXT s] -> stored (OFString s))
  ∧ (r = SQLITE_DONE -> f' = f)
  ∧ (forall columns, r = SQLITE_ROW columns -> length columns ≠ 1%nat -> f' = f)
  ∧ (r = SQLITE_ROW [SQLITE_NULL] ∨ r = SQLITE_ROW [SQLITE_BLOB] -> f' = f)
  ∧ stmt_busy (hStmt (snd (eval_general L oAttr f pasTags))) = false
  ∧ (forall f2 pasTags2 k idx,
       anIndexToBind oAttr !! k = Some idx ->
       let oAttr' := snd (eval_general L oAttr f pasTags) in
       stmt_bound (bind_all L f2 pasTags2 0 (anIndexToBind oAttr')
                            (aosAttrToBind oAttr') (hStmt oAttr')) !! (k + 1)%nat
       = Some (bound_value L f2 pasTags2 idx (hd "" (drop k (aosAttrToBind oAttr)))))
  ∧ (forall poFeature nID bIsWayID psInfo,
       Forall (fun a => bHardcodedZOrder a = false -> stmt_busy (hStmt a) = false)
              (m_oComputedAttributes
                 (snd (SetFieldsFromTags o L poFeature nID bIsWayID pasTags psInfo)))).
Proof.
  intros st r f' stored.
  assert (Hf : f' = store_result oAttr f r) by reflexivity.
  assert (Hs : forall v, f' = SetField f (nIndex oAttr) v -> stored v).
  { intros v E. split; [exact E |]. intros Hi. rewrite E.
    by apply GetRawField_SetField_eq. }
  split; [| split; [| split; [| split; [| split; [| split; [| split; [| split]]]]]]].
  - intros n E. apply Hs. by rewrite Hf, E.
  - intros d E. apply Hs. by rewrite Hf, E.
  - intros s E. apply Hs. by rewrite Hf, E.
  - intros E. by rewrite Hf, E.
  - intros columns E Hlen. rewrite Hf, E.
    destruct columns as [| v [| w columns]]; simpl in *; try done.
    by destruct v.
  - intros [E | E]; by rewrite Hf, E.
  - reflexivity.
  - intros f2 pasTags2 k idx Hk oAttr'.
    apply (bind_all_bound L f2 pasTags2 (anIndexToBind oAttr) 0
             (aosAttrToBind oAttr) (hStmt oAttr') k idx); [reflexivity | exact Hk].
  - intros poFeature nID bIsWayID psInfo. unfold SetFieldsFromTags.
    destruct (store_aggregate o L _) as [f1 buf].
    pose proof (eval_attributes_reset L pasTags (m_oComputedAttributes L) f1) as Hr.
    destruct (eval_attributes L pasTags (m_oComputedAttributes L) f1) as [f2 attrs].
    exact Hr.
Qed.

End General.

Lemma sum_layer_attributes : m_oComputedAttributes sum_layer = [sum_attribute].
Proof. vm_compute. reflexivity. Qed.

(** C6 on the round-trip example of the specification: with a = 3 and
    b = 4 the statement of total yields the integer 7, which is stored. *)
Lemma general_path_witness :
  GetRawField
    (fst (@eval_general adding_engine sum_layer sum_attribute
            (mkFeature 1 [Some (OFInteger 3); Some (OFInteger 4); None]) []))
    2
  = Some (OFInteger64 7)
  ∧ fields (fst (@SetFieldsFromTags adding_engine plain_options sum_layer
                   (OGRFeature_new (m_poFeatureDefn sum_layer)) 1 false
                   [mkTag "a" "3"; mkTag "b" "4"] no_info))
    = [Some (OFString "3"); Some (OFString "4"); Some (OFInteger64 7)].
Proof.
  split.
  - destruct (@general_path_stores_by_type adding_engine plain_options sum_layer
                sum_attribute
                (mkFeature 1 [Some (OFInteger 3); Some (OFInteger 4); None]) [])
      as (Hint & _).
    apply (Hint 7); [vm_compute; reflexivity |].
    vm_compute. split; [discriminate | reflexivity].
  - vm_compute. reflexivity.
Defined.

(** * Further properties of the code *)

(** ** AddFeature and AddToArray *)

Lemma passes_filters_bool L f already :
  passes_filters L f already
  <-> negb (m_bUserInterested L) = false
      ∧ (match m_poFilterGeom L with Some g => g f | None => true end
         && match m_poAttrQuery L with Some q => already || q f | None => true end)
        = true.
Proof.
  unfold passes_filters. split.
  - intros (Hi & Hg & Hq). rewrite Hi. split; [done |].
    apply andb_true_iff. split.
    + destruct (m_poFilterGeom L) as [g |]; [by apply Hg | done].
    + destruct (m_poAttrQuery L) as [q |]; [| done].
      apply orb_true_iff. by apply Hq.
  - intros [Hi Ht]. apply negb_false_iff in Hi.
    apply andb_true_iff in Ht as [Hg Hq]. split; [done |]. split.
    + intros g Eg. by rewrite Eg in Hg.
    + intros q Eq. rewrite Eq in Hq. by apply orb_true_iff in Hq.
Qed.

(** X1: [AddFeature] puts the feature at the end of the array exactly when
    the layer wants it, the array has room and [push_back] does not throw;
    it then reports "not filtered out" and returns true.  It returns false
    exactly when the layer wants the feature and [AddToArray] turns it down;
    a feature that the layer does not want is reported as filtered out with
    true returned; and in every case but the first the array is as it was. *)
Theorem AddFeature_outcomes (L : LayerBuffer) (f : OGRFeature)
    (already chk bad : bool) :
  let a := AddFeature L f already chk bad in
  (add_filtered_out a = Some false
   <-> passes_filters L f already ∧ has_room L chk ∧ bad = false)
  ∧ (add_filtered_out a = Some false ->
     add_ok a = true ∧ add_errors a = []
     ∧ m_apoFeatures (add_layer a) = (m_apoFeatures L ++ [Some f])%list)
  ∧ (add_ok a = false
     <-> passes_filters L f already ∧ ¬ (has_room L chk ∧ bad = false))
  ∧ (add_filtered_out a = Some true <-> ¬ passes_filters L f already)
  ∧ (add_filtered_out a = Some true -> add_ok a = true ∧ add_layer a = L)
  ∧ (add_filtered_out a ≠ Some false ->
     m_apoFeatures (add_layer a) = m_apoFeatures L
     ∧ m_nFeatureArrayIndex (add_layer a) = m_nFeatureArrayIndex L).
Proof.
  intros a. subst a.
  pose proof (passes_filters_bool L f already) as Hbool.
  assert (Hcase :
    (¬ passes_filters L f already
     ∧ AddFeature L f already chk bad = mkAddResult true (Some true) L [])
    ∨ (passes_filters L f already
       ∧ AddFeature L f already chk bad
         = match AddToArray L f chk bad with
           | (false, L', errs) => mkAddResult false None L' errs
           | (true, L', errs) => mkAddResult true (Some false) L' errs
           end)).
  { unfold AddFeature.
    destruct (negb (m_bUserInterested L)) eqn:E1.
    - left. split; [| done]. intros Hp. apply Hbool in Hp as [? _]. congruence.
    - destruct (match m_poFilterGeom L with Some g => g f | None => true end
                && match m_poAttrQuery L with Some q => already || q f | None => true end)
        eqn:E2.
      + right. split; [by apply Hbool | done].
      + left. split; [| done]. intros Hp. apply Hbool in Hp as [_ ?]. congruence. }
  destruct Hcase as [[Hp E] | [Hp E]]; rewrite E; simpl.
  - intuition congruence.
  - destruct (AddToArray_cases L f chk bad)
      as [(Hc & Hgt & E1 & E2) | [(Hr & Hb & E1) | (Hr & Hb & E1)]].
    + assert (Hroom : ¬ has_room L chk).
      { unfold has_room. intros [Hf | Hle]; [congruence | lia]. }
      destruct (AddToArray L f chk bad) as [[b L'] errs]. simpl in E1, E2. subst b L'.
      simpl. intuition congruence.
    + rewrite E1. simpl. intuition congruence.
    + rewrite E1. simpl. unfold has_room. intuition congruence.
Qed.

(** X1 on a layer whose spatial filter lets nothing through: the feature is
    reported as filtered out and the array stays empty. *)
Lemma AddFeature_outcomes_example :
  add_filtered_out (AddFeature closed_buffer feature1 false true false) = Some true
  ∧ m_apoFeatures (add_layer (AddFeature closed_buffer feature1 false true false)) = [].
Proof.
  destruct (AddFeature_outcomes closed_buffer feature1 false true false)
    as (_ & _ & _ & Hout & Hkeep & _).
  assert (Hf : add_filtered_out (AddFeature closed_buffer feature1 false true false)
               = Some true).
  { apply Hout. intros (_ & Hg & _). specialize (Hg _ eq_refl). discriminate Hg. }
  split; [exact Hf |]. destruct (Hkeep Hf) as [_ ->]. reflexivity.
Defined.

Lemma warnings_values :
  warnings [] = 0%nat ∧ warnings [too_many_features] = 1%nat
  ∧ warnings [cannot_resize] = 0%nat.
Proof. repeat split; vm_compute; reflexivity. Qed.

Lemma AddFeature_warned L f already chk bad :
  let a := AddFeature L f already chk bad in
  (m_bHasWarnedTooManyFeatures L = true ->
   m_bHasWarnedTooManyFeatures (add_layer a) = true ∧ warnings (add_errors a) = 0%nat)
  ∧ (warnings (add_errors a) <= 1)%nat
  ∧ (warnings (add_errors a) = 1%nat ->
     m_bHasWarnedTooManyFeatures (add_layer a) = true).
Proof.
  destruct warnings_values as (W0 & W1 & W2).
  unfold AddFeature, AddToArray.
  destruct (negb (m_bUserInterested L)); cbn [add_layer add_errors];
    [rewrite W0; repeat split; (done || lia) |].
  match goal with |- context [if ?c && ?d then _ else _] => destruct (c && d) end;
    cbn [add_layer add_errors]; [| rewrite W0; repeat split; (done || lia)].
  destruct (chk && (size (m_apoFeatures L) >? MAX_THRESHOLD)); cbn [add_layer add_errors].
  - destruct (m_bHasWarnedTooManyFeatures L); cbn [add_layer add_errors];
      rewrite ?W0, ?W1; repeat split; (done || lia).
  - destruct bad; cbn [add_layer add_errors]; rewrite ?W0, ?W2;
      repeat split; (done || lia).
Qed.

Lemma warnings_app e1 e2 : warnings (e1 ++ e2)%list = (warnings e1 + warnings e2)%nat.
Proof. unfold warnings. by rewrite filter_app, length_app. Qed.

Lemma add_all_warned calls : forall L,
  m_bHasWarnedTooManyFeatures L = true -> warnings (snd (add_all L calls)) = 0%nat.
Proof.
  induction calls as [| [[[f already] chk] bad] calls IH]; intros L Hw; simpl; [done |].
  destruct (AddFeature_warned L f already chk bad) as (H1 & _ & _).
  destruct (H1 Hw) as [Hw' H0].
  specialize (IH _ Hw').
  destruct (add_all (add_layer (AddFeature L f already chk bad)) calls) as [L' errs].
  simpl in *. rewrite warnings_app. lia.
Qed.

(** X2: whatever features are added to a layer, in whatever order and with
    whatever arguments, the error "Too many features have accumulated" is
    reported at most once, and not at all for a layer that has reported it
    before. *)
Theorem too_many_features_reported_once (L : LayerBuffer) (calls : list AddArgs) :
  (warnings (snd (add_all L calls)) <= 1)%nat
  ∧ (m_bHasWarnedTooManyFeatures L = true -> warnings (snd (add_all L calls)) = 0%nat).
Proof.
  split; [| apply add_all_warned].
  revert L. induction calls as [| [[[f already] chk] bad] calls IH]; intros L; simpl.
  - unfold warnings. simpl. lia.
  - destruct (AddFeature_warned L f already chk bad) as (_ & Hle & H1).
    pose proof (IH (add_layer (AddFeature L f already chk bad))) as IH'.
    pose proof (add_all_warned calls (add_layer (AddFeature L f already chk bad))) as Hz.
    destruct (add_all (add_layer (AddFeature L f already chk bad)) calls) as [L' errs].
    simpl in *. rewrite warnings_app.
    destruct (decide (warnings (add_errors (AddFeature L f already chk bad)) = 1%nat))
      as [E | Hne].
    + rewrite (Hz (H1 E)). lia.
    + lia.
Qed.

(** ** MyGetNextFeature: the other branches *)

Lemma cursor_ok_reset_allowed L b : cursor_ok L -> cursor_ok (set_reset_allowed L b).
Proof. done. Qed.

Lemma nonempty_pending L :
  cursor_ok L -> m_apoFeatures L ≠ [] -> exists s q, pending L = s :: q.
Proof.
  intros Hc Hne. destruct (pending L) as [| s q] eqn:Hp; [| by eauto].
  by destruct (drained_is_reset L Hc Hp).
Qed.

Lemma pending_nonempty_array L s q : pending L = s :: q -> m_apoFeatures L ≠ [].
Proof. unfold pending. intros Hp E. rewrite E, drop_nil in Hp. discriminate Hp. Qed.

Lemma is_empty_lookup ds this L :
  m_apoLayers ds !! this = Some L ->
  is_empty ds this = bool_decide (m_apoFeatures L = []).
Proof. unfold is_empty. by intros ->. Qed.

(** The data source once line 183 has run for layer [this]. *)
Lemma touched_lookup ds this L :
  m_apoLayers ds !! this = Some L ->
  alter (fun L => set_reset_allowed L true) this (m_apoLayers ds) !! this
  = Some (set_reset_allowed L true).
Proof. intros Hl. by rewrite list_lookup_alter_eq, Hl. Qed.

(** X3: a layer that has features waiting hands over the first of them,
    whatever the mode and whichever layer is current: [ParseNextChunk] is
    not called, the layer written to ppoNewCurLayer is the current layer as
    it was, the rest of the layer's features keep waiting in their order,
    and the other layers are untouched. *)
Theorem waiting_feature_is_handed_over (fuel : nat) (ds : OGROSMDataSource)
    (this : nat) (L : LayerBuffer) (s : option OGRFeature)
    (q : list (option OGRFeature)) :
  m_apoLayers ds !! this = Some L -> cursor_ok L -> pending L = s :: q ->
  exists r L',
    MyGetNextFeature fuel ds this = Some r
    ∧ is_Some s ∧ poFeature_of r = s
    ∧ ppoNewCurLayer_of r = m_poCurrentLayer ds
    ∧ m_stream (ds_of r) = m_stream ds
    ∧ m_nChunkCalls (ds_of r) = m_nChunkCalls ds
    ∧ m_apoLayers (ds_of r) !! this = Some L'
    ∧ pending L' = q ∧ cursor_ok L'
    ∧ m_bResetReadingAllowed L' = true
    ∧ (forall k, k ≠ this -> m_apoLayers (ds_of r) !! k = m_apoLayers ds !! k).
Proof.
  intros Hl Hc Hp.
  set (L1 := set_reset_allowed L true).
  assert (Hc1 : cursor_ok L1) by done.
  assert (Hp1 : pending L1 = s :: q) by done.
  destruct (TakeNext_fifo L1 s q Hc1 Hp1) as (Hs & Ef & Eq & Hc').
  assert (Hreset : m_bResetReadingAllowed (snd (TakeNext L1)) = true).
  { unfold TakeNext. destruct (m_apoFeatures L1 !! m_nFeatureArrayIndex L1); [| done].
    cbv zeta. by destruct (_ =? _)%nat. }
  pose proof (pending_nonempty_array L s q Hp) as Hne.
  pose proof (lookup_lt_Some _ _ _ Hl) as Hlt.
  exists (take_from (set_layers ds (alter (fun L => set_reset_allowed L true) this
                                         (m_apoLayers ds))) this (m_poCurrentLayer ds)),
         (snd (TakeNext L1)).
  split.
  { unfold MyGetNextFeature. cbv zeta.
    rewrite (is_empty_lookup _ this L1) by (simpl; by apply touched_lookup).
    by rewrite bool_decide_eq_false_2. }
  unfold take_from. simpl. rewrite (touched_lookup ds this L Hl). fold L1.
  destruct (TakeNext L1) as [s' L'] eqn:ET. simpl in *. subst s'.
  do 5 (split; [done |]).
  split; [rewrite list_lookup_insert_eq; [done | by rewrite length_alter] |].
  do 3 (split; [done |]).
  intros k Hk. by rewrite list_lookup_insert_ne, list_lookup_alter_ne.
Qed.

(** X3 in interleaved mode, on a layer that is not the current one, while
    the current one is over SWITCH_THRESHOLD: the layer still hands over its
    first feature and the current layer stays. *)
Lemma waiting_feature_witness :
  exists r,
    MyGetNextFeature 0 fed_ds 0 = Some r
    ∧ poFeature_of r = Some feature1
    ∧ ppoNewCurLayer_of r = Some 1%nat
    ∧ m_nChunkCalls (ds_of r) = 0%nat.
Proof.
  assert (Hc : cursor_ok two_features).
  { split; [left; simpl; lia |]. unfold pending; simpl. repeat constructor; eauto. }
  destruct (waiting_feature_is_handed_over 0 fed_ds 0 two_features
              (Some feature1) [Some feature2] eq_refl Hc eq_refl)
    as (r & L' & Hr & _ & Hf & Hcur & _ & Hn & _).
  exists r. repeat split; assumption.
Defined.

(** X4: in interleaved mode, a layer that has nothing waiting while another
    layer is current gets no feature and no parsing: the layer written to
    ppoNewCurLayer is that other layer, and the stream and all the arrays
    are as they were. *)
Theorem other_layer_is_current (fuel : nat) (ds : OGROSMDataSource)
    (this c : nat) (L : LayerBuffer) :
  m_bInterleavedReading ds = true ->
  m_poCurrentLayer ds = Some c -> c ≠ this ->
  m_apoLayers ds !! this = Some L -> m_apoFeatures L = [] ->
  exists r,
    MyGetNextFeature fuel ds this = Some r
    ∧ poFeature_of r = None
    ∧ ppoNewCurLayer_of r = Some c
    ∧ m_stream (ds_of r) = m_stream ds
    ∧ m_nChunkCalls (ds_of r) = m_nChunkCalls ds
    ∧ (forall k, m_apoFeatures <$> (m_apoLayers (ds_of r) !! k)
                 = m_apoFeatures <$> (m_apoLayers ds !! k))
    ∧ (m_poCurrentLayer <$> (snd <$> GetNextFeature fuel ds this)) = Some (Some c).
Proof.
  intros Hint Hcur Hne Hl He.
  assert (Hrun : MyGetNextFeature fuel ds this
    = Some (mkNext None (Some c)
        (set_layers ds (alter (fun L => set_reset_allowed L true) this (m_apoLayers ds))))).
  { unfold MyGetNextFeature. cbv zeta.
    rewrite (is_empty_lookup _ this (set_reset_allowed L true))
      by (simpl; by apply touched_lookup).
    simpl. rewrite He, Hint, Hcur. simpl.
    rewrite bool_decide_eq_false_2; [done |]. intros E. by injection E. }
  eexists. split; [exact Hrun |]. simpl. repeat split; try done.
  - intros k. apply reset_allowed_arrays.
  - unfold GetNextFeature. by rewrite Hrun.
Qed.

Lemma other_layer_witness :
  exists r,
    MyGetNextFeature 0 waiting_ds 0 = Some r
    ∧ poFeature_of r = None
    ∧ ppoNewCurLayer_of r = Some 1%nat
    ∧ m_stream (ds_of r) = [[(0%nat, feature1)]].
Proof.
  destruct (other_layer_is_current 0 waiting_ds 0 1 (new_buffer true None None)
              eq_refl eq_refl (Nat.neq_succ_0 0) eq_refl eq_refl)
    as (r & Hr & Hf & Hc & Hs & _).
  exists r. repeat split; assumption.
Defined.

(** The scan finds nothing when no layer other than [this] satisfies [P]. *)
Lemma scan_layers_none P this ls : forall i,
  (forall k L, ls !! k = Some L -> (i + k)%nat ≠ this -> P L = false) ->
  scan_layers P this i ls = None.
Proof.
  induction ls as [| L ls IH]; intros i Hall; simpl; [done |].
  destruct (Nat.eqb_spec i this) as [E | Hne]; simpl.
  - apply IH. intros k Lk Hk Hn. apply (Hall (S k) Lk Hk). lia.
  - rewrite (Hall 0%nat L eq_refl) by lia.
    apply IH. intros k Lk Hk Hn. apply (Hall (S k) Lk Hk). lia.
Qed.

Lemma touched_arrays ds this k L1 :
  alter (fun L => set_reset_allowed L true) this (m_apoLayers ds) !! k = Some L1 ->
  exists L, m_apoLayers ds !! k = Some L ∧ m_apoFeatures L1 = m_apoFeatures L.
Proof.
  intros Hl. pose proof (reset_allowed_arrays ds this k) as E. rewrite Hl in E.
  destruct (m_apoLayers ds !! k) as [L |]; [| done].
  exists L. split; [done |]. simpl in E. by injection E.
Qed.

(** What the interleaved branch does for the current layer when its array
    is empty, no other layer is over SWITCH_THRESHOLD and the stream has
    come to its end: one call of [ParseNextChunk], which changes no array,
    and then the scan for a layer that is not empty. *)
Lemma end_of_stream_run fuel ds this L :
  m_bInterleavedReading ds = true ->
  (m_poCurrentLayer ds = None ∨ m_poCurrentLayer ds = Some this) ->
  m_apoLayers ds !! this = Some L -> m_apoFeatures L = [] ->
  (forall k Lk, m_apoLayers ds !! k = Some Lk -> k ≠ this ->
                size (m_apoFeatures Lk) <= SWITCH_THRESHOLD) ->
  m_stream ds = [] ->
  let ls := alter (fun L => set_reset_allowed L true) this (m_apoLayers ds) in
  let ds1 := mkDS ls (m_poCurrentLayer ds) true [] (S (m_nChunkCalls ds)) in
  MyGetNextFeature fuel ds this
  = Some (mkNext None (scan_layers non_empty this 0%nat ls) ds1).
Proof.
  intros Hint Hcur Hl He Hsmall Hst ls ds1.
  unfold MyGetNextFeature. cbv zeta.
  rewrite (is_empty_lookup _ this (set_reset_allowed L true))
    by (simpl; by apply touched_lookup).
  simpl. rewrite He, Hint. simpl.
  assert (Hc : (match m_poCurrentLayer ds with None => Some this | Some c => Some c end)
               = Some this) by (by destruct Hcur as [-> | ->]).
  rewrite Hc, bool_decide_eq_true_2 by done. simpl.
  rewrite scan_layers_none.
  2:{ intros k L1 Hk Hn. destruct (touched_arrays ds this k L1 Hk) as (Lk & Hlk & E).
      unfold over_switch. rewrite E.
      specialize (Hsmall k Lk Hlk Hn).
      destruct (Z.gtb_spec (size (m_apoFeatures Lk)) SWITCH_THRESHOLD); [lia | done]. }
  unfold ParseNextChunk. simpl. rewrite Hst, Hint.
  unfold is_empty. simpl. rewrite (touched_lookup ds this L Hl). simpl. rewrite He. simpl.
  fold ls. by destruct (scan_layers non_empty this 0 ls).
Qed.

(** X5: in interleaved mode, when the stream has come to its end and no
    layer has a feature left, asking the current layer (or any layer when
    none is current) yields no feature and writes nullptr to ppoNewCurLayer,
    so that [GetNextFeature] leaves the data source without a current
    layer. *)
Theorem end_of_stream_clears_current (fuel : nat) (ds : OGROSMDataSource)
    (this : nat) (L : LayerBuffer) :
  m_bInterleavedReading ds = true ->
  (m_poCurrentLayer ds = None ∨ m_poCurrentLayer ds = Some this) ->
  m_apoLayers ds !! this = Some L ->
  Forall (fun Lk => m_apoFeatures Lk = []) (m_apoLayers ds) ->
  m_stream ds = [] ->
  exists r,
    MyGetNextFeature fuel ds this = Some r
    ∧ poFeature_of r = None ∧ ppoNewCurLayer_of r = None
    ∧ m_nChunkCalls (ds_of r) = S (m_nChunkCalls ds)
    ∧ GetNextFeature fuel ds this = Some (None, SetCurrentLayer (ds_of r) None).
Proof.
  intros Hint Hcur Hl Hall Hst.
  assert (Hempty : forall k Lk, m_apoLayers ds !! k = Some Lk -> m_apoFeatures Lk = []).
  { intros k Lk Hk. by apply (Forall_lookup_1 _ _ _ _ Hall Hk). }
  assert (Hsmall : forall k Lk, m_apoLayers ds !! k = Some Lk -> k ≠ this ->
                     size (m_apoFeatures Lk) <= SWITCH_THRESHOLD).
  { intros k Lk Hk _. rewrite (Hempty _ _ Hk). unfold size, SWITCH_THRESHOLD. simpl. lia. }
  pose proof (end_of_stream_run fuel ds this L Hint Hcur Hl (Hempty _ _ Hl) Hsmall Hst)
    as Hrun.
  cbv zeta in Hrun. rewrite scan_layers_none in Hrun.
  2:{ intros k L1 Hk _. destruct (touched_arrays ds this k L1 Hk) as (Lk & Hlk & E).
      unfold non_empty. rewrite E, (Hempty _ _ Hlk). done. }
  eexists. split; [exact Hrun |]. simpl. do 3 (split; [done |]).
  unfold GetNextFeature. by rewrite Hrun.
Qed.

Lemma end_of_stream_witness :
  exists r,
    MyGetNextFeature 0 drained_ds 0 = Some r
    ∧ poFeature_of r = None ∧ ppoNewCurLayer_of r = None.
Proof.
  destruct (end_of_stream_clears_current 0 drained_ds 0 (new_buffer true None None)
              eq_refl (or_intror eq_refl) eq_refl)
    as (r & Hr & Hf & Hc & _).
  - repeat constructor.
  - reflexivity.
  - exists r. repeat split; assumption.
Defined.

(** X6: in interleaved mode, when the current layer has nothing waiting, no
    other layer is over SWITCH_THRESHOLD and the stream has come to its end,
    but another layer still has features, the first such layer is written
    to ppoNewCurLayer and no feature is returned: the features that are left
    are not lost at the end of the input. *)
Theorem leftover_layer_becomes_current (fuel : nat) (ds : OGROSMDataSource)
    (this j : nat) (L Lj : LayerBuffer) :
  m_bInterleavedReading ds = true ->
  (m_poCurrentLayer ds = None ∨ m_poCurrentLayer ds = Some this) ->
  m_apoLayers ds !! this = Some L -> m_apoFeatures L = [] ->
  (forall k Lk, m_apoLayers ds !! k = Some Lk -> k ≠ this ->
                size (m_apoFeatures Lk) <= SWITCH_THRESHOLD) ->
  m_stream ds = [] ->
  m_apoLayers ds !! j = Some Lj -> j ≠ this -> m_apoFeatures Lj ≠ [] ->
  exists r i Li,
    MyGetNextFeature fuel ds this = Some r
    ∧ poFeature_of r = None ∧ ppoNewCurLayer_of r = Some i
    ∧ i ≠ this ∧ (i <= j)%nat
    ∧ m_apoLayers ds !! i = Some Li ∧ m_apoFeatures Li ≠ []
    ∧ (forall k, m_apoFeatures <$> (m_apoLayers (ds_of r) !! k)
                 = m_apoFeatures <$> (m_apoLayers ds !! k)).
Proof.
  intros Hint Hcur Hl He Hsmall Hst Hj Hne Hfull.
  pose proof (end_of_stream_run fuel ds this L Hint Hcur Hl He Hsmall Hst) as Hrun.
  cbv zeta in Hrun.
  assert (Hj1 : alter (fun L => set_reset_allowed L true) this (m_apoLayers ds) !! j
                = Some Lj) by (by rewrite list_lookup_alter_ne).
  destruct (scan_layers_finds non_empty this _ 0 j Lj Hj1) as (i & L1 & Hscan & Hi & Hni & HP & Hle).
  { simpl. lia. }
  { unfold non_empty. by rewrite bool_decide_eq_false_2. }
  simpl in Hscan, Hni. rewrite Hscan in Hrun.
  destruct (touched_arrays ds this i L1 Hi) as (Li & Hli & E).
  eexists _, i, Li. split; [exact Hrun |]. simpl. repeat split; try done.
  - unfold non_empty in HP. rewrite E in HP.
    apply negb_true_iff, bool_decide_eq_false in HP. done.
  - intros k. apply reset_allowed_arrays.
Qed.

Lemma leftover_layer_witness :
  exists r,
    MyGetNextFeature 0 leftover_ds 0 = Some r
    ∧ poFeature_of r = None ∧ ppoNewCurLayer_of r = Some 1%nat.
Proof.
  destruct (leftover_layer_becomes_current 0 leftover_ds 0 1
              (new_buffer true None None) two_features
              eq_refl (or_intror eq_refl) eq_refl eq_refl)
    as (r & i & Li & Hr & Hf & Hc & Hni & Hle & _).
  - intros [| [| k]] Lk Hk Hn; simpl in Hk; try done.
    injection Hk as <-. unfold size, SWITCH_THRESHOLD. simpl. lia.
  - reflexivity.
  - reflexivity.
  - apply Nat.neq_succ_0.
  - discriminate.
  - exists r. assert (i = 1%nat) as -> by lia. repeat split; assumption.
Defined.
(** ** MyGetNextFeature: what it keeps *)

Lemma TakeNext_ok L : cursor_ok L -> cursor_ok (snd (TakeNext L)).
Proof.
  intros Hc. destruct (pending L) as [| s q] eqn:Hp.
  - destruct (drained_is_reset L Hc Hp) as [Ea Ei].
    unfold TakeNext. rewrite Ea, Ei. simpl. done.
  - by destruct (TakeNext_fifo L s q Hc Hp) as (_ & _ & _ & ?).
Qed.

Lemma deliver_ok c : forall ls, Forall cursor_ok ls -> Forall cursor_ok (deliver c ls).
Proof.
  induction c as [| [i f] c IH]; intros ls Hall; simpl; [done |].
  destruct (ls !! i) as [L |] eqn:Hl; [| by apply IH].
  apply IH. apply Forall_insert; [done |].
  apply (AddFeature_fifo L f false true false).
  by apply (Forall_lookup_1 _ _ _ _ Hall Hl).
Qed.

Lemma deliver_length c : forall ls, length (deliver c ls) = length ls.
Proof.
  induction c as [| [i f] c IH]; intros ls; simpl; [done |].
  destruct (ls !! i); [| done]. by rewrite IH, length_insert.
Qed.

Lemma ParseNextChunk_ok ds this :
  ds_ok ds ->
  ds_ok (snd (ParseNextChunk ds this))
  ∧ length (m_apoLayers (snd (ParseNextChunk ds this))) = length (m_apoLayers ds)
  ∧ m_poCurrentLayer (snd (ParseNextChunk ds this)) = m_poCurrentLayer ds
  ∧ m_bInterleavedReading (snd (ParseNextChunk ds this)) = m_bInterleavedReading ds
  ∧ m_nChunkCalls (snd (ParseNextChunk ds this)) = S (m_nChunkCalls ds)
  ∧ (if fst (ParseNextChunk ds this)
     then length (m_stream ds) = S (length (m_stream (snd (ParseNextChunk ds this))))
     else m_stream ds = [])
  ∧ (fst (ParseNextChunk ds this) = false ->
     m_stream (snd (ParseNextChunk ds this)) = []).
Proof.
  intros Hok. unfold ParseNextChunk, ds_ok in *.
  destruct (m_stream ds) as [| c rest]; simpl.
  - repeat split; try done.
  - repeat split; try done.
    + by apply deliver_ok.
    + apply deliver_length.
Qed.

Lemma take_from_ok ds this cur :
  ds_ok ds ->
  ds_ok (ds_of (take_from ds this cur))
  ∧ length (m_apoLayers (ds_of (take_from ds this cur))) = length (m_apoLayers ds)
  ∧ m_stream (ds_of (take_from ds this cur)) = m_stream ds
  ∧ m_nChunkCalls (ds_of (take_from ds this cur)) = m_nChunkCalls ds
  ∧ m_bInterleavedReading (ds_of (take_from ds this cur)) = m_bInterleavedReading ds
  ∧ (is_empty ds this = false -> is_Some (poFeature_of (take_from ds this cur))).
Proof.
  intros Hok. unfold take_from, is_empty, ds_ok in *.
  destruct (m_apoLayers ds !! this) as [L |] eqn:Hl; [| done].
  pose proof (Forall_lookup_1 _ _ _ _ Hok Hl) as Hc.
  pose proof (TakeNext_ok L Hc) as Hc'.
  assert (Hs : bool_decide (m_apoFeatures L = []) = false ->
               is_Some (fst (TakeNext L))).
  { intros He. apply bool_decide_eq_false in He.
    destruct (nonempty_pending L Hc He) as (s & q & Hp).
    destruct (TakeNext_fifo L s q Hc Hp) as (Hs & -> & _). done. }
  destruct (TakeNext L) as [s L']. simpl in *.
  split; [by apply Forall_insert |]. split; [by rewrite length_insert |]. done.
Qed.

Lemma touched_ok ds this :
  ds_ok ds ->
  ds_ok (set_layers ds (alter (fun L => set_reset_allowed L true) this (m_apoLayers ds))).
Proof. intros Hok. unfold ds_ok in *. simpl. apply Forall_alter; done. Qed.

(** The loop of the plain branch, given fuel for every chunk: it ends, and
    when it ends without a feature for the layer, the stream is at its
    end. *)
Lemma parse_until_fed_spec this : forall fuel ds,
  ds_ok ds -> (length (m_stream ds) < fuel)%nat ->
  exists b ds1,
    parse_until_fed fuel ds this = Some (b, ds1)
    ∧ ds_ok ds1
    ∧ length (m_apoLayers ds1) = length (m_apoLayers ds)
    ∧ m_bInterleavedReading ds1 = m_bInterleavedReading ds
    ∧ is_empty ds1 this = negb b
    ∧ (b = false -> m_stream ds1 = [])
    ∧ (m_nChunkCalls ds < m_nChunkCalls ds1
       <= m_nChunkCalls ds + length (m_stream ds) + 1)%nat.
Proof.
  induction fuel as [| fuel IH]; intros ds Hok Hlen; [lia |].
  simpl.
  destruct (ParseNextChunk_ok ds this Hok) as (Hok1 & Hl1 & _ & Hi1 & Hn1 & Hs1 & Hend).
  destruct (ParseNextChunk ds this) as [bRet ds1]. simpl in *.
  destruct (is_empty ds1 this) eqn:He; simpl.
  - destruct bRet; simpl.
    + destruct (IH ds1 Hok1) as (b & ds2 & E & Hok2 & Hl2 & Hi2 & He2 & Hst2 & Hn2);
        [lia |].
      exists b, ds2. rewrite E. do 2 (split; [done |]).
      split; [congruence |]. split; [congruence |]. do 2 (split; [done |]). lia.
    + exists false, ds1. do 5 (split; [done |]). split; [by intros; apply Hend |].
      rewrite Hs1. simpl. lia.
  - exists true, ds1. do 5 (split; [done |]). split; [done |].
    destruct bRet; [| rewrite Hs1; simpl]; lia.
Qed.

(** X7: in plain (not interleaved) mode, given fuel for every chunk of the
    stream, [MyGetNextFeature] returns, leaves the current layer as it was,
    and returns no feature only when the stream is at its end and the layer
    still has nothing: until then a layer is never told that it is finished.
    It calls [ParseNextChunk] at most once more than there are chunks. *)
Theorem plain_reading_ends_with_the_stream (fuel : nat) (ds : OGROSMDataSource)
    (this : nat) :
  m_bInterleavedReading ds = false -> ds_ok ds ->
  (length (m_stream ds) < fuel)%nat ->
  exists r,
    MyGetNextFeature fuel ds this = Some r
    ∧ ppoNewCurLayer_of r = m_poCurrentLayer ds
    ∧ (poFeature_of r = None ->
       m_stream (ds_of r) = [] ∧ is_empty (ds_of r) this = true)
    ∧ (m_nChunkCalls (ds_of r) <= m_nChunkCalls ds + length (m_stream ds) + 1)%nat
    ∧ ds_ok (ds_of r).
Proof.
  intros Hint Hok Hlen.
  pose proof (touched_ok ds this Hok) as Hok0.
  unfold MyGetNextFeature. cbv zeta.
  set (ds0 := set_layers ds (alter (fun L => set_reset_allowed L true) this
                                   (m_apoLayers ds))) in *.
  destruct (is_empty ds0 this) eqn:He.
  - change (m_bInterleavedReading ds0) with (m_bInterleavedReading ds). rewrite Hint.
    destruct (parse_until_fed_spec this fuel ds0 Hok0 Hlen)
      as (b & ds1 & E & Hok1 & _ & _ & He1 & Hst1 & Hn1).
    rewrite E. destruct b.
    + destruct (take_from_ok ds1 this (m_poCurrentLayer ds) Hok1)
        as (Hok2 & _ & _ & Hn2 & _ & Hsome).
      eexists. split; [reflexivity |].
      split; [unfold take_from; destruct (m_apoLayers ds1 !! this); [| done];
              by destruct (TakeNext _) |].
      split; [intros Hnone; specialize (Hsome He1); rewrite Hnone in Hsome;
              by destruct Hsome |].
      split; [| done]. rewrite Hn2. simpl in Hn1. lia.
    + eexists. split; [reflexivity |]. simpl.
      split; [done |]. split; [by intros _; split; [apply Hst1 |] |].
      split; [| done]. simpl in Hn1. lia.
  - destruct (take_from_ok ds0 this (m_poCurrentLayer ds) Hok0)
      as (Hok2 & _ & _ & Hn2 & _ & Hsome).
    eexists. split; [reflexivity |].
    split; [unfold take_from; destruct (m_apoLayers ds0 !! this); [| done];
            by destruct (TakeNext _) |].
    split; [intros Hnone; specialize (Hsome He); rewrite Hnone in Hsome;
            by destruct Hsome |].
    split; [| done]. rewrite Hn2. simpl. lia.
Qed.

(** X7 on two chunks, the second of which is for the layer asked: the layer
    gets its feature after both chunks were parsed. *)
Lemma plain_reading_witness :
  exists r,
    MyGetNextFeature 3 plain_ds 0 = Some r
    ∧ poFeature_of r = Some feature2
    ∧ ppoNewCurLayer_of r = None
    ∧ m_nChunkCalls (ds_of r) = 2%nat.
Proof.
  assert (Hok : ds_ok plain_ds).
  { repeat constructor; by right. }
  destruct (plain_reading_ends_with_the_stream 3 plain_ds 0 eq_refl Hok)
    as (r & Hr & Hc & _); [simpl; lia |].
  exists r. split; [exact Hr |].
  vm_compute in Hr. injection Hr as <-. repeat split.
Defined.

(** X8: whatever the mode and whichever branch is taken, a call of
    [MyGetNextFeature] on a data source whose layers all have their cursor
    in order (inside the array, with only features that were not handed over
    behind it) leaves every layer so; it changes neither the number of
    layers nor the mode, and it never gives fuel back as a feature: the
    calls of [ParseNextChunk] only grow. *)
Theorem cursors_stay_in_order (fuel : nat) (ds : OGROSMDataSource) (this : nat)
    (r : NextFeature) :
  ds_ok ds -> MyGetNextFeature fuel ds this = Some r ->
  ds_ok (ds_of r)
  ∧ length (m_apoLayers (ds_of r)) = length (m_apoLayers ds)
  ∧ m_bInterleavedReading (ds_of r) = m_bInterleavedReading ds
  ∧ (m_nChunkCalls ds <= m_nChunkCalls (ds_of r))%nat
  ∧ (m_bInterleavedReading ds = true ->
     (m_nChunkCalls (ds_of r) <= S (m_nChunkCalls ds))%nat).
Proof.
  intros Hok Hrun.
  pose proof (touched_ok ds this Hok) as Hok0.
  unfold MyGetNextFeature in Hrun. cbv zeta in Hrun.
  set (ds0 := set_layers ds (alter (fun L => set_reset_allowed L true) this
                                   (m_apoLayers ds))) in *.
  assert (Hl0 : length (m_apoLayers ds0) = length (m_apoLayers ds))
    by (simpl; apply length_alter).
  assert (Htake : forall d cur, ds_ok d ->
            length (m_apoLayers d) = length (m_apoLayers ds) ->
            m_bInterleavedReading d = m_bInterleavedReading ds ->
            (m_nChunkCalls ds <= m_nChunkCalls d)%nat ->
            (m_bInterleavedReading ds = true ->
             (m_nChunkCalls d <= S (m_nChunkCalls ds))%nat) ->
            ds_ok (ds_of (take_from d this cur))
            ∧ length (m_apoLayers (ds_of (take_from d this cur))) = length (m_apoLayers ds)
            ∧ m_bInterleavedReading (ds_of (take_from d this cur))
              = m_bInterleavedReading ds
            ∧ (m_nChunkCalls ds <= m_nChunkCalls (ds_of (take_from d this cur)))%nat
            ∧ (m_bInterleavedReading ds = true ->
               (m_nChunkCalls (ds_of (take_from d this cur)) <= S (m_nChunkCalls ds))%nat)).
  { intros d cur Hd Hl Hi Hn Hn'.
    destruct (take_from_ok d this cur Hd) as (H1 & H2 & _ & H4 & H5 & _).
    rewrite H2, H4, H5. done. }
  destruct (is_empty ds0 this) eqn:He.
  2:{ injection Hrun as <-. apply Htake; try done; simpl; lia. }
  change (m_bInterleavedReading ds0) with (m_bInterleavedReading ds) in Hrun.
  destruct (m_bInterleavedReading ds) eqn:Hint.
  - destruct (negb _) in Hrun.
    { injection Hrun as <-. simpl. repeat split; try done; lia. }
    destruct (scan_layers over_switch this 0 (m_apoLayers ds0)) in Hrun.
    { injection Hrun as <-. simpl. repeat split; try done; lia. }
    destruct (ParseNextChunk_ok ds0 this Hok0) as (Hok1 & Hl1 & _ & Hi1 & Hn1 & _).
    destruct (ParseNextChunk ds0 this) as [b ds1]. simpl in *.
    destruct (is_empty ds1 this).
    + destruct (scan_layers non_empty this 0 (m_apoLayers ds1)) in Hrun;
        injection Hrun as <-; simpl; rewrite Hn1;
        (split; [done |]); (split; [congruence |]); (split; [congruence |]);
        (split; [lia | intros _; lia]).
    + injection Hrun as <-. apply Htake; try done; try congruence; rewrite Hn1; lia.
  - destruct (parse_until_fed fuel ds0 this) as [[b ds1] |] eqn:E; [| done].
    assert (Hgen : forall fuel d b d1, ds_ok d ->
              parse_until_fed fuel d this = Some (b, d1) ->
              ds_ok d1 ∧ length (m_apoLayers d1) = length (m_apoLayers d)
              ∧ m_bInterleavedReading d1 = m_bInterleavedReading d
              ∧ (m_nChunkCalls d <= m_nChunkCalls d1)%nat).
    { clear. induction fuel as [| fuel IH]; intros d b d1 Hd E; [done |].
      simpl in E.
      destruct (ParseNextChunk_ok d this Hd) as (Hok1 & Hl1 & _ & Hi1 & Hn1 & _).
      destruct (ParseNextChunk d this) as [bRet d2]. simpl in *.
      destruct (negb (is_empty d2 this)).
      - injection E as _ <-. repeat split; try done. lia.
      - destruct (negb bRet).
        + injection E as _ <-. repeat split; try done. lia.
        + destruct (IH d2 b d1 Hok1 E) as (? & ? & ? & ?).
          repeat split; try done; try congruence. lia. }
    destruct (Hgen fuel ds0 b ds1 Hok0 E) as (Hok1 & Hl1 & Hi1 & Hn1).
    destruct b.
    + injection Hrun as <-.
      apply Htake; simpl in *; first [done | congruence | lia].
    + injection Hrun as <-. simpl in *.
      split; [done |]. split; [congruence |]. split; [congruence |].
      split; [lia | done].
Qed.

Lemma cursors_stay_witness :
  ds_ok (ds_of (mkNext None (Some 1%nat)
                  (set_layers waiting_ds
                     (alter (fun L => set_reset_allowed L true) 0%nat
                            (m_apoLayers waiting_ds))))).
Proof.
  assert (Hok : ds_ok waiting_ds).
  { repeat constructor; by right. }
  apply (cursors_stay_in_order 0 waiting_ds 0 _ Hok). reflexivity.
Defined.

(** ** Field names and indices *)

Lemma find_char_none c s : find_char c s 0 = None -> ¬ occurs c s.
Proof.
  induction s as [| a s IH]; simpl; intros Hf Hin; [done |].
  unfold occurs in *. simpl in Hin.
  destruct (Ascii.eqb_spec a c); [done |].
  destruct Hin as [-> | Hin]; [done |].
  destruct (find_char c s 0); [done |]. by apply IH.
Qed.

Lemma launder_no_colon : forall room s, ¬ occurs ":" (launder room s).
Proof.
  induction room as [| room IH]; intros [| a s]; simpl; intros Hin; try done.
  unfold occurs in Hin. simpl in Hin. destruct Hin as [E | Hin].
  - destruct (Ascii.eqb_spec a ":"); [discriminate E | done].
  - by apply (IH s).
Qed.

Lemma launder_length : forall room s,
  String.length (launder room s) = Nat.min room (String.length s).
Proof.
  induction room as [| room IH]; intros [| a s]; simpl; try done. by rewrite IH.
Qed.

Lemma launder_char_at : forall room s i,
  (i < Nat.min room (String.length s))%nat ->
  char_at (launder room s) i
  = if Ascii.eqb (char_at s i) ":" then "_"%char else char_at s i.
Proof.
  induction room as [| room IH]; intros [| a s] i Hi; simpl in Hi; try lia.
  destruct i as [| i]; [done |].
  unfold char_at in *. simpl. apply IH. lia.
Qed.

(** X9: with laundering on, the name that [GetLaunderedFieldName] gives has
    no colon.  A name without a colon is given back as it is; a name with one
    is cut to the room of the buffer less the final NUL, and each of its
    characters is kept but for the colons, which become underscores. *)
Theorem laundered_name_has_no_colon (o : OSMOptions) (pszName : string) :
  m_bAttributeNameLaundering o = true ->
  (1 <= szLaunderedFieldName_size o)%nat ->
  let r := GetLaunderedFieldName o pszName in
  ¬ occurs ":" r
  ∧ (¬ occurs ":" pszName -> r = pszName)
  ∧ (occurs ":" pszName ->
     String.length r
     = Nat.min (szLaunderedFieldName_size o - 1) (String.length pszName)
     ∧ forall i, (i < String.length r)%nat ->
         char_at r i
         = if Ascii.eqb (char_at pszName i) ":" then "_"%char else char_at pszName i).
Proof.
  intros Hon Hroom r. subst r. unfold GetLaunderedFieldName. rewrite Hon. simpl.
  case_bool_decide as Hc.
  - split; [apply launder_no_colon |]. split.
    + intros Hno. apply find_char_absent in Hno. rewrite Hno in Hc.
      by destruct Hc.
    + intros _. split; [apply launder_length |].
      intros i Hi. rewrite launder_length in Hi. by apply launder_char_at.
  - assert (Hn : find_char ":" pszName 0 = None).
    { destruct (find_char ":" pszName 0); [| done]. exfalso. apply Hc. by eexists. }
    pose proof (find_char_none _ _ Hn) as Hno.
    split; [done |]. split; [done |]. intros Hin. by destruct Hno.
Qed.

(** X9 on a key of eleven characters and a buffer of eight bytes: seven
    characters are left, the colon among them as an underscore. *)
Lemma laundered_name_witness :
  GetLaunderedFieldName short_options "addr:street" = "addr_st"
  ∧ ¬ occurs ":" (GetLaunderedFieldName short_options "addr:street").
Proof.
  split; [reflexivity |].
  apply (laundered_name_has_no_colon short_options "addr:street"); [reflexivity |].
  simpl. lia.
Defined.

(** X10: after [AddField], [GetFieldIndex] answers for the name the index of
    the field just made, which is the last of the definition and bears the
    laundered name, also when the name had a field before; for every other
    name it answers as it did.  The ignored keys and the computed attributes
    are as they were. *)
Theorem AddField_then_GetFieldIndex (o : OSMOptions) (L : OGROSMLayer)
    (pszName : string) (eFieldType : OGRFieldType) (eSubType : OGRFieldSubType) :
  let L' := AddField o L pszName eFieldType eSubType in
  GetFieldIndex L' pszName = GetFieldCount (m_poFeatureDefn L)
  ∧ m_poFeatureDefn L' !! length (m_poFeatureDefn L)
    = Some (mkFieldDefn (GetLaunderedFieldName o pszName) eFieldType eSubType)
  ∧ GetFieldCount (m_poFeatureDefn L') = GetFieldCount (m_poFeatureDefn L) + 1
  ∧ (forall other, other ≠ pszName -> GetFieldIndex L' other = GetFieldIndex L other)
  ∧ (forall i d, m_poFeatureDefn L !! i = Some d -> m_poFeatureDefn L' !! i = Some d)
  ∧ aoSetIgnoreKeys L' = aoSetIgnoreKeys L
  ∧ m_oComputedAttributes L' = m_oComputedAttributes L.
Proof.
  intros L'. subst L'. unfold AddField, GetFieldIndex, GetFieldCount. simpl.
  rewrite lookup_insert_eq, !length_app. simpl.
  split; [lia |]. split; [by rewrite list_lookup_middle |]. split; [lia |].
  split; [by intros other Hne; rewrite lookup_insert_ne |].
  split; [| done]. intros i d Hl. by apply lookup_app_l_Some.
Qed.

(** ** A layer however it was set up *)

Lemma defn_index_from_app l1 l2 n : forall i,
  0 <= i ->
  defn_index_from i (l1 ++ l2)%list n
  = if defn_index_from i l1 n =? -1
    then defn_index_from (i + Z.of_nat (length l1)) l2 n
    else defn_index_from i l1 n.
Proof.
  induction l1 as [| d l1 IH]; intros i Hi; simpl.
  - by rewrite Z.add_0_r.
  - destruct (String.eqb (fd_name d) n).
    + destruct (Z.eqb_spec i (-1)); [lia | done].
    + rewrite IH by lia. by replace (i + 1 + Z.of_nat (length l1))
                               with (i + Z.pos (Pos.of_succ_nat (length l1))) by lia.
Qed.

Lemma defn_index_from_found defn n : forall i k,
  0 <= i -> defn_index_from i defn n = k -> k ≠ -1 ->
  i <= k ∧ exists d, defn !! Z.to_nat (k - i) = Some d ∧ fd_name d = n.
Proof.
  induction defn as [| d defn IH]; intros i k Hi Hk Hne; simpl in Hk; [congruence |].
  destruct (String.eqb_spec (fd_name d) n) as [E | _].
  - subst k. split; [lia |]. exists d. rewrite Z.sub_diag. done.
  - destruct (IH (i + 1) k) as (Hle & d' & Hl & Hn); [lia | done | done |].
    split; [lia |]. exists d'. split; [| done].
    replace (Z.to_nat (k - i)) with (S (Z.to_nat (k - (i + 1)))) by lia. done.
Qed.

Lemma defn_index_bounds defn n :
  -1 <= OGRFeatureDefn_GetFieldIndex defn n < Z.of_nat (length defn).
Proof.
  unfold OGRFeatureDefn_GetFieldIndex.
  destruct (Z.eq_dec (defn_index_from 0 defn n) (-1)) as [E | Hne].
  - rewrite E. lia.
  - destruct (defn_index_from_found defn n 0 _ ltac:(lia) eq_refl Hne)
      as (Hle & d & Hl & _).
    apply lookup_lt_Some in Hl. lia.
Qed.

Lemma defn_index_keeps defn l n :
  OGRFeatureDefn_GetFieldIndex defn n ≠ -1 ->
  OGRFeatureDefn_GetFieldIndex (defn ++ l)%list n = OGRFeatureDefn_GetFieldIndex defn n.
Proof.
  unfold OGRFeatureDefn_GetFieldIndex. intros Hne.
  rewrite defn_index_from_app by lia.
  by destruct (Z.eqb_spec (defn_index_from 0 defn n) (-1)).
Qed.

Lemma defn_index_new defn d :
  OGRFeatureDefn_GetFieldIndex defn (fd_name d) = -1 ->
  OGRFeatureDefn_GetFieldIndex (defn ++ [d])%list (fd_name d) = Z.of_nat (length defn).
Proof.
  unfold OGRFeatureDefn_GetFieldIndex. intros E.
  rewrite defn_index_from_app, E by lia. simpl. by rewrite String.eqb_refl.
Qed.

Lemma defn_index_at defn d k :
  defn !! k = Some d ->
  0 <= OGRFeatureDefn_GetFieldIndex defn (fd_name d) <= Z.of_nat k.
Proof.
  unfold OGRFeatureDefn_GetFieldIndex.
  assert (G : forall defn k i, defn !! k = Some d -> 0 <= i ->
            i <= defn_index_from i defn (fd_name d) <= i + Z.of_nat k).
  { clear. induction defn as [| d0 defn IH]; intros k i Hl Hi; [done |]. simpl.
    destruct (String.eqb_spec (fd_name d0) (fd_name d)) as [_ | Hne]; [lia |].
    destruct k as [| k]; [simpl in Hl; congruence |]. simpl in Hl.
    specialize (IH k (i + 1) Hl). lia. }
  intros Hl. specialize (G defn k 0 Hl). lia.
Qed.

(** The loop of lines 1010-1030 looks up every name that it binds. *)
Lemma extract_loop_indices defn : forall fuel s start aos an,
  an = OGRFeatureDefn_GetFieldIndex defn <$> aos ->
  ph_indices (extract_loop fuel defn s start aos an)
  = OGRFeatureDefn_GetFieldIndex defn <$> ph_attrs (extract_loop fuel defn s start aos an).
Proof.
  induction fuel as [| fuel IH]; intros s start aos an Hinv; [done |].
  rewrite extract_loop_S.
  destruct (find_char "[" s start) as [nPos |]; [| done].
  destruct ((0 <? nPos)%nat && negb (Ascii.eqb (char_at s (nPos - 1)) backslash)).
  - destruct (find_char "]" (substr_from s (nPos + 1)) 0) as [nPos2 |]; [| done].
    apply IH. by rewrite fmap_app, Hinv.
  - by apply IH.
Qed.

Lemma GetLaunderedFieldName_plain o n :
  find_char ":" n 0 = None -> GetLaunderedFieldName o n = n.
Proof.
  intros Hn. unfold GetLaunderedFieldName. rewrite Hn.
  case_bool_decide as Hc; [by destruct Hc |]. by rewrite andb_false_r.
Qed.

Lemma new_layer_wf o : layer_wf o new_layer.
Proof.
  split; try done; simpl; intros *; try (by rewrite lookup_empty);
    by intros ?%elem_of_nil.
Qed.

Lemma AddField_wf o L pszName ty sub :
  layer_wf o L -> layer_wf o (AddField o L pszName ty sub).
Proof.
  intros [Hf Hinj H1 H2 H3 H4 Ha Hap Hb Hso].
  assert (Hlt : forall name i, m_oMapFieldNameToIndex L !! name = Some i ->
                 0 <= i < Z.of_nat (length (m_poFeatureDefn L))).
  { intros name i Hl. destruct (Hf _ _ Hl) as (H0 & d & Hd & _).
    apply lookup_lt_Some in Hd. lia. }
  assert (Special : forall key old,
            old = GetFieldIndex L key ->
            (if String.eqb pszName key
             then GetFieldCount (m_poFeatureDefn L ++ [mkFieldDefn
                    (GetLaunderedFieldName o pszName) ty sub])%list - 1
             else old)
            = GetFieldIndex (AddField o L pszName ty sub) key).
  { intros key old ->. unfold GetFieldIndex, AddField. simpl.
    destruct (String.eqb_spec pszName key) as [-> | Hne].
    - by rewrite lookup_insert_eq.
    - by rewrite lookup_insert_ne. }
  split.
  - intros name i Hl. unfold AddField in Hl |- *. cbn [m_oMapFieldNameToIndex] in Hl.
    cbn [m_poFeatureDefn].
    unfold GetFieldCount in Hl. rewrite length_app in Hl. simpl in Hl.
    apply lookup_insert_Some in Hl as [[<- <-] | [_ Hl]].
    + split; [lia |].
      exists (mkFieldDefn (GetLaunderedFieldName o pszName) ty sub).
      split; [| reflexivity].
      replace (Z.to_nat _) with (length (m_poFeatureDefn L)) by lia.
      by rewrite list_lookup_middle.
    + destruct (Hf _ _ Hl) as (H0 & d & Hd & Hn). split; [done |].
      exists d. split; [by apply lookup_app_l_Some | done].
  - intros n1 n2 i Hl1 Hl2. clear Special. unfold AddField in *. simpl in *.
    unfold GetFieldCount in *. rewrite length_app in *. simpl in *.
    apply lookup_insert_Some in Hl1 as [[<- <-] | [Hn1 Hl1]];
      apply lookup_insert_Some in Hl2 as [[E2 E2'] | [Hn2 Hl2]]; try done.
    + apply Hlt in Hl2. lia.
    + apply Hlt in Hl1. lia.
    + by apply (Hinj _ _ i).
  - by apply (Special "osm_id").
  - by apply (Special "osm_way_id").
  - by apply (Special "other_tags").
  - by apply (Special "all_tags").
  - intros a Hin. destruct (Ha a Hin) as (H0 & Hd & Hi). simpl.
    split; [done |]. split; [by apply lookup_app_l_Some |].
    rewrite defn_index_keeps; [done | lia].
  - intros name i a Hl Hin. simpl in *.
    unfold GetFieldCount in Hl. rewrite length_app in Hl. simpl in Hl.
    apply lookup_insert_Some in Hl as [[_ <-] | [_ Hl]]; [| by eapply Hap].
    destruct (Ha a Hin) as (H0 & Hd & _). apply lookup_lt_Some in Hd. lia.
  - by apply Hb.
  - exact Hso.
Qed.

Lemma AddIgnoreKey_wf o L pszK : layer_wf o L -> layer_wf o (AddIgnoreKey L pszK).
Proof. by intros []. Qed.

Lemma SetHas_wf o L a b c d e g : layer_wf o L -> layer_wf o (SetHas L a b c d e g).
Proof. by intros []. Qed.

Section SetUp.
Context `{External}.

Lemma AddComputedAttribute_wf o hDB L pszName ty pszSQL :
  layer_wf o L -> layer_wf o (aca_layer (AddComputedAttribute hDB L pszName ty pszSQL)).
Proof.
  intros Hwf.
  pose proof (extract_loop_indices (m_poFeatureDefn L) (S (String.length pszSQL))
                pszSQL 0 [] [] eq_refl) as Hph.
  pose proof (canonical_zorder_binds (m_poFeatureDefn L)) as Hcan.
  fold (extract_placeholders (m_poFeatureDefn L) pszSQL) in Hph.
  unfold AddComputedAttribute. cbv zeta.
  remember (extract_placeholders (m_poFeatureDefn L) pszSQL) as ph eqn:Eph.
  destruct (negb hDB && negb sqlite3_open_v2); [done |].
  destruct (Z.geb_spec (OGRFeatureDefn_GetFieldIndex (m_poFeatureDefn L) pszName) 0)
    as [| Hfree]; [done |].
  destruct (negb (sqlite3_prepare_v2 _)); [done |].
  destruct Hwf as [Hf Hinj H1 H2 H3 H4 Ha Hap Hb Hso].
  pose proof (defn_index_bounds (m_poFeatureDefn L) pszName) as Hbd.
  assert (Hnew : OGRFeatureDefn_GetFieldIndex (m_poFeatureDefn L) pszName = -1) by lia.
  simpl. unfold with_attribute, GetFieldCount. rewrite length_app. simpl.
  replace (Z.of_nat (length (m_poFeatureDefn L) + 1) - 1)
    with (Z.of_nat (length (m_poFeatureDefn L))) by lia.
  split; simpl; [| exact Hinj | exact H1 | exact H2 | exact H3 | exact H4 | | | |].
  - intros name i Hl. destruct (Hf _ _ Hl) as (H0 & d & Hd & Hn). split; [done |].
    exists d. split; [by apply lookup_app_l_Some | done].
  - intros a Hin. apply elem_of_app in Hin as [Hin | Hin].
    + destruct (Ha a Hin) as (H0 & Hd & Hi).
      split; [done |]. split; [by apply lookup_app_l_Some |].
      rewrite defn_index_keeps; [done | lia].
    + apply list_elem_of_singleton in Hin as ->. simpl.
      split; [lia |]. rewrite Nat2Z.id. split; [by rewrite list_lookup_middle |].
      by apply (defn_index_new _ (mkFieldDefn pszName ty OFSTNone)).
  - intros name i a Hl Hin. apply elem_of_app in Hin as [Hin | Hin]; [by eapply Hap |].
    apply list_elem_of_singleton in Hin as ->. simpl.
    destruct (Hf _ _ Hl) as (H0 & d & Hd & _). apply lookup_lt_Some in Hd. lia.
  - intros a Hin. apply elem_of_app in Hin as [Hin | Hin]; [by apply Hb |].
    apply list_elem_of_singleton in Hin as ->. simpl.
    rewrite Hph.
    split; [by rewrite length_fmap |]. split.
    + apply Forall_fmap, Forall_forall. intros x _. simpl.
      pose proof (defn_index_bounds (m_poFeatureDefn L) x). lia.
    + intros Hz. apply andb_true_iff in Hz as [Hty Hsql].
      apply bool_decide_eq_true in Hty. apply String.eqb_eq in Hsql.
      split; [done |]. rewrite Eph, Hsql. exact Hcan.
  - intros i j a b Hi Hj Hij.
    apply lookup_app_Some in Hj as [Hj | [Hlj Hj]].
    + apply lookup_app_Some in Hi as [Hi | [Hli _]].
      * by apply (Hso i j).
      * apply lookup_lt_Some in Hj. lia.
    + apply lookup_app_Some in Hi as [Hi | [Hli Hi]].
      * apply list_lookup_singleton_Some in Hj as [_ <-]. simpl.
        destruct (Ha a) as (H0 & Hd & _); [by eapply list_elem_of_lookup_2 |].
        apply lookup_lt_Some in Hd. lia.
      * apply list_lookup_singleton_Some in Hj as [Hj0 _].
        apply list_lookup_singleton_Some in Hi as [Hi0 _]. lia.
Qed.

Lemma setup_op_wf o st op : layer_wf o (snd st) -> layer_wf o (snd (setup_op o st op)).
Proof.
  destruct st as [hDB L]. simpl. intros Hwf. destruct op; simpl.
  - by apply AddField_wf.
  - by apply AddIgnoreKey_wf.
  - by apply SetHas_wf.
  - by apply AddComputedAttribute_wf.
Qed.

Lemma setup_wf_from o ops : forall st,
  layer_wf o (snd st) -> layer_wf o (snd (fold_left (setup_op o) ops st)).
Proof.
  induction ops as [| op ops IH]; intros st Hwf; simpl; [done |].
  apply IH. by apply setup_op_wf.
Qed.

(** X11: however a layer is set up, by whatever calls of [AddField],
    [AddIgnoreKey], the setters of the header and [AddComputedAttribute] in
    whatever order, also when some declarations fail: every index of the name
    map is a field of the definition, which bears the laundered name; no two
    names share a field; m_nIndexOSMId, m_nIndexOSMWayId, m_nIndexOtherTags
    and m_nIndexAllTags are what the name map answers for these four names;
    every computed attribute has a field of its own, which the name map does
    not reach and which its name finds in the definition; it has a name for
    every index that it binds, binds only fields declared before it, and on
    the fast path it is an integer that binds the six names of the z_order
    statement, so that lines 693-697 read inside anIndexToBind; and the
    attributes are in the order of their fields. *)
Theorem setup_keeps_the_schema_in_order (o : OSMOptions) (ops : list SetupOp) :
  layer_wf o (snd (setup o ops)).
Proof.
  unfold setup. generalize (new_layer_wf o).
  change new_layer with (snd (false, new_layer)) at 1.
  generalize (false, new_layer).
  induction ops as [| op ops IH]; intros st Hwf; simpl; [done |].
  apply IH. destruct st as [hDB L]. simpl in Hwf. destruct op; simpl.
  - by apply AddField_wf.
  - by apply AddIgnoreKey_wf.
  - by apply SetHas_wf.
  - by apply AddComputedAttribute_wf.
Qed.

End SetUp.

(** ** SetFieldsFromTags as a whole *)

Lemma SetField_nFID f i v : nFID (SetField f i v) = nFID f.
Proof. unfold SetField. by destruct (0 <=? i). Qed.

Lemma fold_project_nFID o L tags : forall st,
  nFID (fst (fold_left (project_tag o L) tags st)) = nFID (fst st).
Proof.
  induction tags as [| t tags IH]; intros [f buf]; [done |].
  cbn [fold_left]. rewrite IH, project_tag_feature. cbn [fst].
  destruct (_ && _); [apply SetField_nFID | done].
Qed.

Lemma store_aggregate_feature o L f buf :
  fst (store_aggregate o L (f, buf))
  = if negb (String.eqb buf "") then
      SetField f (if m_nIndexAllTags L >=? 0 then m_nIndexAllTags L
                  else m_nIndexOtherTags L)
               (OFString (if negb (m_bTagsAsHSTORE o) then buf ++ "}" else buf))
    else f.
Proof.
  unfold store_aggregate. destruct (negb (String.eqb buf "")); [| done].
  by destruct (m_nIndexAllTags L >=? 0).
Qed.

Lemma set_identifier_nFID L f nID bIsWayID : nFID (set_identifier L f nID bIsWayID) = nID.
Proof.
  unfold set_identifier.
  destruct (negb bIsWayID), (m_bHasOSMId L), (m_nIndexOSMWayId L >=? 0);
    by rewrite ?SetField_nFID.
Qed.

Lemma set_identifier_length L f nID bIsWayID :
  length (fields (set_identifier L f nID bIsWayID)) = length (fields f).
Proof.
  unfold set_identifier.
  destruct (negb bIsWayID), (m_bHasOSMId L), (m_nIndexOSMWayId L >=? 0);
    by rewrite ?SetField_length.
Qed.

(** The loop over the tags does not write the osm_id field. *)
Lemma fold_project_osm_id o L tags : forall st,
  GetRawField (fst (fold_left (project_tag o L) tags st)) (m_nIndexOSMId L)
  = GetRawField (fst st) (m_nIndexOSMId L).
Proof.
  induction tags as [| t tags IH]; intros [f buf]; [done |].
  cbn [fold_left]. rewrite IH, project_tag_feature. cbn [fst].
  destruct (GetFieldIndex L (pszK t) >=? 0); simpl; [| done].
  destruct (Z.eqb_spec (GetFieldIndex L (pszK t)) (m_nIndexOSMId L)); simpl; [done |].
  by apply GetRawField_SetField_ne.
Qed.

Section WholeCall.
Context `{External}.

(** The fields that lines 589-624 may write. *)
Lemma set_metadata_spec L f psInfo :
  nFID (set_metadata L f psInfo) = nFID f
  ∧ length (fields (set_metadata L f psInfo)) = length (fields f)
  ∧ forall i,
      Forall (fun name => OGRFeatureDefn_GetFieldIndex (m_poFeatureDefn L) name ≠ i)
             ["osm_version"; "osm_timestamp"; "osm_uid"; "osm_user"; "osm_changeset"] ->
      GetRawField (set_metadata L f psInfo) i = GetRawField f i.
Proof.
  unfold set_metadata, SetFieldByName. cbv zeta.
  split; [| split].
  - repeat (match goal with |- context [if ?c then _ else _] => destruct c end;
            rewrite ?SetField_nFID);
      try done; by destruct (OGRParseXMLDateTime _); rewrite ?SetField_nFID.
  - repeat (match goal with |- context [if ?c then _ else _] => destruct c end;
            rewrite ?SetField_length);
      try done; by destruct (OGRParseXMLDateTime _); rewrite ?SetField_length.
  - intros i Hall.
    apply Forall_cons in Hall as [N1 Hall]. apply Forall_cons in Hall as [N2 Hall].
    apply Forall_cons in Hall as [N3 Hall]. apply Forall_cons in Hall as [N4 Hall].
    apply Forall_cons in Hall as [N5 _].
    repeat (match goal with |- context [if ?c then _ else _] => destruct c end;
            rewrite ?GetRawField_SetField_ne by congruence);
      try done;
      by destruct (OGRParseXMLDateTime _); rewrite ?GetRawField_SetField_ne by congruence.
Qed.

Lemma store_result_spec oAttr f r :
  nFID (store_result oAttr f r) = nFID f
  ∧ length (fields (store_result oAttr f r)) = length (fields f)
  ∧ forall i, nIndex oAttr ≠ i ->
      GetRawField (store_result oAttr f r) i = GetRawField f i.
Proof.
  unfold store_result.
  repeat case_match; subst;
    rewrite ?SetField_nFID, ?SetField_length; (split; [done |]); (split; [done |]);
    intros i Hne; rewrite ?GetRawField_SetField_ne by congruence; done.
Qed.

Lemma eval_attribute_spec L pasTags oAttr f :
  nFID (fst (eval_attribute L pasTags oAttr f)) = nFID f
  ∧ length (fields (fst (eval_attribute L pasTags oAttr f))) = length (fields f)
  ∧ forall i, nIndex oAttr ≠ i ->
      GetRawField (fst (eval_attribute L pasTags oAttr f)) i = GetRawField f i.
Proof.
  unfold eval_attribute. destruct (bHardcodedZOrder oAttr); simpl.
  - rewrite SetField_nFID, SetField_length. do 2 (split; [done |]).
    intros i Hne. by rewrite GetRawField_SetField_ne by congruence.
  - apply store_result_spec.
Qed.

(** The loop of line 688 writes the fields of the attributes, and no other. *)
Lemma eval_attributes_spec L pasTags attrs : forall f,
  nFID (fst (eval_attributes L pasTags attrs f)) = nFID f
  ∧ length (fields (fst (eval_attributes L pasTags attrs f))) = length (fields f)
  ∧ forall i, Forall (fun a => nIndex a ≠ i) attrs ->
      GetRawField (fst (eval_attributes L pasTags attrs f)) i = GetRawField f i.
Proof.
  induction attrs as [| oAttr attrs IH]; intros f; simpl; [done |].
  destruct (eval_attribute_spec L pasTags oAttr f) as (A1 & A2 & A3).
  destruct (eval_attribute L pasTags oAttr f) as [f1 oAttr1]. simpl in *.
  destruct (IH f1) as (B1 & B2 & B3).
  destruct (eval_attributes L pasTags attrs f1) as [f2 attrs2]. simpl in *.
  split; [congruence |]. split; [congruence |].
  intros i Hall. apply Forall_cons in Hall as [Hne Hall].
  rewrite B3 by done. by apply A3.
Qed.

Lemma SetFieldsFromTags_feature o L f nID bIsWayID pasTags psInfo :
  fst (SetFieldsFromTags o L f nID bIsWayID pasTags psInfo)
  = fst (eval_attributes L pasTags (m_oComputedAttributes L)
           (fst (store_aggregate o L
                   (project_tags o L
                      (set_metadata L (set_identifier L f nID bIsWayID) psInfo)
                      pasTags)))).
Proof.
  unfold SetFieldsFromTags. cbv zeta.
  destruct (store_aggregate o L _) as [f1 buf]. cbn [fst].
  by destruct (eval_attributes L pasTags _ f1).
Qed.

Lemma before_attributes_length o L f nID bIsWayID pasTags psInfo :
  length (fields (fst (store_aggregate o L
                         (project_tags o L
                            (set_metadata L (set_identifier L f nID bIsWayID) psInfo)
                            pasTags))))
  = length (fields f).
Proof.
  destruct (set_metadata_spec L (set_identifier L f nID bIsWayID) psInfo)
    as (_ & M2 & _).
  destruct (project_tags o L _ pasTags) as [f1 buf1] eqn:Ep.
  assert (P2 : length (fields f1) = length (fields f)).
  { change f1 with (fst (f1, buf1)). rewrite <- Ep. unfold project_tags.
    rewrite fold_project_length. simpl. by rewrite M2, set_identifier_length. }
  rewrite store_aggregate_feature.
  by destruct (negb (String.eqb buf1 "")); rewrite ?SetField_length.
Qed.

(** In a layer that is in order, the field of a name without a colon is not
    the field that the definition finds for another name. *)
Lemma wf_field_of_other_name o L name i other :
  layer_wf o L -> m_oMapFieldNameToIndex L !! name = Some i ->
  find_char ":" name 0 = None -> other ≠ name ->
  OGRFeatureDefn_GetFieldIndex (m_poFeatureDefn L) other ≠ i.
Proof.
  intros Hwf Hl Hplain Hne E.
  destruct (wf_fields _ _ Hwf _ _ Hl) as (H0 & d & Hd & Hn).
  rewrite GetLaunderedFieldName_plain in Hn by done.
  unfold OGRFeatureDefn_GetFieldIndex in E.
  destruct (defn_index_from_found (m_poFeatureDefn L) other 0 i ltac:(lia) E ltac:(lia))
    as (_ & d' & Hd' & Hn').
  rewrite Z.sub_0_r in Hd'. congruence.
Qed.

(** The index that the layer keeps for a name is -1 or the one of the map. *)
Lemma wf_index_of_name o L name i key :
  layer_wf o L -> m_oMapFieldNameToIndex L !! name = Some i -> name ≠ key ->
  GetFieldIndex L key ≠ i.
Proof.
  intros Hwf Hl Hne E. unfold GetFieldIndex in E.
  destruct (m_oMapFieldNameToIndex L !! key) as [j |] eqn:Hk.
  - subst j. by apply Hne, (wf_inj _ _ Hwf _ _ i).
  - destruct (wf_fields _ _ Hwf _ _ Hl) as (H0 & _). lia.
Qed.

(** X12: whatever the layer, the entity, its tags and its metadata, the
    feature leaves [SetFieldsFromTags] with the identifier of the entity as
    its FID and with as many fields as it had; and the layer leaves it with
    the schema it had: the same definition, name map, indices and ignored
    keys, and computed attributes of the same names and fields. *)
Theorem the_call_sets_the_FID_and_keeps_the_schema (o : OSMOptions) (L : OGROSMLayer)
    (f : OGRFeature) (nID : Z) (bIsWayID : bool) (pasTags : list OSMTag)
    (psInfo : OSMInfo) :
  let r := SetFieldsFromTags o L f nID bIsWayID pasTags psInfo in
  nFID (fst r) = nID
  ∧ length (fields (fst r)) = length (fields f)
  ∧ m_poFeatureDefn (snd r) = m_poFeatureDefn L
  ∧ m_oMapFieldNameToIndex (snd r) = m_oMapFieldNameToIndex L
  ∧ aoSetIgnoreKeys (snd r) = aoSetIgnoreKeys L
  ∧ (osName <$> m_oComputedAttributes (snd r)) = (osName <$> m_oComputedAttributes L)
  ∧ (nIndex <$> m_oComputedAttributes (snd r)) = (nIndex <$> m_oComputedAttributes L).
Proof.
  intros r. subst r. rewrite SetFieldsFromTags_feature.
  destruct (eval_attributes_spec L pasTags (m_oComputedAttributes L)
              (fst (store_aggregate o L
                      (project_tags o L
                         (set_metadata L (set_identifier L f nID bIsWayID) psInfo)
                         pasTags)))) as (E1 & E2 & _).
  destruct (set_metadata_spec L (set_identifier L f nID bIsWayID) psInfo)
    as (M1 & M2 & _).
  rewrite E1, E2.
  destruct (project_tags o L _ pasTags) as [f1 buf1] eqn:Ep.
  assert (P1 : nFID f1 = nID).
  { change f1 with (fst (f1, buf1)). rewrite <- Ep. unfold project_tags.
    rewrite fold_project_nFID. simpl. by rewrite M1, set_identifier_nFID. }
  assert (P2 : length (fields f1) = length (fields f)).
  { change f1 with (fst (f1, buf1)). rewrite <- Ep. unfold project_tags.
    rewrite fold_project_length. simpl. by rewrite M2, set_identifier_length. }
  rewrite store_aggregate_feature.
  split; [by destruct (negb _); rewrite ?SetField_nFID |].
  split; [by destruct (negb (String.eqb buf1 "")); rewrite ?SetField_length |].
  unfold SetFieldsFromTags. cbv zeta. rewrite Ep.
  destruct (store_aggregate o L (f1, buf1)) as [f2 buf2].
  assert (G : forall attrs g,
            (osName <$> snd (eval_attributes L pasTags attrs g)) = (osName <$> attrs)
            ∧ (nIndex <$> snd (eval_attributes L pasTags attrs g)) = (nIndex <$> attrs)).
  { clear. induction attrs as [| a attrs IH]; intros g; [done |].
    cbn [eval_attributes].
    destruct (eval_attribute L pasTags a g) as [g1 a1] eqn:Ea.
    destruct (IH g1) as [I1 I2].
    destruct (eval_attributes L pasTags attrs g1) as [g2 attrs2]. cbn [snd] in *.
    assert (osName a1 = osName a ∧ nIndex a1 = nIndex a) as [E1 E2].
    { unfold eval_attribute, eval_general in Ea.
      destruct (bHardcodedZOrder a); [by injection Ea as _ <- |].
      destruct (do_step _) as [r st]. by injection Ea as _ <-. }
    by rewrite !fmap_cons, I1, I2, E1, E2. }
  destruct (G (m_oComputedAttributes L) f2) as [G1 G2].
  destruct (eval_attributes L pasTags (m_oComputedAttributes L) f2) as [f3 attrs3].
  simpl in *. done.
Qed.

(** X13: in a layer that is in order and has the osm_id field, the field
    holds at the end of [SetFieldsFromTags] the identifier of the entity (a
    node, a way stored as a line, a relation), as line 574 wrote it: neither
    the metadata, nor a tag (not even one with the key osm_id), nor the
    aggregate, nor a computed attribute has overwritten it. *)
Theorem osm_id_is_not_overwritten (o : OSMOptions) (L : OGROSMLayer)
    (f : OGRFeature) (nID : Z) (pasTags : list OSMTag) (psInfo : OSMInfo) :
  layer_wf o L -> m_bHasOSMId L = true ->
  0 <= m_nIndexOSMId L < Z.of_nat (length (fields f)) ->
  GetRawField (fst (SetFieldsFromTags o L f nID false pasTags psInfo)) (m_nIndexOSMId L)
  = Some (OFString (CPL_FRMT_GIB nID)).
Proof.
  intros Hwf Hhas Hidx.
  assert (Hmap : m_oMapFieldNameToIndex L !! "osm_id" = Some (m_nIndexOSMId L)).
  { pose proof (wf_osm_id _ _ Hwf) as E. unfold GetFieldIndex in E.
    destruct (m_oMapFieldNameToIndex L !! "osm_id") as [j |]; [congruence | lia]. }
  rewrite SetFieldsFromTags_feature.
  destruct (eval_attributes_spec L pasTags (m_oComputedAttributes L)
              (fst (store_aggregate o L
                      (project_tags o L
                         (set_metadata L (set_identifier L f nID false) psInfo)
                         pasTags)))) as (_ & _ & E3).
  rewrite E3.
  2:{ apply Forall_forall. intros a Hin. by apply (wf_apart _ _ Hwf "osm_id"). }
  destruct (project_tags o L _ pasTags) as [f1 buf1] eqn:Ep.
  rewrite store_aggregate_feature.
  assert (Hagg : (if m_nIndexAllTags L >=? 0 then m_nIndexAllTags L
                  else m_nIndexOtherTags L) ≠ m_nIndexOSMId L).
  { rewrite (wf_all_tags _ _ Hwf), (wf_other_tags _ _ Hwf).
    destruct (GetFieldIndex L "all_tags" >=? 0);
      by apply (wf_index_of_name o L "osm_id"). }
  assert (P : GetRawField f1 (m_nIndexOSMId L) = Some (OFString (CPL_FRMT_GIB nID))).
  { change f1 with (fst (f1, buf1)). rewrite <- Ep. unfold project_tags.
    rewrite fold_project_osm_id. simpl.
    destruct (set_metadata_spec L (set_identifier L f nID false) psInfo) as (_ & _ & M3).
    rewrite M3.
    - unfold set_identifier. simpl. rewrite Hhas.
      apply GetRawField_SetField_eq. simpl. lia.
    - repeat (apply Forall_cons; split;
              [by apply (wf_field_of_other_name o L "osm_id") |]).
      constructor. }
  destruct (negb (String.eqb buf1 "")); [| done].
  by rewrite GetRawField_SetField_ne by congruence.
Qed.

(** X14: in a layer that is in order, a tag whose key has a field, other
    than osm_id, all_tags and other_tags, and which no later tag of the entity
    repeats, is in that field when [SetFieldsFromTags] returns: what the loop
    over the tags stored is overwritten neither by the aggregate nor by a
    computed attribute, and it has itself overwritten what the identifier or
    the metadata had put there. *)
Theorem tag_value_survives_the_call (o : OSMOptions) (L : OGROSMLayer)
    (f : OGRFeature) (nID : Z) (bIsWayID : bool) (pre post : list OSMTag)
    (t : OSMTag) (psInfo : OSMInfo) (i : Z) :
  layer_wf o L -> fits L f ->
  m_oMapFieldNameToIndex L !! pszK t = Some i ->
  pszK t ∉ ["osm_id"; "all_tags"; "other_tags"] ->
  Forall (fun t' => pszK t' ≠ pszK t) post ->
  GetRawField (fst (SetFieldsFromTags o L f nID bIsWayID (pre ++ t :: post)%list psInfo)) i
  = Some (OFString (pszV t)).
Proof.
  intros Hwf Hfit Hmap Hkey Hpost.
  apply not_elem_of_cons in Hkey as [K1 Hkey].
  apply not_elem_of_cons in Hkey as [K2 Hkey].
  apply not_elem_of_cons in Hkey as [K3 _].
  assert (Hidx : GetFieldIndex L (pszK t) = i) by (unfold GetFieldIndex; by rewrite Hmap).
  assert (Hid : m_nIndexOSMId L ≠ i).
  { rewrite (wf_osm_id _ _ Hwf). by apply (wf_index_of_name o L (pszK t)). }
  assert (Hagg : (if m_nIndexAllTags L >=? 0 then m_nIndexAllTags L
                  else m_nIndexOtherTags L) ≠ i).
  { rewrite (wf_all_tags _ _ Hwf), (wf_other_tags _ _ Hwf).
    destruct (GetFieldIndex L "all_tags" >=? 0);
      by apply (wf_index_of_name o L (pszK t)). }
  rewrite SetFieldsFromTags_feature.
  destruct (eval_attributes_spec L (pre ++ t :: post)%list (m_oComputedAttributes L)
              (fst (store_aggregate o L
                      (project_tags o L
                         (set_metadata L (set_identifier L f nID bIsWayID) psInfo)
                         (pre ++ t :: post)%list)))) as (_ & _ & E3).
  rewrite E3.
  2:{ apply Forall_forall. intros a Hin. by apply (wf_apart _ _ Hwf (pszK t)). }
  set (f0 := set_metadata L (set_identifier L f nID bIsWayID) psInfo) in *.
  assert (Hlen : length (fields f0) = length (fields f)).
  { subst f0. destruct (set_metadata_spec L (set_identifier L f nID bIsWayID) psInfo)
      as (_ & -> & _). apply set_identifier_length. }
  assert (P : GetRawField (fst (project_tags o L f0 (pre ++ t :: post)%list)) i
              = Some (OFString (pszV t))).
  { replace (pre ++ t :: post)%list with ((pre ++ [t]) ++ post)%list
      by (by rewrite <- app_assoc).
    rewrite project_tags_app, fold_project_other.
    - rewrite project_tags_snoc.
      destruct (project_tags o L f0 pre) as [f' buf'] eqn:E.
      rewrite project_tag_feature, Hidx.
      destruct (Hfit _ _ Hmap) as [H0 Hlt].
      destruct (Z.geb_spec i 0); [| lia].
      destruct (Z.eqb_spec i (m_nIndexOSMId L)); [congruence |]. simpl.
      apply GetRawField_SetField_eq.
      assert (Hlen' : length (fields f') = length (fields f0)).
      { change f' with (fst (f', buf')). rewrite <- E. apply fold_project_length. }
      rewrite Hlen', Hlen. lia.
    - eapply Forall_impl; [exact Hpost |]. intros t' Hne. simpl in Hne.
      apply (wf_index_of_name o L (pszK t)); [done | done | congruence]. }
  destruct (project_tags o L f0 (pre ++ t :: post)%list) as [f1 buf1].
  rewrite store_aggregate_feature. simpl in P.
  destruct (negb (String.eqb buf1 "")); [| done].
  by rewrite GetRawField_SetField_ne by congruence.
Qed.

End WholeCall.

Lemma way_layer_wf : layer_wf plain_options way_layer.
Proof. apply (@setup_wf_from null_rows). apply new_layer_wf. Qed.

(** X13 on a node 42 that bears a tag osm_id: the field holds 42. *)
Lemma osm_id_witness :
  GetRawField
    (fst (@SetFieldsFromTags null_rows plain_options way_layer
            (OGRFeature_new (m_poFeatureDefn way_layer)) 42 false odd_way no_info))
    (m_nIndexOSMId way_layer)
  = Some (OFString "42").
Proof.
  apply (@osm_id_is_not_overwritten null_rows plain_options way_layer
           (OGRFeature_new (m_poFeatureDefn way_layer)) 42 odd_way no_info
           way_layer_wf eq_refl).
  vm_compute. split; [discriminate | reflexivity].
Defined.

(** X14 on a way 42 stored as a polygon, which bears a tag osm_way_id: the
    field osm_way_id holds the value of the tag, not 42. *)
Lemma tag_value_survives_witness :
  GetRawField
    (fst (@SetFieldsFromTags null_rows plain_options way_layer
            (OGRFeature_new (m_poFeatureDefn way_layer)) 42 true odd_way no_info))
    (m_nIndexOSMWayId way_layer)
  = Some (OFString "8").
Proof.
  apply (@tag_value_survives_the_call null_rows plain_options way_layer
           (OGRFeature_new (m_poFeatureDefn way_layer)) 42 true
           [mkTag "osm_id" "7"] [mkTag "name" "Main St"] (mkTag "osm_way_id" "8")
           no_info (m_nIndexOSMWayId way_layer) way_layer_wf).
  - apply schema_ok_fits. intros name i Hl.
    destruct (wf_fields _ _ way_layer_wf _ _ Hl) as (H0 & d & Hd & _).
    apply lookup_lt_Some in Hd. unfold GetFieldCount. lia.
  - reflexivity.
  - intros Hin. repeat (apply elem_of_cons in Hin as [Hin | Hin]; [discriminate Hin |]).
    by apply elem_of_nil in Hin.
  - repeat constructor. discriminate.
Defined.

(** ** The escaping of keys and values *)

Lemma string_app_cons x (a b : string) : String x a ++ b = String x (a ++ b).
Proof. reflexivity. Qed.

Lemma string_app_nil_l (a : string) : "" ++ a = a.
Proof. reflexivity. Qed.

Lemma string_app_assoc (a b c : string) : (a ++ b) ++ c = a ++ (b ++ c).
Proof.
  induction a as [| x a IH]; [done |]. rewrite !string_app_cons. by rewrite IH.
Qed.

Lemma string_app_nil_r (a : string) : a ++ "" = a.
Proof. induction a as [| x a IH]; [done |]. rewrite string_app_cons. by rewrite IH. Qed.

Lemma json_body_cons c t : json_body (String c t) = json_char c ++ json_body t.
Proof. reflexivity. Qed.

(** The reader gets the character back from what was written for it. *)
Lemma json_first_char c r : json_first (json_char c ++ r) = Some c.
Proof. destruct c as [[] [] [] [] [] [] [] []]; reflexivity. Qed.

Lemma json_char_scan c r pos :
  closing_quote_from pos (json_char c ++ r)
  = closing_quote_from (String.length (json_char c) + pos) r.
Proof. destruct c as [[] [] [] [] [] [] [] []]; reflexivity. Qed.

Lemma json_char_printable c :
  forallb (fun x => (32 <=? nat_of_ascii x)%nat) (list_ascii_of_string (json_char c))
  = (32 <=? nat_of_ascii c)%nat || (nat_of_ascii c <? 32)%nat.
Proof. destruct c as [[] [] [] [] [] [] [] []]; reflexivity. Qed.

Lemma list_ascii_of_string_app a b :
  list_ascii_of_string (a ++ b)
  = (list_ascii_of_string a ++ list_ascii_of_string b)%list.
Proof.
  induction a as [| x a IH]; [done |]. rewrite string_app_cons. simpl. by rewrite IH.
Qed.

(** A quoted JSON value is read back whatever follows it. *)
Lemma json_body_inj v1 : forall v2 r1 r2,
  json_body v1 ++ String dquote r1 = json_body v2 ++ String dquote r2 ->
  v1 = v2 ∧ r1 = r2.
Proof.
  induction v1 as [| c1 t1 IH]; intros [| c2 t2] r1 r2 E.
  - simpl in E. by injection E as ->.
  - rewrite json_body_cons, string_app_assoc in E.
    apply (f_equal json_first) in E. rewrite json_first_char in E. discriminate E.
  - rewrite json_body_cons, string_app_assoc in E.
    apply (f_equal json_first) in E. rewrite json_first_char in E. discriminate E.
  - rewrite !json_body_cons, !string_app_assoc in E.
    assert (c1 = c2) as ->.
    { apply (f_equal json_first) in E. rewrite !json_first_char in E. congruence. }
    apply String.app_inj in E. destruct (IH _ _ _ E) as [-> ->]. done.
Qed.

Lemma json_body_scan v : forall pos rest,
  closing_quote_from pos (json_body v ++ String dquote rest)
  = Some (String.length (json_body v) + pos)%nat.
Proof.
  induction v as [| c t IH]; intros pos rest; [done |].
  rewrite json_body_cons, string_app_assoc, json_char_scan, IH, length_append.
  f_equal. lia.
Qed.

Lemma hstore_body_inj v1 : forall v2 r1 r2,
  hstore_body v1 ++ String dquote r1 = hstore_body v2 ++ String dquote r2 ->
  v1 = v2 ∧ r1 = r2.
Proof.
  induction v1 as [| c1 t1 IH]; intros [| c2 t2] r1 r2 E; simpl in E.
  - by injection E as ->.
  - exfalso. destruct (Ascii.eqb_spec c2 dquote) as [-> | Hq]; simpl in E;
      [discriminate E |].
    destruct (Ascii.eqb_spec c2 backslash); simpl in E;
      [discriminate E | injection E as E _; congruence].
  - exfalso. destruct (Ascii.eqb_spec c1 dquote) as [-> | Hq]; simpl in E;
      [discriminate E |].
    destruct (Ascii.eqb_spec c1 backslash); simpl in E;
      [discriminate E | injection E as E _; congruence].
  - destruct (Ascii.eqb_spec c1 dquote) as [-> | Hq1], (Ascii.eqb_spec c2 dquote) as [-> | Hq2];
      simpl in E.
    + injection E as E. destruct (IH _ _ _ E) as [-> ->]. done.
    + destruct (Ascii.eqb_spec c2 backslash) as [-> | Hb2]; simpl in E.
      * injection E as E. discriminate E.
      * injection E as E _. by subst c2.
    + destruct (Ascii.eqb_spec c1 backslash) as [-> | Hb1]; simpl in E.
      * injection E as E. discriminate E.
      * injection E as E _. by subst c1.
    + destruct (Ascii.eqb_spec c1 backslash) as [-> | Hb1],
               (Ascii.eqb_spec c2 backslash) as [-> | Hb2]; simpl in E.
      * injection E as E. destruct (IH _ _ _ E) as [-> ->]. done.
      * injection E as E _. by subst c2.
      * injection E as E _. by subst c1.
      * injection E as -> E. destruct (IH _ _ _ E) as [-> ->]. done.
Qed.

Lemma hstore_body_scan v : forall pos rest,
  closing_quote_from pos (hstore_body v ++ String dquote rest)
  = Some (String.length (hstore_body v) + pos)%nat.
Proof.
  induction v as [| c t IH]; intros pos rest; [done |].
  simpl. destruct (Ascii.eqb_spec c dquote) as [-> | Hq]; simpl.
  - rewrite IH. f_equal. lia.
  - destruct (Ascii.eqb_spec c backslash) as [-> | Hb]; simpl.
    + rewrite IH. f_equal. lia.
    + destruct (Ascii.eqb_spec c dquote); [done |].
      destruct (Ascii.eqb_spec c backslash); [done |].
      rewrite IH. f_equal. lia.
Qed.

(** X15: what [OGROSMEscapeStringHSTORE] appends is the value between two
    double quotes, written so that it can be read back: two values are written
    alike only when they are the same value, and the quote that closes the
    value is the first quote after the opening one that no backslash escapes,
    whatever is appended afterwards. *)
Theorem hstore_escape_reads_back (v1 v2 sOut : string) :
  (OGROSMEscapeStringHSTORE v1 sOut = OGROSMEscapeStringHSTORE v2 sOut <-> v1 = v2)
  ∧ exists body,
      OGROSMEscapeStringHSTORE v1 sOut = sOut ++ String dquote (body ++ String dquote "")
      ∧ (String.length v1 <= String.length body <= 2 * String.length v1)%nat
      ∧ forall rest,
          closing_quote (body ++ String dquote rest) = Some (String.length body).
Proof.
  split.
  - split; [| by intros ->]. unfold OGROSMEscapeStringHSTORE. intros E.
    apply String.app_inj in E. injection E as E.
    by destruct (hstore_body_inj _ _ _ _ E).
  - exists (hstore_body v1). split; [done |]. split.
    + induction v1 as [| c t IH]; simpl; [lia |].
      destruct (Ascii.eqb c dquote || Ascii.eqb c backslash); simpl; lia.
    + intros rest. unfold closing_quote. rewrite hstore_body_scan. f_equal. lia.
Qed.

(** X16: what [OGROSMEscapeStringJSON] appends is the value between two
    double quotes, written so that it can be read back: two values are written
    alike only when they are the same value; no character below 0x20 is
    written; and the quote that closes the value is the first quote after the
    opening one that no backslash escapes, whatever is appended afterwards. *)
Theorem json_escape_reads_back (v1 v2 sOut : string) :
  (OGROSMEscapeStringJSON v1 sOut = OGROSMEscapeStringJSON v2 sOut <-> v1 = v2)
  ∧ exists body,
      OGROSMEscapeStringJSON v1 sOut = sOut ++ String dquote (body ++ String dquote "")
      ∧ Forall (fun x => (32 <= nat_of_ascii x)%nat) (list_ascii_of_string body)
      ∧ forall rest,
          closing_quote (body ++ String dquote rest) = Some (String.length body).
Proof.
  split.
  - split; [| by intros ->]. unfold OGROSMEscapeStringJSON. intros E.
    apply String.app_inj in E. injection E as E.
    by destruct (json_body_inj _ _ _ _ E).
  - exists (json_body v1). split; [done |]. split.
    + induction v1 as [| c t IH]; [constructor |].
      rewrite json_body_cons, list_ascii_of_string_app. apply Forall_app. split; [| done].
      pose proof (json_char_printable c) as Hp.
      assert (Hall : forallb (fun x => (32 <=? nat_of_ascii x)%nat)
                       (list_ascii_of_string (json_char c)) = true).
      { rewrite Hp. destruct (Nat.leb_spec 32 (nat_of_ascii c)); [done |].
        simpl. apply Nat.ltb_lt. lia. }
      apply Forall_forall. intros x Hx.
      rewrite forallb_forall in Hall. apply Nat.leb_le, Hall.
      by apply list_elem_of_In.
    + intros rest. unfold closing_quote. rewrite json_body_scan. f_equal. lia.
Qed.

(** ** The text of the aggregate *)

Lemma project_tag_listed o L f buf t :
  snd (project_tag o L (f, buf) t)
  = if listed L t then append_entry (m_bTagsAsHSTORE o) buf t else buf.
Proof.
  unfold project_tag, listed. cbv zeta.
  destruct (Z.geb_spec (GetFieldIndex L (pszK t)) 0),
           (Z.eqb_spec (GetFieldIndex L (pszK t)) (m_nIndexOSMId L)),
           (Z.ltb_spec (m_nIndexAllTags L) 0),
           (Z.geb_spec (m_nIndexAllTags L) 0),
           (Z.geb_spec (m_nIndexOtherTags L) 0),
           (AddInOtherOrAllTags (aoSetIgnoreKeys L) (pszK t));
    simpl; try done; lia.
Qed.

Lemma fold_project_buffer o L tags : forall f buf,
  snd (fold_left (project_tag o L) tags (f, buf))
  = fold_left (append_entry (m_bTagsAsHSTORE o)) (List.filter (listed L) tags) buf.
Proof.
  induction tags as [| t tags IH]; intros f buf; [done |].
  cbn [fold_left List.filter].
  pose proof (project_tag_listed o L f buf t) as E.
  destruct (project_tag o L (f, buf) t) as [f' buf']. simpl in E. subst buf'.
  rewrite IH. by destruct (listed L t).
Qed.

Lemma append_entry_text h buf t :
  append_entry h buf t
  = (if String.eqb buf "" then (if h then "" else "{") else buf ++ ",") ++ entry h t.
Proof.
  unfold append_entry, entry, OGROSMEscapeStringHSTORE, OGROSMEscapeStringJSON.
  destruct h, (String.eqb_spec buf "") as [-> | Hne]; cbv zeta; simpl negb; cbv iota;
    rewrite ?string_app_nil_l, ?string_app_assoc; reflexivity.
Qed.

Lemma fold_append_entries h es : forall buf,
  buf ≠ "" -> fold_left (append_entry h) es buf = buf ++ more_entries h es.
Proof.
  induction es as [| t es IH]; intros buf Hne; simpl.
  - by rewrite string_app_nil_r.
  - rewrite IH by apply append_entry_nonempty.
    rewrite append_entry_text.
    destruct (String.eqb_spec buf ""); [done |].
    by rewrite !string_app_assoc.
Qed.

Lemma buffer_text h es :
  fold_left (append_entry h) es ""
  = match es with
    | [] => ""
    | t :: rest => (if h then "" else "{") ++ entry h t ++ more_entries h rest
    end.
Proof.
  destruct es as [| t rest]; [done |]. simpl.
  rewrite fold_append_entries by apply append_entry_nonempty.
  rewrite append_entry_text. simpl. by rewrite string_app_assoc.
Qed.

Lemma GetFieldIndex_Some L name :
  0 <= GetFieldIndex L name ->
  m_oMapFieldNameToIndex L !! name = Some (GetFieldIndex L name).
Proof.
  unfold GetFieldIndex. destruct (m_oMapFieldNameToIndex L !! name); [done | lia].
Qed.

Section AggregateText.
Context `{External}.

(** X17: the aggregate of an entity lists, in the order of the entity, the
    tags that go into it: those whose key [AddInOtherOrAllTags] lets through
    and, when the aggregate is other_tags, whose key has no field of its own.
    Each is written as the quoted key, => (HSTORE) or a colon (JSON), and the
    quoted value; the entries are separated by commas and, in JSON, put in
    braces.  [SetFieldsFromTags] leaves this text in m_osAllTagsBuffer and,
    when there is such a tag, in the all_tags field if the layer has one and
    else in the other_tags field, where no computed attribute overwrites
    it. *)
Theorem aggregate_lists_the_tags (o : OSMOptions) (L : OGROSMLayer)
    (f : OGRFeature) (nID : Z) (bIsWayID : bool) (pasTags : list OSMTag)
    (psInfo : OSMInfo) :
  layer_wf o L -> fits L f ->
  let es := List.filter (listed L) pasTags in
  let r := SetFieldsFromTags o L f nID bIsWayID pasTags psInfo in
  m_osAllTagsBuffer (snd r) = aggregate_text (m_bTagsAsHSTORE o) es
  ∧ (es ≠ [] ->
     GetRawField (fst r) (aggregate_index L)
     = Some (OFString (aggregate_text (m_bTagsAsHSTORE o) es))).
Proof.
  intros Hwf Hfit es r.
  set (f0 := set_metadata L (set_identifier L f nID bIsWayID) psInfo).
  assert (Hlen0 : length (fields f0) = length (fields f)).
  { subst f0. destruct (set_metadata_spec L (set_identifier L f nID bIsWayID) psInfo)
      as (_ & -> & _). apply set_identifier_length. }
  assert (Hbuf : snd (project_tags o L f0 pasTags)
                 = match es with
                   | [] => ""
                   | t :: rest =>
                       (if m_bTagsAsHSTORE o then "" else "{")
                       ++ entry (m_bTagsAsHSTORE o) t
                       ++ more_entries (m_bTagsAsHSTORE o) rest
                   end).
  { unfold project_tags. rewrite fold_project_buffer. apply buffer_text. }
  assert (Hlen1 : length (fields (fst (project_tags o L f0 pasTags))) = length (fields f)).
  { unfold project_tags. by rewrite fold_project_length. }
  assert (Htext : forall t rest, es = t :: rest ->
            (if negb (m_bTagsAsHSTORE o)
             then snd (project_tags o L f0 pasTags) ++ "}"
             else snd (project_tags o L f0 pasTags))
            = aggregate_text (m_bTagsAsHSTORE o) es).
  { intros t rest E. rewrite Hbuf, E. unfold aggregate_text.
    destruct (m_bTagsAsHSTORE o); simpl negb; cbv iota.
    - by rewrite string_app_nil_r.
    - by rewrite !string_app_assoc. }
  assert (Hne : forall t rest, es = t :: rest -> snd (project_tags o L f0 pasTags) ≠ "").
  { intros t rest E. rewrite Hbuf, E.
    destruct (m_bTagsAsHSTORE o); [| discriminate].
    unfold entry, OGROSMEscapeStringHSTORE. discriminate. }
  split.
  - subst r. unfold SetFieldsFromTags. cbv zeta. fold f0.
    destruct (project_tags o L f0 pasTags) as [f1 buf1]. simpl in Hbuf, Htext, Hne.
    unfold store_aggregate.
    destruct es as [| t rest] eqn:Ees.
    + rewrite Hbuf. simpl.
      by destruct (eval_attributes L pasTags (m_oComputedAttributes L) f1).
    + specialize (Htext _ _ eq_refl). specialize (Hne _ _ eq_refl).
      destruct (String.eqb_spec buf1 ""); [done |]. simpl negb. cbv iota.
      rewrite Htext.
      destruct (m_nIndexAllTags L >=? 0);
        by destruct (eval_attributes L pasTags (m_oComputedAttributes L) _).
  - intros Hes. destruct es as [| t rest] eqn:Ees; [done |].
    specialize (Htext _ _ eq_refl). specialize (Hne _ _ eq_refl).
    assert (Hmap : exists name,
              m_oMapFieldNameToIndex L !! name = Some (aggregate_index L)).
    { assert (Hin : t ∈ List.filter (listed L) pasTags)
        by (fold es; rewrite Ees; by left).
      apply list_elem_of_In, filter_In in Hin as [_ Hl].
      unfold listed in Hl. apply andb_true_iff in Hl as [Hl _].
      unfold aggregate_index.
      destruct (Z.geb_spec (m_nIndexAllTags L) 0) as [Hall | Hall].
      - exists "all_tags". rewrite (wf_all_tags _ _ Hwf) in *.
        by apply GetFieldIndex_Some.
      - simpl in Hl. apply andb_true_iff in Hl as [Hother _].
        exists "other_tags". rewrite (wf_other_tags _ _ Hwf) in *.
        apply GetFieldIndex_Some. by apply Z.geb_le in Hother. }
    destruct Hmap as [name Hmap].
    subst r. rewrite SetFieldsFromTags_feature. fold f0.
    destruct (eval_attributes_spec L pasTags (m_oComputedAttributes L)
                (fst (store_aggregate o L (project_tags o L f0 pasTags))))
      as (_ & _ & E3).
    rewrite E3.
    2:{ apply Forall_forall. intros a Hin. by apply (wf_apart _ _ Hwf name). }
    destruct (project_tags o L f0 pasTags) as [f1 buf1]. cbn [fst snd] in *.
    rewrite store_aggregate_feature.
    destruct (String.eqb_spec buf1 ""); [done |]. simpl negb. cbv iota.
    rewrite Htext. fold (aggregate_index L).
    apply GetRawField_SetField_eq. destruct (Hfit _ _ Hmap). lia.
Qed.

End AggregateText.

Lemma tagged_layer_wf : layer_wf plain_options tagged_layer.
Proof. apply (@setup_wf_from null_rows). apply new_layer_wf. Qed.

(** X17 on a way with four tags: name has a field and created_by is
    ignored, so other_tags holds the two others as a JSON object. *)
Lemma aggregate_witness :
  GetRawField
    (fst (@SetFieldsFromTags null_rows plain_options tagged_layer
            (OGRFeature_new (m_poFeatureDefn tagged_layer)) 42 false tagged_way no_info))
    (aggregate_index tagged_layer)
  = Some (OFString (aggregate_text false [mkTag "surface" "paved"; mkTag "note" "a\b"])).
Proof.
  apply (@aggregate_lists_the_tags null_rows plain_options tagged_layer
           (OGRFeature_new (m_poFeatureDefn tagged_layer)) 42 false tagged_way no_info
           tagged_layer_wf).
  - apply schema_ok_fits. intros name i Hl.
    destruct (wf_fields _ _ tagged_layer_wf _ _ Hl) as (H0 & d & Hd & _).
    apply lookup_lt_Some in Hd. unfold GetFieldCount. lia.
  - vm_compute. discriminate.
Defined.

(** ** C4: the namespace rule of the aggregate *)






(** ** C10: an aggregate without entries *)




Section EmptyAggregate.
Context `{External}.


End EmptyAggregate.




(** ** The placeholders of any statement *)

Lemma not_occurs_check c s :
  forallb (fun x => negb (Ascii.eqb x c)) (list_ascii_of_string s) = true ->
  ¬ occurs c s.
Proof.
  unfold occurs. intros Hall Hin. rewrite forallb_forall in Hall.
  specialize (Hall _ Hin). by rewrite Ascii.eqb_refl in Hall.
Qed.

Lemma find_char_split c s : forall p,
  find_char c s 0 = Some p ->
  exists pre rest, s = pre ++ String c rest ∧ String.length pre = p ∧ ¬ occurs c pre.
Proof.
  induction s as [| a s IH]; intros p Hf; simpl in Hf; [done |].
  destruct (Ascii.eqb_spec a c) as [-> | Hne].
  - injection Hf as <-. exists "", s. repeat split. by intros ?.
  - destruct (find_char c s 0) as [q |] eqn:Hq; [| done]. injection Hf as <-.
    destruct (IH q eq_refl) as (pre & rest & -> & <- & Hno).
    exists (String a pre), rest. repeat split.
    intros [E | Hin]; [done | by apply Hno].
Qed.

Lemma find_char_from c d s :
  find_char c (d ++ s) (String.length d)
  = (fun n => (String.length d + n)%nat) <$> find_char c s 0.
Proof.
  induction d as [| x d IH].
  { rewrite string_app_nil_l. simpl String.length. by destruct (find_char c s 0). }
  rewrite string_app_cons. cbn [String.length find_char]. rewrite IH.
  by destruct (find_char c s 0).
Qed.

Lemma char_at_app_l a b : forall i,
  (i < String.length a)%nat -> char_at (a ++ b) i = char_at a i.
Proof.
  unfold char_at. induction a as [| x a IH]; intros i Hi; simpl in Hi; [lia |].
  rewrite string_app_cons. destruct i as [| i]; [done |]. simpl. apply IH. lia.
Qed.

Lemma last_char s :
  s ≠ "" -> Ascii.eqb (char_at s (String.length s - 1)) backslash = ends_with_backslash s.
Proof.
  induction s as [| x s IH]; intros Hne; [done |].
  destruct s as [| y s]; [done |].
  change (ends_with_backslash (String x (String y s)))
    with (ends_with_backslash (String y s)).
  rewrite <- IH by done. unfold char_at. simpl. by rewrite Nat.sub_0_r.
Qed.

Lemma ends_with_backslash_app a b :
  ends_with_backslash (a ++ b)
  = if String.eqb b "" then ends_with_backslash a else ends_with_backslash b.
Proof.
  destruct b as [| z b]; [by rewrite string_app_nil_r |].
  change (String.eqb (String z b) "") with false. cbv iota.
  induction a as [| x a IH]; [done |].
  rewrite string_app_cons.
  destruct (a ++ String z b) as [| y s] eqn:E.
  - destruct a; discriminate E.
  - change (ends_with_backslash (String x (String y s)))
      with (ends_with_backslash (String y s)).
    exact IH.
Qed.

Lemma occurs_app c a b : occurs c (a ++ b) <-> occurs c a ∨ occurs c b.
Proof. unfold occurs. rewrite list_ascii_of_string_app. apply in_app_iff. Qed.

(** The names that the loop binds have no closing bracket. *)
Lemma extract_loop_names defn : forall fuel s start aos an,
  Forall (fun n => ¬ occurs "]" n) aos ->
  Forall (fun n => ¬ occurs "]" n) (ph_attrs (extract_loop fuel defn s start aos an)).
Proof.
  induction fuel as [| fuel IH]; intros s start aos an Hinv; [done |].
  rewrite extract_loop_S.
  destruct (find_char "[" s start) as [nPos |]; [| done].
  destruct ((0 <? nPos)%nat && negb (Ascii.eqb (char_at s (nPos - 1)) backslash)).
  - destruct (find_char "]" (substr_from s (nPos + 1)) 0) as [nPos2 |] eqn:Hf; [| done].
    apply IH. apply Forall_app. split; [done |]. constructor; [| constructor].
    destruct (find_char_split _ _ _ Hf) as (pre & rest & -> & <- & Hno).
    by rewrite substr_to_app.
  - by apply IH.
Qed.

(** What the loop takes out of the statement is what it binds: a name and
    its two brackets for each question mark. *)
Lemma extract_loop_length defn : forall fuel s start aos an,
  (String.length (ph_sql (extract_loop fuel defn s start aos an))
   + sum_list ((fun n => S (String.length n))
               <$> ph_attrs (extract_loop fuel defn s start aos an)))%nat
  = (String.length s + sum_list ((fun n => S (String.length n)) <$> aos))%nat.
Proof.
  induction fuel as [| fuel IH]; intros s start aos an; [done |].
  rewrite extract_loop_S.
  destruct (find_char "[" s start) as [nPos |] eqn:Hf1; [| done].
  apply find_char_bounds in Hf1.
  destruct ((0 <? nPos)%nat && negb (Ascii.eqb (char_at s (nPos - 1)) backslash)).
  - destruct (find_char "]" (substr_from s (nPos + 1)) 0) as [nPos2 |] eqn:Hf2; [| done].
    apply find_char_bounds in Hf2. rewrite length_substr_from in Hf2.
    rewrite IH, fmap_app, sum_list_with_app || rewrite IH, fmap_app, sum_list_app.
    rewrite !length_append. simpl.
    rewrite !length_substr_to, !length_substr_from. lia.
  - apply IH.
Qed.

(** X18: for every statement given to [AddComputedAttribute] and every
    definition, the loop of lines 1010-1030 leaves as many indices as names,
    each index being what GetFieldIndex answers for the name at that time;
    no name has a closing bracket; the rewritten statement is shorter than
    the statement by the length of each name and one character more for each;
    and a statement without an opening bracket is left as it is, with
    nothing bound. *)
Theorem placeholders_are_looked_up (defn : list OGRFieldDefn) (pszSQL : string) :
  let ph := extract_placeholders defn pszSQL in
  ph_indices ph = (OGRFeatureDefn_GetFieldIndex defn <$> ph_attrs ph)
  ∧ Forall (fun n => ¬ occurs "]" n) (ph_attrs ph)
  ∧ (String.length (ph_sql ph)
     + sum_list ((fun n => S (String.length n)) <$> ph_attrs ph))%nat
    = String.length pszSQL
  ∧ (¬ occurs "[" pszSQL -> ph = mkPlaceholders pszSQL [] []).
Proof.
  intros ph. subst ph. unfold extract_placeholders.
  split; [by apply extract_loop_indices |].
  split; [by apply extract_loop_names |].
  split; [rewrite extract_loop_length; simpl; lia |].
  intros Hno. rewrite extract_loop_S. by rewrite find_char_absent.
Qed.

(** ** A statement with well-formed placeholders *)

Lemma with_brackets_length segs : (length segs <= String.length (with_brackets segs))%nat.
Proof.
  induction segs as [| [n t] segs IH]; simpl; [lia |].
  rewrite !length_append. simpl. rewrite !length_append. lia.
Qed.

Lemma extract_template defn : forall segs fuel d p aos an,
  (length segs < fuel)%nat -> ¬ occurs "[" p -> d ++ p ≠ "" ->
  ends_with_backslash (d ++ p) = false ->
  Forall segment_ok segs ->
  extract_loop fuel defn (d ++ p ++ with_brackets segs) (String.length d) aos an
  = mkPlaceholders (d ++ p ++ with_marks segs)
      (aos ++ (fst <$> segs))%list
      (an ++ ((fun seg => OGRFeatureDefn_GetFieldIndex defn (fst seg)) <$> segs))%list.
Proof.
  induction segs as [| [n t] segs IH]; intros fuel d p aos an Hfuel Hp Hne Hend Hall;
    (destruct fuel as [| fuel]; [lia |]); rewrite extract_loop_S.
  - simpl with_brackets. simpl with_marks. rewrite string_app_nil_r.
    rewrite find_char_from, find_char_absent by done. simpl.
    by rewrite !app_nil_r.
  - apply Forall_cons in Hall as [(Hn & Ht & Hte) Hall]. simpl in Hn, Ht, Hte.
    cbn [with_brackets with_marks fold_right fst snd].
    fold (with_brackets segs). fold (with_marks segs).
    set (W := with_brackets segs).
    assert (Hlen : (0 < String.length (d ++ p))%nat).
    { destruct (d ++ p); [done | simpl; lia]. }
    rewrite find_char_from, find_char_first by done. cbn [fmap option_fmap option_map].
    rewrite <- length_append.
    assert (Hc : (0 <? String.length (d ++ p))%nat
                 && negb (Ascii.eqb (char_at (d ++ p ++ String "[" (n ++ String "]" (t ++ W)))
                                             (String.length (d ++ p) - 1)) backslash)
                 = true).
    { rewrite <- string_app_assoc, char_at_app_l by lia.
      rewrite last_char by done. rewrite Hend.
      by destruct (Nat.ltb_spec 0 (String.length (d ++ p))); [| lia]. }
    rewrite Hc.
    assert (E1 : substr_from (d ++ p ++ String "[" (n ++ String "]" (t ++ W)))
                   (String.length (d ++ p) + 1)
                 = n ++ String "]" (t ++ W)).
    { replace (d ++ p ++ String "[" (n ++ String "]" (t ++ W)))
        with (((d ++ p) ++ "[") ++ n ++ String "]" (t ++ W))
        by (by rewrite !string_app_assoc).
      replace (String.length (d ++ p) + 1)%nat with (String.length ((d ++ p) ++ "["))
        by (rewrite length_append; simpl; lia).
      apply substr_from_app. }
    rewrite E1, find_char_first by done. rewrite substr_to_app.
    assert (E2 : substr_to (d ++ p ++ String "[" (n ++ String "]" (t ++ W)))
                   (String.length (d ++ p))
                 = d ++ p).
    { rewrite <- string_app_assoc. apply substr_to_app. }
    assert (E3 : substr_from (d ++ p ++ String "[" (n ++ String "]" (t ++ W)))
                   (String.length (d ++ p) + 1 + String.length n + 1)
                 = t ++ W).
    { replace (d ++ p ++ String "[" (n ++ String "]" (t ++ W)))
        with ((((d ++ p) ++ "[") ++ n ++ "]") ++ t ++ W)
        by (by rewrite !string_app_assoc).
      replace (String.length (d ++ p) + 1 + String.length n + 1)%nat
        with (String.length (((d ++ p) ++ "[") ++ n ++ "]"))
        by (rewrite !length_append; simpl; lia).
      apply substr_from_app. }
    rewrite E2, E3.
    replace ((d ++ p) ++ "?" ++ t ++ W) with ((d ++ p ++ "?") ++ t ++ W)
      by (by rewrite !string_app_assoc).
    replace (String.length (d ++ p) + 1)%nat with (String.length (d ++ p ++ "?"))
      by (rewrite !length_append; simpl; lia).
    rewrite IH; try done.
    + rewrite !string_app_assoc, <- !app_assoc. reflexivity.
    + simpl in Hfuel. lia.
    + rewrite string_app_assoc. destruct d; [destruct p |]; discriminate.
    + rewrite ends_with_backslash_app.
      destruct (String.eqb_spec t ""); [| done].
      rewrite <- string_app_assoc, ends_with_backslash_app. done.
Qed.

Lemma unescape_no_backslash s : ¬ occurs backslash s -> unescape s = s.
Proof.
  intros Hno. unfold unescape. destruct (String.length s); [done |].
  by rewrite unescape_loop_S, find_char_absent.
Qed.

(** X19: a statement that is a text, not empty, followed by placeholders,
    each a name in brackets and the text after it, where no name has a closing
    bracket and no text has an opening bracket or ends in a backslash, is
    rewritten as meant: every placeholder becomes a question mark, the texts
    are kept, and the names are bound in their order, each with the index
    that GetFieldIndex answers for it.  When the rewritten statement has no
    backslash it is the statement that is prepared. *)
Theorem well_formed_statement_is_rewritten (defn : list OGRFieldDefn)
    (p0 : string) (segs : list (string * string)) :
  p0 ≠ "" -> ¬ occurs "[" p0 -> ends_with_backslash p0 = false ->
  Forall segment_ok segs ->
  let ph := extract_placeholders defn (p0 ++ with_brackets segs) in
  ph = mkPlaceholders (p0 ++ with_marks segs) (fst <$> segs)
         ((fun seg => OGRFeatureDefn_GetFieldIndex defn (fst seg)) <$> segs)
  ∧ (¬ occurs backslash (p0 ++ with_marks segs) ->
     unescape (ph_sql ph) = p0 ++ with_marks segs).
Proof.
  intros Hne Hno Hend Hall ph.
  assert (E : ph = mkPlaceholders (p0 ++ with_marks segs) (fst <$> segs)
                ((fun seg => OGRFeatureDefn_GetFieldIndex defn (fst seg)) <$> segs)).
  { subst ph. unfold extract_placeholders.
    pose proof (extract_template defn segs (S (String.length (p0 ++ with_brackets segs)))
                  "" p0 [] []) as T.
    rewrite !string_app_nil_l in T. apply T; try done.
    pose proof (with_brackets_length segs). rewrite length_append. lia. }
  split; [exact E |]. intros Hb. rewrite E. simpl. by apply unescape_no_backslash.
Qed.

(** X19 on the statement of the attribute total. *)
Lemma well_formed_statement_witness :
  extract_placeholders [] "SELECT [a] + [b]"
  = mkPlaceholders "SELECT ? + ?" ["a"; "b"] [-1; -1].
Proof.
  apply (well_formed_statement_is_rewritten [] "SELECT " [("a", " + "); ("b", "")]).
  - discriminate.
  - by apply not_occurs_check.
  - reflexivity.
  - repeat constructor; simpl; by apply not_occurs_check.
Defined.

(** ** The backslashes of a statement *)

Lemma drop_backslashes_app a b :
  drop_backslashes (a ++ b) = drop_backslashes a ++ drop_backslashes b.
Proof.
  induction a as [| x a IH]; [done |]. rewrite string_app_cons. simpl.
  destruct (Ascii.eqb x backslash); [done |]. by rewrite string_app_cons, IH.
Qed.

Lemma drop_backslashes_none s : ¬ occurs backslash s -> drop_backslashes s = s.
Proof.
  induction s as [| x s IH]; intros Hno; [done |]. simpl.
  destruct (Ascii.eqb_spec x backslash) as [-> | Hne].
  - exfalso. apply Hno. by left.
  - rewrite IH; [done |]. intros Hin. apply Hno. by right.
Qed.

Lemma ends_with_backslash_none s : ¬ occurs backslash s -> ends_with_backslash s = false.
Proof.
  induction s as [| x s IH]; intros Hno; [done |].
  assert (Hx : x ≠ backslash) by (intros ->; apply Hno; by left).
  assert (Hs : ¬ occurs backslash s) by (intros Hin; apply Hno; by right).
  destruct s as [| y s]; simpl; [by destruct (Ascii.eqb_spec x backslash) |].
  by apply IH.
Qed.

(** X20: the loop of lines 1031-1037 takes every backslash out of the
    statement, also one that another backslash precedes, but for a backslash
    that ends the statement, of which one is left: what is prepared is the
    rewritten statement without its backslashes, with one backslash at its end
    when it ended in one.  So a statement without a backslash is prepared as
    it is, and a backslash cannot be written into a statement other than at
    its end. *)
Theorem unescape_drops_every_backslash (osSQL : string) :
  unescape osSQL
  = drop_backslashes osSQL
    ++ (if ends_with_backslash osSQL then String backslash "" else "").
Proof.
  assert (G : forall fuel s,
            (String.length s <= fuel)%nat ->
            unescape_loop fuel s
            = drop_backslashes s
              ++ (if ends_with_backslash s then String backslash "" else "")).
  {
    induction fuel as [| fuel IH]; intros s Hlen.
    - destruct s; [done | simpl in Hlen; lia].
    - rewrite unescape_loop_S.
      destruct (find_char backslash s 0) as [p |] eqn:Hf.
      + destruct (find_char_split _ _ _ Hf) as (pre & rest & -> & <- & Hno).
        rewrite length_append in *. simpl String.length in *.
        rewrite drop_backslashes_app, (drop_backslashes_none pre) by done.
        destruct rest as [| y rest].
        * destruct (Nat.eqb_spec (String.length pre)
                      (String.length pre + S (String.length "") - 1)) as [_ | Hx];
            [| simpl in Hx; lia].
          rewrite ends_with_backslash_app. simpl.
          by rewrite string_app_nil_r.
        * destruct (Nat.eqb_spec (String.length pre)
                      (String.length pre + S (String.length (String y rest)) - 1))
            as [Hx | _]; [simpl in Hx; lia |].
          rewrite substr_to_app.
          replace (pre ++ String backslash (String y rest))
            with ((pre ++ String backslash "") ++ String y rest)
            by (by rewrite string_app_assoc).
          replace (String.length pre + 1)%nat
            with (String.length (pre ++ String backslash ""))
            by (rewrite length_append; simpl; lia).
          rewrite substr_from_app, IH
            by (rewrite length_append; simpl in Hlen |- *; lia).
          rewrite drop_backslashes_app, (drop_backslashes_none pre) by done.
          rewrite !ends_with_backslash_app. reflexivity.
      + assert (Hno : ¬ occurs backslash s) by by apply find_char_none.
        rewrite drop_backslashes_none, ends_with_backslash_none by done.
        by rewrite string_app_nil_r.
  }
  unfold unescape. by apply G.
Qed.

(** ** MyGetNextFeature: a chunk for the current layer *)

(** What a chunk leaves in an open layer that has room for it. *)
Lemma deliver_open this : forall c ls L,
  ls !! this = Some L -> open_layer L ->
  size (m_apoFeatures L) + Z.of_nat (length c) <= MAX_THRESHOLD + 1 ->
  exists L',
    deliver c ls !! this = Some L'
    ∧ m_apoFeatures L' = (m_apoFeatures L ++ (Some <$> features_for this c))%list
    ∧ m_nFeatureArrayIndex L' = m_nFeatureArrayIndex L.
Proof.
  induction c as [| [i f0] c IH]; intros ls L Hl Hopen Hroom.
  - exists L. simpl. by rewrite app_nil_r.
  - simpl in Hroom. cbn [deliver]. unfold features_for. cbn [List.filter fst].
    fold (features_for this c) in *.
    destruct (Nat.eqb_spec i this) as [-> | Hne].
    + rewrite Hl. destruct Hopen as (Hi & Hg & Ha).
      assert (Hs : size (m_apoFeatures L) <= MAX_THRESHOLD) by lia.
      rewrite (AddFeature_open L f0 false Hi Hg Ha Hs). cbn [add_layer].
      destruct (IH (<[this := set_features L (m_apoFeatures L ++ [Some f0])%list
                                 (m_nFeatureArrayIndex L)]> ls)
                   (set_features L (m_apoFeatures L ++ [Some f0])%list
                                 (m_nFeatureArrayIndex L)))
        as (L' & H1 & H2 & H3).
      * apply list_lookup_insert_eq. by apply lookup_lt_Some in Hl.
      * done.
      * simpl. rewrite size_app. unfold size at 2. simpl. lia.
      * exists L'. split; [done |]. simpl in H2, H3. split; [| done].
        rewrite H2, <- app_assoc. done.
    + destruct (ls !! i) as [Li |] eqn:Hi.
      * destruct (IH (<[i := add_layer (AddFeature Li f0 false true false)]> ls) L)
          as (L' & H1 & H2 & H3); [by rewrite list_lookup_insert_ne | done | lia |].
        by exists L'.
      * destruct (IH ls L) as (L' & H1 & H2 & H3); [done | done | lia |].
        by exists L'.
Qed.

(** X21: in interleaved mode, when the layer that is asked is the current
    one (or none is), its array is empty, no other layer is over
    SWITCH_THRESHOLD, and the next chunk of the stream has features for it,
    which the layer all takes, then one call of [ParseNextChunk] consumes
    that chunk and the first of these features is returned; the layer is
    written to ppoNewCurLayer and the other features of the chunk for it
    wait in their order. *)
Theorem chunk_feeds_the_current_layer (fuel : nat) (ds : OGROSMDataSource)
    (this : nat) (L : LayerBuffer) (c : Chunk) (rest : list Chunk)
    (f : OGRFeature) (fs : list OGRFeature) :
  m_bInterleavedReading ds = true ->
  (m_poCurrentLayer ds = None ∨ m_poCurrentLayer ds = Some this) ->
  m_apoLayers ds !! this = Some L ->
  m_apoFeatures L = [] -> m_nFeatureArrayIndex L = 0%nat -> open_layer L ->
  (forall k Lk, m_apoLayers ds !! k = Some Lk -> k ≠ this ->
                size (m_apoFeatures Lk) <= SWITCH_THRESHOLD) ->
  m_stream ds = c :: rest -> Z.of_nat (length c) <= MAX_THRESHOLD ->
  features_for this c = f :: fs ->
  exists r L',
    MyGetNextFeature fuel ds this = Some r
    ∧ poFeature_of r = Some f
    ∧ ppoNewCurLayer_of r = Some this
    ∧ m_stream (ds_of r) = rest
    ∧ m_nChunkCalls (ds_of r) = S (m_nChunkCalls ds)
    ∧ m_apoLayers (ds_of r) !! this = Some L'
    ∧ pending L' = (Some <$> fs).
Proof.
  intros Hint Hcur Hl He Hidx Hopen Hsmall Hst Hlen Hfor.
  set (ls := alter (fun L => set_reset_allowed L true) this (m_apoLayers ds)).
  destruct (deliver_open this c ls (set_reset_allowed L true)) as (L1 & D1 & D2 & D3).
  { by apply touched_lookup. }
  { exact Hopen. }
  { simpl. rewrite He. unfold size. simpl. lia. }
  simpl in D2, D3. rewrite He, Hfor in D2. rewrite Hidx in D3. simpl in D2.
  assert (Hok1 : cursor_ok L1).
  { split.
    - left. rewrite D3, D2. simpl. lia.
    - unfold pending. rewrite D3, D2. rewrite drop_0.
      constructor; [by eexists |]. apply Forall_forall. intros x Hx.
      apply list_elem_of_fmap in Hx as (y & -> & _). by eexists. }
  assert (Hp1 : pending L1 = Some f :: (Some <$> fs)).
  { unfold pending. by rewrite D3, D2. }
  destruct (TakeNext_fifo L1 (Some f) (Some <$> fs) Hok1 Hp1) as (_ & T1 & T2 & _).
  unfold MyGetNextFeature. cbv zeta. fold ls.
  rewrite (is_empty_lookup _ this (set_reset_allowed L true))
    by (simpl; by apply touched_lookup).
  simpl. rewrite He, Hint. simpl.
  assert (Hc : (match m_poCurrentLayer ds with None => Some this | Some c => Some c end)
               = Some this) by (by destruct Hcur as [-> | ->]).
  rewrite Hc, bool_decide_eq_true_2 by done. simpl.
  rewrite scan_layers_none.
  2:{ intros k Lk1 Hk Hn. destruct (touched_arrays ds this k Lk1 Hk) as (Lk & Hlk & E).
      unfold over_switch. rewrite E.
      specialize (Hsmall k Lk Hlk Hn).
      destruct (Z.gtb_spec (size (m_apoFeatures Lk)) SWITCH_THRESHOLD); [lia | done]. }
  unfold ParseNextChunk. simpl. rewrite Hst.
  unfold is_empty. cbn [m_apoLayers]. fold ls. rewrite D1.
  rewrite bool_decide_eq_false_2 by (by rewrite D2).
  unfold take_from. cbn [m_apoLayers]. rewrite D1.
  destruct (TakeNext L1) as [s L2]. simpl in T1, T2. subst s.
  eexists _, L2. split; [reflexivity |]. simpl.
  repeat split; try done.
  apply list_lookup_insert_eq. by apply lookup_lt_Some in D1.
Qed.

(** X21 on two empty layers and a chunk with two features for the current
    layer 1: the first of the two is returned. *)
Lemma chunk_feeds_witness :
  exists r,
    MyGetNextFeature 0 feeding_ds 1 = Some r
    ∧ poFeature_of r = Some feature2
    ∧ m_stream (ds_of r) = [].
Proof.
  destruct (chunk_feeds_the_current_layer 0 feeding_ds 1 (new_buffer true None None)
              [(0%nat, feature1); (1%nat, feature2); (1%nat, feature0)] []
              feature2 [feature0])
    as (r & L' & Hr & Hf & _ & Hs & _); try done.
  - by right.
  - intros [| [| k]] Lk Hk Hn; try done. injection Hk as <-. by vm_compute.
  - by exists r.
Defined.

(** ** The z_order field of the record *)

Lemma vec_at_bound an n i :
  0 <= n -> Forall (fun idx => -1 <= idx < n) an -> -1 <= vec_at an i < n.
Proof.
  intros Hn Hall. unfold vec_at.
  destruct (nth_in_or_default i an (-1)) as [Hin | ->]; [| lia].
  rewrite Forall_forall in Hall. by apply Hall, list_elem_of_In.
Qed.

Section ZOrderRecord.
Context `{External}.

Lemma eval_attributes_app L pasTags l1 l2 : forall f,
  fst (eval_attributes L pasTags (l1 ++ l2)%list f)
  = fst (eval_attributes L pasTags l2 (fst (eval_attributes L pasTags l1 f))).
Proof.
  induction l1 as [| a l1 IH]; intros f; [done |].
  rewrite <- app_comm_cons. cbn [eval_attributes].
  destruct (eval_attribute L pasTags a f) as [f1 a1].
  specialize (IH f1).
  destruct (eval_attributes L pasTags (l1 ++ l2)%list f1) as [f2 r2].
  destruct (eval_attributes L pasTags l1 f1) as [f3 r3]. done.
Qed.

Lemma zorder_input_ext f1 f2 pasTags idx key :
  (0 <= idx -> GetRawField f1 idx = GetRawField f2 idx) ->
  zorder_input f1 pasTags idx key = zorder_input f2 pasTags idx key.
Proof.
  intros E. unfold zorder_input.
  destruct (Z.geb_spec idx 0); [by rewrite E by lia | done].
Qed.

(** The fast path reads the record through the indices it binds only. *)
Lemma HardcodedZOrder_ext oAttr f1 f2 pasTags :
  (forall i, 0 <= vec_at (anIndexToBind oAttr) i ->
     GetRawField f1 (vec_at (anIndexToBind oAttr) i)
     = GetRawField f2 (vec_at (anIndexToBind oAttr) i)) ->
  HardcodedZOrder oAttr f1 pasTags = HardcodedZOrder oAttr f2 pasTags.
Proof.
  intros E. unfold HardcodedZOrder. cbv zeta.
  rewrite (zorder_input_ext f1 f2 pasTags _ "highway") by apply E.
  rewrite (zorder_input_ext f1 f2 pasTags _ "bridge") by apply E.
  rewrite (zorder_input_ext f1 f2 pasTags _ "tunnel") by apply E.
  rewrite (zorder_input_ext f1 f2 pasTags _ "railway") by apply E.
  rewrite (zorder_input_ext f1 f2 pasTags _ "layer") by apply E.
  reflexivity.
Qed.

(** X22: in a layer that is in order, on a feature of the layer's
    definition, the field of a fast-path attribute holds, when
    [SetFieldsFromTags] returns, the z_order formula of the inputs as the
    returned record and the tags give them (each from the field declared for
    it, else from the first tag of its key), when ten times the layer number
    and the value of the formula are within the range of [int]: what the
    fast path stored is overwritten by no later attribute, and no field that
    it read is written after it. *)
Theorem z_order_field_is_its_formula (o : OSMOptions) (L : OGROSMLayer)
    (f : OGRFeature) (nID : Z) (bIsWayID : bool) (pasTags : list OSMTag)
    (psInfo : OSMInfo) (oAttr : OGROSMComputedAttribute) :
  layer_wf o L -> length (fields f) = length (m_poFeatureDefn L) ->
  oAttr ∈ m_oComputedAttributes L -> bHardcodedZOrder oAttr = true ->
  let F := fst (SetFieldsFromTags o L f nID bIsWayID pasTags psInfo) in
  let input := fun i key => declared_input F pasTags (vec_at (anIndexToBind oAttr) i) key in
  let exact := zorder_formula (input 0%nat "highway") (input 1%nat "bridge")
                 (input 2%nat "tunnel") (input 3%nat "railway") (input 4%nat "layer") in
  (forall l, input 4%nat "layer" = Some l -> - 2 ^ 31 <= 10 * parse_int l < 2 ^ 31) ->
  - 2 ^ 31 <= exact < 2 ^ 31 ->
  GetRawField F (nIndex oAttr) = Some (OFInteger exact).
Proof.
  intros Hwf Hlen Hin Hfast F input exact Hlayer Hrange.
  apply list_elem_of_lookup_1 in Hin as [k Hk].
  destruct (wf_attrs _ _ Hwf oAttr (list_elem_of_lookup_2 _ _ _ Hk)) as (H0 & Hd & _).
  destruct (wf_binds _ _ Hwf oAttr (list_elem_of_lookup_2 _ _ _ Hk)) as (_ & Hb & _).
  apply lookup_lt_Some in Hd.
  pose proof (take_drop_middle _ _ _ Hk) as Hsplit.
  set (pre := take k (m_oComputedAttributes L)) in *.
  set (post := drop (S k) (m_oComputedAttributes L)) in *.
  set (f0 := fst (store_aggregate o L
                    (project_tags o L
                       (set_metadata L (set_identifier L f nID bIsWayID) psInfo)
                       pasTags))).
  set (f1 := fst (eval_attributes L pasTags pre f0)).
  set (f2 := SetField f1 (nIndex oAttr) (OFInteger (HardcodedZOrder oAttr f1 pasTags))).
  assert (EF : F = fst (eval_attributes L pasTags post f2)).
  { subst F. rewrite SetFieldsFromTags_feature. fold f0.
    rewrite <- Hsplit, eval_attributes_app. fold f1.
    cbn [eval_attributes]. unfold eval_attribute at 1. rewrite Hfast. fold f2.
    by destruct (eval_attributes L pasTags post f2). }
  assert (Hlen1 : length (fields f1) = length (fields f)).
  { subst f1. destruct (eval_attributes_spec L pasTags pre f0) as (_ & -> & _).
    subst f0. apply before_attributes_length. }
  assert (Hpost : forall i, i <= nIndex oAttr -> Forall (fun b => nIndex b ≠ i) post).
  { intros i Hi. apply Forall_forall. intros b Hb'.
    apply list_elem_of_lookup_1 in Hb' as [j Hj]. subst post.
    rewrite lookup_drop in Hj.
    pose proof (wf_sorted _ _ Hwf k (S k + j)%nat oAttr b Hk Hj ltac:(lia)). lia. }
  assert (Hframe : forall i, i <= nIndex oAttr -> GetRawField F i = GetRawField f2 i).
  { intros i Hi. rewrite EF.
    destruct (eval_attributes_spec L pasTags post f2) as (_ & _ & E3).
    by apply E3, Hpost. }
  assert (Hsame : HardcodedZOrder oAttr f1 pasTags = HardcodedZOrder oAttr F pasTags).
  { apply HardcodedZOrder_ext. intros i Hi.
    pose proof (vec_at_bound (anIndexToBind oAttr) (nIndex oAttr) i H0 Hb) as Hv.
    rewrite Hframe by lia. subst f2.
    by rewrite GetRawField_SetField_ne by lia. }
  rewrite Hframe by lia. subst f2.
  rewrite GetRawField_SetField_eq by lia.
  rewrite Hsame. do 2 f_equal.
  unfold HardcodedZOrder. cbv zeta. rewrite !zorder_input_declared.
  fold (input 0%nat "highway") (input 1%nat "bridge") (input 2%nat "tunnel")
       (input 3%nat "railway") (input 4%nat "layer").
  pose proof (zorder_chain (input 0%nat "highway") (input 1%nat "bridge")
                (input 2%nat "tunnel") (input 3%nat "railway")
                (input 4%nat "layer") Hlayer) as Hc.
  cbv zeta in Hc. rewrite Hc. by apply wrap_int_small.
Qed.

End ZOrderRecord.

(** X22 on a motorway on a bridge at layer 2, with a tag z_order of its
    own: the field z_order holds 39. *)
Lemma z_order_field_witness :
  GetRawField
    (fst (@SetFieldsFromTags null_rows plain_options way_layer
            (OGRFeature_new (m_poFeatureDefn way_layer)) 42 false
            (mkTag "z_order" "7" :: motorway_bridge) no_info))
    4
  = Some (OFInteger 39).
Proof.
  assert (Hin : way_zorder_attribute ∈ m_oComputedAttributes way_layer).
  { replace (m_oComputedAttributes way_layer) with [way_zorder_attribute]
      by (vm_compute; reflexivity).
    by left. }
  etrans.
  - apply (@z_order_field_is_its_formula null_rows plain_options way_layer
             (OGRFeature_new (m_poFeatureDefn way_layer)) 42 false
             (mkTag "z_order" "7" :: motorway_bridge) no_info way_zorder_attribute
             way_layer_wf eq_refl Hin eq_refl).
    + intros l Hl. vm_compute in Hl. injection Hl as <-.
      vm_compute. split; [discriminate | reflexivity].
    + vm_compute. split; [discriminate | reflexivity].
  - vm_compute. reflexivity.
Defined.

(** ** AddIgnoreKey *)

(** X23: once [AddIgnoreKey] was given a key, [AddInOtherOrAllTags] lets
    that key through no more; it lets through no key that it did not let
    through before, and it answers as before for every key that is not the
    given one and whose text up to its first colon is not the given one.
    The fields, their indices and the computed attributes are as they
    were. *)
Theorem ignored_key_is_let_through_no_more (L : OGROSMLayer) (pszK : string) :
  let L' := AddIgnoreKey L pszK in
  AddInOtherOrAllTags (aoSetIgnoreKeys L') pszK = false
  ∧ (forall key, AddInOtherOrAllTags (aoSetIgnoreKeys L') key = true ->
                 AddInOtherOrAllTags (aoSetIgnoreKeys L) key = true)
  ∧ (forall key, key ≠ pszK ->
       (forall colon, find_char ":" key 0 = Some colon ->
                      substr_to key (S colon) ≠ pszK) ->
       AddInOtherOrAllTags (aoSetIgnoreKeys L') key
       = AddInOtherOrAllTags (aoSetIgnoreKeys L) key)
  ∧ m_poFeatureDefn L' = m_poFeatureDefn L
  ∧ (forall name, GetFieldIndex L' name = GetFieldIndex L name)
  ∧ m_oComputedAttributes L' = m_oComputedAttributes L.
Proof.
  intros L'. subst L'. unfold AddIgnoreKey, AddInOtherOrAllTags. simpl.
  split; [| split; [| split]].
  - rewrite bool_decide_eq_false_2; [done |]. intros Hn. apply Hn. set_solver.
  - intros key Hk.
    case_bool_decide as H1; [| done].
    rewrite bool_decide_eq_true_2 by set_solver.
    destruct (find_char ":" key 0) as [colon |]; [| done].
    apply bool_decide_eq_true in Hk. apply bool_decide_eq_true_2. set_solver.
  - intros key Hne Hpre.
    destruct (decide (key ∈ aoSetIgnoreKeys L)) as [Hin | Hout].
    + rewrite !bool_decide_eq_false_2;
        [done | by intros Hn | intros Hn; apply Hn, elem_of_union; by right].
    + rewrite !bool_decide_eq_true_2
        by first [done | apply not_elem_of_union; split;
                         [by apply not_elem_of_singleton | done]].
      destruct (find_char ":" key 0) as [colon |]; [| done].
      specialize (Hpre colon eq_refl).
      apply bool_decide_ext. rewrite not_elem_of_union, not_elem_of_singleton.
      split; [by intros [_ ?] | by intros ?].
  - done.
Qed.

(** ** The metadata of the entity *)

Lemma defn_index_inj defn n1 n2 i :
  0 <= i -> OGRFeatureDefn_GetFieldIndex defn n1 = i ->
  OGRFeatureDefn_GetFieldIndex defn n2 = i -> n1 = n2.
Proof.
  unfold OGRFeatureDefn_GetFieldIndex. intros Hi E1 E2.
  destruct (defn_index_from_found defn n1 0 i ltac:(lia) E1 ltac:(lia))
    as (_ & d1 & Hd1 & <-).
  destruct (defn_index_from_found defn n2 0 i ltac:(lia) E2 ltac:(lia))
    as (_ & d2 & Hd2 & <-).
  congruence.
Qed.

Lemma write_metadata_length defn f e :
  length (fields (write_metadata defn f e)) = length (fields f).
Proof.
  unfold write_metadata, SetFieldByName. destruct (snd e); [apply SetField_length | done].
Qed.

Lemma fold_write_length defn l : forall f,
  length (fields (fold_left (write_metadata defn) l f)) = length (fields f).
Proof.
  induction l as [| e l IH]; intros f; simpl; [done |].
  by rewrite IH, write_metadata_length.
Qed.

Lemma fold_write_other defn i l : forall f,
  Forall (fun e => OGRFeatureDefn_GetFieldIndex defn (fst e) ≠ i) l ->
  GetRawField (fold_left (write_metadata defn) l f) i = GetRawField f i.
Proof.
  induction l as [| e l IH]; intros f Hall; simpl; [done |].
  apply Forall_cons in Hall as [He Hall]. rewrite IH by done.
  unfold write_metadata, SetFieldByName. destruct (snd e); [| done].
  by apply GetRawField_SetField_ne.
Qed.

(** Of a sequence of such calls for names that are all different, each is
    the last to write its field. *)
Lemma fold_write_lookup defn name v i l : forall f,
  NoDup (fst <$> l) -> (name, Some v) ∈ l ->
  OGRFeatureDefn_GetFieldIndex defn name = i ->
  0 <= i < Z.of_nat (length (fields f)) ->
  GetRawField (fold_left (write_metadata defn) l f) i = Some v.
Proof.
  induction l as [| [n0 ov0] l IH]; intros f Hnd Hin Hidx Hi.
  - by apply elem_of_nil in Hin.
  - rewrite fmap_cons in Hnd. apply NoDup_cons in Hnd as [Hn0 Hnd]. simpl in Hn0.
    cbn [fold_left].
    apply elem_of_cons in Hin as [E | Hin].
    + injection E as <- <-.
      rewrite fold_write_other.
      * unfold write_metadata, SetFieldByName. simpl. rewrite Hidx.
        by apply GetRawField_SetField_eq.
      * apply Forall_forall. intros [n' ov'] Hin' E'. simpl in E'.
        assert (n' = name) as -> by (by apply (defn_index_inj defn _ _ i); try lia).
        apply Hn0. apply list_elem_of_fmap. by exists (name, ov').
    + apply IH; try done. by rewrite write_metadata_length.
Qed.

Section Metadata.
Context `{External}.

(** Lines 589-624 are these calls, in this order. *)
Lemma set_metadata_writes L f psInfo :
  set_metadata L f psInfo
  = fold_left (write_metadata (m_poFeatureDefn L)) (metadata_values L psInfo) f.
Proof.
  unfold set_metadata, metadata_values, write_metadata. cbv zeta. cbn [fold_left fst snd].
  destruct (m_bHasVersion L), (m_bHasTimestamp L), (bTimeStampIsStr psInfo),
           (OGRParseXMLDateTime (ts_pszTimeStamp psInfo)),
           (m_bHasUID L), (m_bHasUser L), (m_bHasChangeset L); reflexivity.
Qed.

(** X24: in a layer that is in order, a metadata field that the layer has
    (version, time stamp when it parses, uid, user, change set), whose name
    was declared with [AddField] and finds that field in the definition,
    holds, when [SetFieldsFromTags] returns, what lines 589-624 gave to
    SetField, unless the entity has a tag with the name of the field as its
    key: no other metadata, no other tag, no aggregate and no computed
    attribute is written to it. *)
Theorem metadata_is_in_the_record (o : OSMOptions) (L : OGROSMLayer)
    (f : OGRFeature) (nID : Z) (bIsWayID : bool) (pasTags : list OSMTag)
    (psInfo : OSMInfo) (name : string) (v : OGRField) (i : Z) :
  layer_wf o L -> fits L f ->
  (name, Some v) ∈ metadata_values L psInfo ->
  m_oMapFieldNameToIndex L !! name = Some i ->
  OGRFeatureDefn_GetFieldIndex (m_poFeatureDefn L) name = i ->
  Forall (fun t => pszK t ≠ name) pasTags ->
  GetRawField (fst (SetFieldsFromTags o L f nID bIsWayID pasTags psInfo)) i = Some v.
Proof.
  intros Hwf Hfit Hin Hmap Hidx Htags.
  destruct (Hfit _ _ Hmap) as [H0 Hlt].
  assert (Hname : name ∈ ["osm_version"; "osm_timestamp"; "osm_uid"; "osm_user";
                          "osm_changeset"]).
  { apply (list_elem_of_fmap_2 fst) in Hin. exact Hin. }
  assert (Hagg : (if m_nIndexAllTags L >=? 0 then m_nIndexAllTags L
                  else m_nIndexOtherTags L) ≠ i).
  { rewrite (wf_all_tags _ _ Hwf), (wf_other_tags _ _ Hwf).
    destruct (GetFieldIndex L "all_tags" >=? 0);
      apply (wf_index_of_name o L name); try done; intros ->;
      repeat (apply elem_of_cons in Hname as [Hname | Hname]; [discriminate Hname |]);
      by apply elem_of_nil in Hname. }
  rewrite SetFieldsFromTags_feature.
  destruct (eval_attributes_spec L pasTags (m_oComputedAttributes L)
              (fst (store_aggregate o L
                      (project_tags o L
                         (set_metadata L (set_identifier L f nID bIsWayID) psInfo)
                         pasTags)))) as (_ & _ & E3).
  rewrite E3.
  2:{ apply Forall_forall. intros a Ha. by apply (wf_apart _ _ Hwf name). }
  assert (P : GetRawField (fst (project_tags o L
                                  (set_metadata L (set_identifier L f nID bIsWayID) psInfo)
                                  pasTags)) i = Some v).
  { unfold project_tags. rewrite fold_project_other.
    - simpl. rewrite set_metadata_writes.
      apply (fold_write_lookup _ name v i); try done.
      + simpl. repeat (apply NoDup_cons; split;
          [intros Hx; repeat (apply elem_of_cons in Hx as [Hx | Hx]; [discriminate Hx |]);
           by apply elem_of_nil in Hx |]).
        apply NoDup_nil_2.
      + rewrite set_identifier_length. lia.
    - eapply Forall_impl; [exact Htags |]. intros t Hne. simpl in Hne.
      apply (wf_index_of_name o L name); [done | done | congruence]. }
  destruct (project_tags o L _ pasTags) as [f1 buf1]. cbn [fst] in P.
  rewrite store_aggregate_feature.
  destruct (negb (String.eqb buf1 "")); [| done].
  by rewrite GetRawField_SetField_ne by congruence.
Qed.

End Metadata.

Lemma metadata_layer_wf : layer_wf plain_options metadata_layer.
Proof. apply (@setup_wf_from null_rows). apply new_layer_wf. Qed.

(** X24 on a node of user 7, with a name: the field osm_uid holds 7. *)
Lemma metadata_witness :
  GetRawField
    (fst (@SetFieldsFromTags null_rows plain_options metadata_layer
            (OGRFeature_new (m_poFeatureDefn metadata_layer)) 42 false
            [mkTag "name" "Main St"] version_3))
    2
  = Some (OFInteger 7).
Proof.
  apply (@metadata_is_in_the_record null_rows plain_options metadata_layer
           (OGRFeature_new (m_poFeatureDefn metadata_layer)) 42 false
           [mkTag "name" "Main St"] version_3 "osm_uid" (OFInteger 7) 2
           metadata_layer_wf).
  - apply schema_ok_fits. intros name i Hl.
    destruct (wf_fields _ _ metadata_layer_wf _ _ Hl) as (H0 & d & Hd & _).
    apply lookup_lt_Some in Hd. unfold GetFieldCount. lia.
  - do 2 right. left.
  - reflexivity.
  - reflexivity.
  - repeat constructor. discriminate.
Defined.
